(** * Optical-flow velocity estimation: the tracker core and its S-function caller

    A shallow embedding of [OpticalFlowTracking]
    (include/optical_flow_velocity.hpp, src/optical_flow_velocity.cpp) and of
    the velocity step of [mdlOutputs], its caller in the S-function.

    - C [float] is IEEE-754 binary32, computed with the Standard Library's
      [SpecFloat] operations at precision 24 and exponent bound 128; every
      C operator is one rounded operation.
    - OpenCV and libm are not part of the repository: their entry points are
      the fields of the class [Library].  A call into OpenCV either returns
      or throws [cv::Exception].
    - A member function is a state transformer on the tracker object that
      also says how the call ended: it returned, it let an exception through
      (the fields written before the throw keep their new values), or it
      read a vector out of range. *)

From Stdlib Require Import ZArith List String Bool Lia QArith.
From Stdlib Require Import Floats.SpecFloat.
Import ListNotations.
Open Scope Z_scope.

(** ** binary32 arithmetic *)

Definition float : Type := spec_float.

(** The double of a float, computed on its representation: the exponent goes
    up by one, and past the largest exponent the result is an infinity. *)
Definition SFdouble (prec emax : Z) (x : spec_float) : spec_float :=
  match x with
  | S754_finite s m e =>
      if e + 1 <=? emax - prec then S754_finite s m (e + 1)
      else S754_infinity s
  | _ => x
  end.

(** A finite number with a full mantissa and an exponent in range, or an
    infinity. *)
Definition normal_or_inf (prec emax : Z) (r : spec_float) : Prop :=
  match r with
  | S754_finite _ m e =>
      Zpos (digits2_pos m) = prec /\ bounded prec emax m e = true
  | S754_infinity _ => True
  | _ => False
  end.

(** Not a subnormal number: a normal number, a zero, an infinity or NaN. *)
Definition not_subnormal (prec emax : Z) (r : spec_float) : Prop :=
  match r with
  | S754_finite _ m e =>
      Zpos (digits2_pos m) = prec /\ bounded prec emax m e = true
  | _ => True
  end.

Module F32.

Definition prec : Z := 24.
Definition emax : Z := 128.

Definition add : float -> float -> float := SFadd prec emax.
Definition sub : float -> float -> float := SFsub prec emax.
Definition mul : float -> float -> float := SFmul prec emax.
Definition div : float -> float -> float := SFdiv prec emax.
Definition neg : float -> float := SFopp.

(** [static_cast<float>(int)] *)
Definition of_int (z : Z) : float := binary_normalize prec emax z 0 false.

(** [static_cast<float>(double)]: a binary64 value rounded to binary32. *)
Definition of_double (d : spec_float) : float :=
  match d with
  | S754_finite s m e => binary_round prec emax s m e
  | _ => d
  end.

Definition zero : float := S754_zero false.
Definition one : float := Eval vm_compute in of_int 1.
Definition two : float := Eval vm_compute in of_int 2.

Definition is_zero (x : float) : bool :=
  match x with S754_zero _ => true | _ => false end.

Definition double : float -> float := SFdouble prec emax.

(** A well-formed number of the normal range, [2^-126 <= |x| < 2^128]. *)
Definition is_normal (x : float) : bool :=
  match x with
  | S754_finite _ m e => (Zpos (digits2_pos m) =? prec) && bounded prec emax m e
  | _ => false
  end.

(** [2 * x] does not overflow: [x] is not finite or [|x| < 2^127]. *)
Definition double_is_finite (x : float) : bool :=
  match x with
  | S754_finite _ _ e => e + 1 <=? emax - prec
  | _ => true
  end.

(** The exact product of two finite numbers does not underflow: it is at
    least [2^-126] in absolute value. *)
Definition product_is_normal (x y : float) : bool :=
  match x, y with
  | S754_finite _ mx ex, S754_finite _ my ey =>
      emin prec emax <=? Zpos (digits2_pos (mx * my)) + (ex + ey) - prec
  | _, _ => true
  end.

(** The quotient of two finite numbers is well inside the normal range: with
    [2^(a-1) <= |x| < 2^a] and [2^(b-1) <= |y| < 2^b], [a - b >= -125], so
    that [|x / y| > 2^-126]. *)
Definition quotient_is_normal (x y : float) : bool :=
  match x, y with
  | S754_finite _ mx ex, S754_finite _ my ey =>
      emin prec emax
      <=? Zpos (digits2_pos mx) + ex - (Zpos (digits2_pos my) + ey) - prec
  | _, _ => true
  end.

(** No overflow and no underflow on the way from [height] to
    [height * c / dt] and to its double: the height is a normal number whose
    double is finite, the product [height * c] does not underflow, its
    rounded value has a finite double, and the quotient by [dt] does not
    underflow.  A height that is zero, infinite or NaN passes. *)
Definition doubling_is_exact (height c dt : float) : bool :=
  match height with
  | S754_finite _ _ _ =>
      is_normal height && double_is_finite height &&
      product_is_normal height c &&
      double_is_finite (mul height c) &&
      quotient_is_normal (mul height c) dt
  | _ => true
  end.

End F32.

Declare Scope f32_scope.
Delimit Scope f32_scope with f32.
Infix "+" := F32.add : f32_scope.
Infix "-" := F32.sub : f32_scope.
Infix "*" := F32.mul : f32_scope.
Infix "/" := F32.div : f32_scope.
Notation "- x" := (F32.neg x) : f32_scope.

(** ** The OpenCV values the tracker handles *)

Module cv.

(** [cv::Exception], by its [what()]. *)
Record Exception := { what : string }.

Record Point2f := { x : float; y : float }.

(** [cv::Mat]: its header fields and its bytes, row-major. *)
Record Mat := { rows : Z; cols : Z; channels : Z; data : list Z }.

(** [cv::Mat()] *)
Definition Mat_default : Mat :=
  {| rows := 0; cols := 0; channels := 1; data := [] |}.

(** [Mat::empty()]: no element. *)
Definition empty (m : Mat) : bool := (rows m * cols m =? 0).

(** [Mat::clone()]: a deep copy, the same value. *)
Definition clone (m : Mat) : Mat := m.

Record Size := { width : Z; height : Z }.

Record TermCriteria := { type : Z; maxCount : Z; epsilon : Q }.

Definition TermCriteria_COUNT : Z := 1.
Definition TermCriteria_EPS : Z := 2.
Definition COLOR_BGR2GRAY : Z := 6.

(** How a call into the library ends: it returns, or it throws
    [cv::Exception]. *)
Inductive result (A : Type) : Type :=
| Returns (a : A)
| Raises (e : Exception).
Arguments Returns {A} a.
Arguments Raises {A} e.

End cv.

(** ** How a member function ends

    It returns, it lets a [cv::Exception] through, or it has read a vector
    out of range. *)

Inductive outcome (A : Type) : Type :=
| Ok (a : A)
| Throw (e : cv.Exception)
| Undefined.
Arguments Ok {A} a.
Arguments Throw {A} e.
Arguments Undefined {A}.

(** ** The library the tracker is linked against *)

Class Library : Type := {
  (** [std::atan(float)] and [std::tan(float)] *)
  std_atan : float -> float;
  std_tan : float -> float;
  (** [cv::cvtColor(src, dst, code)], returning [dst] *)
  cvtColor : cv.Mat -> Z -> cv.result cv.Mat;
  (** [cv::goodFeaturesToTrack(image, corners, maxCorners, qualityLevel,
      minDistance, mask, blockSize)], returning [corners] *)
  goodFeaturesToTrack :
    cv.Mat -> Z -> Q -> Q -> cv.Mat -> Z -> cv.result (list cv.Point2f);
  (** [cv::calcOpticalFlowPyrLK(prevImg, nextImg, prevPts, nextPts, status,
      err, winSize, maxLevel, criteria)], returning [nextPts], [status] and
      [err] *)
  calcOpticalFlowPyrLK :
    cv.Mat -> cv.Mat -> list cv.Point2f -> cv.Size -> Z -> cv.TermCriteria ->
    cv.result (list cv.Point2f * list Z * list float)
}.

(** ** The tracker object (optical_flow_velocity.hpp, private members) *)

Record OpticalFlowTracking : Type := {
  _method : Z;
  _delta_t : float;
  _focal_length : float;
  _cmos_width : float;
  _cmos_height : float;
  _fov_h : float;
  _fov_v : float;
  _img_width : Z;
  _img_height : Z;
  _debug_count : Z;
  _last_im : cv.Mat;
  _features : list cv.Point2f
}.

Definition _criteria : cv.TermCriteria :=
  {| cv.type := cv.TermCriteria_COUNT + cv.TermCriteria_EPS;
     cv.maxCount := 8;
     cv.epsilon := 3 # 100 |}.

Definition OPTICAL_FLOW_LUCAS_KANADE : Z := 100.

(** Assignments to single members. *)

Definition set_delta_t (v : float) (t : OpticalFlowTracking) :=
  {| _method := _method t; _delta_t := v;
     _focal_length := _focal_length t; _cmos_width := _cmos_width t;
     _cmos_height := _cmos_height t; _fov_h := _fov_h t; _fov_v := _fov_v t;
     _img_width := _img_width t; _img_height := _img_height t;
     _debug_count := _debug_count t; _last_im := _last_im t;
     _features := _features t |}.

Definition set_fov_h (v : float) (t : OpticalFlowTracking) :=
  {| _method := _method t; _delta_t := _delta_t t;
     _focal_length := _focal_length t; _cmos_width := _cmos_width t;
     _cmos_height := _cmos_height t; _fov_h := v; _fov_v := _fov_v t;
     _img_width := _img_width t; _img_height := _img_height t;
     _debug_count := _debug_count t; _last_im := _last_im t;
     _features := _features t |}.

Definition set_fov_v (v : float) (t : OpticalFlowTracking) :=
  {| _method := _method t; _delta_t := _delta_t t;
     _focal_length := _focal_length t; _cmos_width := _cmos_width t;
     _cmos_height := _cmos_height t; _fov_h := _fov_h t; _fov_v := v;
     _img_width := _img_width t; _img_height := _img_height t;
     _debug_count := _debug_count t; _last_im := _last_im t;
     _features := _features t |}.

Definition set_img_width (v : Z) (t : OpticalFlowTracking) :=
  {| _method := _method t; _delta_t := _delta_t t;
     _focal_length := _focal_length t; _cmos_width := _cmos_width t;
     _cmos_height := _cmos_height t; _fov_h := _fov_h t; _fov_v := _fov_v t;
     _img_width := v; _img_height := _img_height t;
     _debug_count := _debug_count t; _last_im := _last_im t;
     _features := _features t |}.

Definition set_img_height (v : Z) (t : OpticalFlowTracking) :=
  {| _method := _method t; _delta_t := _delta_t t;
     _focal_length := _focal_length t; _cmos_width := _cmos_width t;
     _cmos_height := _cmos_height t; _fov_h := _fov_h t; _fov_v := _fov_v t;
     _img_width := _img_width t; _img_height := v;
     _debug_count := _debug_count t; _last_im := _last_im t;
     _features := _features t |}.

Definition set_debug_count (v : Z) (t : OpticalFlowTracking) :=
  {| _method := _method t; _delta_t := _delta_t t;
     _focal_length := _focal_length t; _cmos_width := _cmos_width t;
     _cmos_height := _cmos_height t; _fov_h := _fov_h t; _fov_v := _fov_v t;
     _img_width := _img_width t; _img_height := _img_height t;
     _debug_count := v; _last_im := _last_im t;
     _features := _features t |}.

Definition set_last_im (v : cv.Mat) (t : OpticalFlowTracking) :=
  {| _method := _method t; _delta_t := _delta_t t;
     _focal_length := _focal_length t; _cmos_width := _cmos_width t;
     _cmos_height := _cmos_height t; _fov_h := _fov_h t; _fov_v := _fov_v t;
     _img_width := _img_width t; _img_height := _img_height t;
     _debug_count := _debug_count t; _last_im := v;
     _features := _features t |}.

Definition set_features (v : list cv.Point2f) (t : OpticalFlowTracking) :=
  {| _method := _method t; _delta_t := _delta_t t;
     _focal_length := _focal_length t; _cmos_width := _cmos_width t;
     _cmos_height := _cmos_height t; _fov_h := _fov_h t; _fov_v := _fov_v t;
     _img_width := _img_width t; _img_height := _img_height t;
     _debug_count := _debug_count t; _last_im := _last_im t;
     _features := v |}.

(** [int] is 32 bits wide; [++] on it is modelled with the two's-complement
    wrap-around of the targets. *)
Definition wrap_int (z : Z) : Z := (z + 2 ^ 31) mod 2 ^ 32 - 2 ^ 31.

(** ** Member functions as state transformers *)

Definition M (A : Type) : Type :=
  OpticalFlowTracking -> outcome A * OpticalFlowTracking.

Definition ret {A} (a : A) : M A := fun t => (Ok a, t).

Definition bind {A B} (c : M A) (k : A -> M B) : M B :=
  fun t =>
    match c t with
    | (Ok a, t') => k a t'
    | (Throw e, t') => (Throw e, t')
    | (Undefined, t') => (Undefined, t')
    end.

Definition this : M OpticalFlowTracking := fun t => (Ok t, t).

Definition modify (f : OpticalFlowTracking -> OpticalFlowTracking) : M unit :=
  fun t => (Ok tt, f t).

(** A call into the library: an exception it throws goes through. *)
Definition call {A} (r : cv.result A) : M A :=
  fun t =>
    (match r with cv.Returns a => Ok a | cv.Raises e => Throw e end, t).

(** A computation that indexes vectors: [None] is a read out of range. *)
Definition indexing {A} (o : option A) : M A :=
  fun t => (match o with Some a => Ok a | None => Undefined end, t).

Declare Scope member_scope.
Delimit Scope member_scope with member.
Notation "x <- c ;; k" := (bind c (fun x => k))
  (at level 61, c at next level, right associativity) : member_scope.
Notation "' p <- c ;; k" := (bind c (fun x => let p := x in k))
  (at level 61, p pattern, c at next level, right associativity) : member_scope.
Notation "c ;; k" := (bind c (fun _ => k))
  (at level 61, right associativity) : member_scope.
Open Scope member_scope.

Section Tracker.

Context {L : Library}.

(** *** Constructor *)

Definition OpticalFlowTracking_ctor
    (method : Z) (delta_t camera_focal_length cmos_width cmos_height : float)
    : OpticalFlowTracking :=
  let t :=
    {| _method := method; _delta_t := delta_t;
       _focal_length := camera_focal_length;
       _cmos_width := cmos_width; _cmos_height := cmos_height;
       _fov_h := F32.zero; _fov_v := F32.zero;
       _img_width := 0; _img_height := 0; _debug_count := 0;
       _last_im := cv.Mat_default; _features := [] |} in
  let t :=
    set_fov_h
      (F32.two * std_atan (_cmos_width t / (F32.two * _focal_length t)))%f32 t in
  let t :=
    set_fov_v
      (F32.two * std_atan (_cmos_height t / (F32.two * _focal_length t)))%f32 t in
  t.

(** *** _set_delta_t_ and _has_features *)

Definition _set_delta_t_ (delta_t_ : spec_float) : M unit :=
  modify (set_delta_t (F32.of_double delta_t_)).

Definition vector_empty {A} (v : list A) : bool :=
  match v with [] => true | _ :: _ => false end.

Definition _has_features : M bool :=
  t <- this ;;
  ret (negb (vector_empty (_features t))).

(** *** extractFeatures *)

(** The grayscale conversion that opens both [extractFeatures] and
    [calculateRealVel]. *)
Definition to_gray (img : cv.Mat) : cv.result cv.Mat :=
  if cv.channels img =? 3
  then cvtColor img cv.COLOR_BGR2GRAY
  else cv.Returns (cv.clone img).

(** [_features.clear(); cv::goodFeaturesToTrack(gray, _features, 1000, 0.1,
    8.0, cv::Mat(), 2);] *)
Definition detect_into_features (gray : cv.Mat) : M unit :=
  modify (set_features []) ;;
  corners <- call (goodFeaturesToTrack gray 1000 (1 # 10) (8 # 1)
                     cv.Mat_default 2) ;;
  modify (set_features corners).

Definition extractFeatures (img : cv.Mat) : M unit :=
  gray <- call (to_gray img) ;;
  detect_into_features gray ;;
  has <- _has_features ;;
  if negb has then ret tt
  else
    modify (set_last_im gray) ;;
    modify (set_img_width (cv.cols gray)) ;;
    modify (set_img_height (cv.rows gray)).

(** *** calculateRealVel *)

Definition velocity_result : Type :=
  (list float * list float * list cv.Point2f * list cv.Point2f * bool)%type.

Definition push_back {A} (v : list A) (a : A) : list A := v ++ [a].

(** The first loop, lines 110-122: [n] iterations are left and the index
    is [i]; [acc] holds [vels_x], [vels_y] and [old_features]. *)
Fixpoint pixel_velocity_loop (n : nat) (i : nat)
    (new_features : list cv.Point2f) (status : list Z)
    (features : list cv.Point2f) (delta_t : float)
    (acc : list float * list float * list cv.Point2f)
    : option (list float * list float * list cv.Point2f) :=
  match n with
  | O => Some acc
  | S n' =>
      match nth_error status i with
      | None => None
      | Some s =>
          if s =? 0
          then pixel_velocity_loop n' (S i) new_features status features
                 delta_t acc
          else
            match nth_error new_features i, nth_error features i with
            | Some nf, Some f =>
                let dx := (cv.x nf - cv.x f)%f32 in
                let dy := (cv.y nf - cv.y f)%f32 in
                let '(vels_x, vels_y, old_features) := acc in
                pixel_velocity_loop n' (S i) new_features status features
                  delta_t
                  (push_back vels_x (dy / delta_t)%f32,
                   push_back vels_y (- dx / delta_t)%f32,
                   push_back old_features f)
            | _, _ => None
            end
      end
  end.

(** The second loop, lines 131-140. *)
Fixpoint real_velocity_loop (n : nat) (i : nat)
    (vels_x vels_y : list float) (height : float) (t : OpticalFlowTracking)
    (acc : list float * list float)
    : option (list float * list float) :=
  match n with
  | O => Some acc
  | S n' =>
      match nth_error vels_x i, nth_error vels_y i with
      | Some vx, Some vy =>
          let angular_vel_x :=
            (vx * _fov_v t / F32.of_int (_img_height t))%f32 in
          let angular_vel_y :=
            (vy * _fov_h t / F32.of_int (_img_width t))%f32 in
          let '(v_est_x, v_est_y) := acc in
          real_velocity_loop n' (S i) vels_x vels_y height t
            (push_back v_est_x
               (height * std_tan (angular_vel_x * _delta_t t) / _delta_t t)%f32,
             push_back v_est_y
               (height * std_tan (angular_vel_y * _delta_t t) / _delta_t t)%f32)
      | _, _ => None
      end
  end.

Definition calculateRealVel (img : cv.Mat) (height : float)
    : M velocity_result :=
  t0 <- this ;;
  if cv.empty (_last_im t0) then
    extractFeatures img ;;
    ret ([], [], [], [], true)
  else
    current_gray <- call (to_gray img) ;;
    modify (fun t => set_debug_count (wrap_int (_debug_count t + 1)) t) ;;
    t1 <- this ;;
    tracked <- call (calcOpticalFlowPyrLK (_last_im t1) current_gray
                       (_features t1)
                       {| cv.width := 16; cv.height := 16 |} 2 _criteria) ;;
    let '(new_features, status, error) := tracked in
    vels <- indexing (pixel_velocity_loop (List.length new_features) 0 new_features
                    status (_features t1) (_delta_t t1) ([], [], [])) ;;
    let '(vels_x, vels_y, old_features) := vels in
    detect_into_features current_gray ;;
    modify (set_last_im current_gray) ;;
    t2 <- this ;;
    v_est <- indexing (real_velocity_loop (List.length vels_x) 0 vels_x vels_y
                     height t2 ([], [])) ;;
    let '(v_est_x, v_est_y) := v_est in
    ret (v_est_x, v_est_y, new_features, old_features, true).

End Tracker.

(** ** The velocity step of mdlOutputs (s_function.cpp, lines 378-403) *)

Section SFunction.

Context {L : Library}.

(** What the [try] block leaves behind: the two velocity vectors and the
    message handed to [ssWarning], if any. *)
Record velocity_step : Type := {
  vel_x : list float;
  vel_y : list float;
  ssWarning : option string
}.

Definition try_calculateRealVel (image : cv.Mat) : M velocity_step :=
  fun t =>
    match calculateRealVel image F32.one t with
    | (Ok (v_est_x, v_est_y, _, _, _), t') =>
        (Ok {| vel_x := v_est_x; vel_y := v_est_y; ssWarning := None |}, t')
    | (Throw e, t') =>
        (Ok {| vel_x := []; vel_y := []; ssWarning := Some (cv.what e) |}, t')
    | (Undefined, t') => (Undefined, t')
    end.

(** [delta_t] is the value on input port 1, [image] the buffer filled from
    input port 0, [num_cols] the width of output port 0.  The result is the
    pair of velocity vectors after the [try] block, the warning, and
    [valid_features]. *)
Definition mdlOutputs (num_cols : Z) (delta_t : spec_float) (image : cv.Mat)
    : M (velocity_step * Z) :=
  _set_delta_t_ delta_t ;;
  step <- try_calculateRealVel image ;;
  let valid_features := Z.min (Z.of_nat (List.length (vel_x step))) num_cols in
  ret (step, valid_features).

End SFunction.

(** ** Reachable tracker states *)

Section Reachability.

Context {L : Library}.

(** One call of a public member function that ends by returning or by
    throwing; the caller (mdlOutputs) goes on with the object either way. *)
Inductive step : OpticalFlowTracking -> OpticalFlowTracking -> Prop :=
| step_set_delta_t : forall t d,
    step t (snd (_set_delta_t_ d t))
| step_extractFeatures : forall t img,
    fst (extractFeatures img t) <> Undefined ->
    step t (snd (extractFeatures img t))
| step_calculateRealVel : forall t img height,
    fst (calculateRealVel img height t) <> Undefined ->
    step t (snd (calculateRealVel img height t)).

Inductive reachable : OpticalFlowTracking -> Prop :=
| reachable_ctor : forall method delta_t focal cmos_w cmos_h,
    reachable (OpticalFlowTracking_ctor method delta_t focal cmos_w cmos_h)
| reachable_step : forall t t',
    reachable t -> step t t' -> reachable t'.

End Reachability.

(** ** Library contracts

    What the OpenCV documentation promises of the two calls, stated for an
    arbitrary [Library]. *)

(** [nextPts] and [status] have one entry per point of [prevPts]. *)
Definition lk_tracks_every_point (L : Library) : Prop :=
  forall prev next pts win lvl crit nextPts status err,
    calcOpticalFlowPyrLK prev next pts win lvl crit
      = cv.Returns (nextPts, status, err) ->
    List.length nextPts = List.length pts /\
    List.length status = List.length pts.

(** At most [maxCorners] corners are returned. *)
Definition detector_respects_cap (L : Library) : Prop :=
  forall img maxCorners q d mask bs corners,
    0 < maxCorners ->
    goodFeaturesToTrack img maxCorners q d mask bs = cv.Returns corners ->
    Z.of_nat (List.length corners) <= maxCorners.

(** A corner is a pixel of the image: an image without pixels has none. *)
Definition detector_needs_pixels (L : Library) : Prop :=
  forall img maxCorners q d mask bs corners,
    goodFeaturesToTrack img maxCorners q d mask bs = cv.Returns corners ->
    corners <> [] ->
    0 < cv.rows img /\ 0 < cv.cols img.

(** ** Reference functions for the statements *)

(** The features whose status is non-zero, each with its new location:
    [(old, new)] pairs in the order of [_features]. *)
Fixpoint survivors (features new_features : list cv.Point2f) (status : list Z)
    : list (cv.Point2f * cv.Point2f) :=
  match features, new_features, status with
  | f :: fs, nf :: nfs, s :: ss =>
      if s =? 0 then survivors fs nfs ss
      else (f, nf) :: survivors fs nfs ss
  | _, _, _ => []
  end.

(** The state a tracking call leaves behind when every library call
    returns. *)
Definition after_tracking (gray : cv.Mat) (corners : list cv.Point2f)
    (t : OpticalFlowTracking) : OpticalFlowTracking :=
  set_last_im gray
    (set_features corners
       (set_features []
          (set_debug_count (wrap_int (_debug_count t + 1)) t))).

(** The state [extractFeatures] leaves behind when both library calls
    return. *)
Definition after_extraction (gray : cv.Mat) (corners : list cv.Point2f)
    (t : OpticalFlowTracking) : OpticalFlowTracking :=
  match corners with
  | [] => set_features [] (set_features [] t)
  | _ :: _ =>
      set_img_height (cv.rows gray)
        (set_img_width (cv.cols gray)
           (set_last_im gray (set_features corners (set_features [] t))))
  end.

(** ** A library to run the model on

    A threshold detector (every pixel of value 128 or more is a corner, in
    scan order), a tracker that moves every point one row down and loses the
    points that leave the image, the green channel as luminance, and the
    third-order expansions of the tangent and the arc tangent. *)

Module Scenario.

Definition tan3 (a : float) : float :=
  (a + a * a * a / F32.of_int 3)%f32.

Definition atan3 (a : float) : float :=
  (a - a * a * a / F32.of_int 3)%f32.

Fixpoint green (bytes : list Z) : list Z :=
  match bytes with
  | _ :: g :: _ :: rest => g :: green rest
  | _ => []
  end.

Definition to_luminance (src : cv.Mat) (code : Z) : cv.result cv.Mat :=
  if (0 <? cv.rows src) && (0 <? cv.cols src) && (cv.channels src =? 3)
  then cv.Returns {| cv.rows := cv.rows src; cv.cols := cv.cols src;
                     cv.channels := 1; cv.data := green (cv.data src) |}
  else cv.Raises {| cv.what := "cvtColor: bad source" |}.

Fixpoint bright_from (k : Z) (cols : Z) (bytes : list Z) : list cv.Point2f :=
  match bytes with
  | [] => []
  | b :: rest =>
      if 128 <=? b
      then {| cv.x := F32.of_int (k mod cols); cv.y := F32.of_int (k / cols) |}
           :: bright_from (k + 1) cols rest
      else bright_from (k + 1) cols rest
  end.

Definition threshold_corners (image : cv.Mat) (maxCorners : Z) (q d : Q)
    (mask : cv.Mat) (blockSize : Z) : cv.result (list cv.Point2f) :=
  if (0 <? cv.rows image) && (0 <? cv.cols image)
  then cv.Returns (firstn (Z.to_nat maxCorners)
                     (bright_from 0 (cv.cols image) (cv.data image)))
  else cv.Returns [].

Definition one_row_down (next : cv.Mat) (p : cv.Point2f) : cv.Point2f :=
  {| cv.x := cv.x p; cv.y := (cv.y p + F32.one)%f32 |}.

Definition still_inside (next : cv.Mat) (p : cv.Point2f) : Z :=
  if SFltb (cv.y (one_row_down next p)) (F32.of_int (cv.rows next))
  then 1 else 0.

Definition shift_tracker (prev next : cv.Mat) (pts : list cv.Point2f)
    (win : cv.Size) (maxLevel : Z) (criteria : cv.TermCriteria)
    : cv.result (list cv.Point2f * list Z * list float) :=
  if (cv.rows prev =? cv.rows next) && (cv.cols prev =? cv.cols next)
  then cv.Returns (map (one_row_down next) pts,
                   map (still_inside next) pts,
                   map (fun _ => F32.zero) pts)
  else cv.Raises {| cv.what := "calcOpticalFlowPyrLK: size mismatch" |}.

Definition library : Library :=
  {| std_atan := atan3;
     std_tan := tan3;
     cvtColor := to_luminance;
     goodFeaturesToTrack := threshold_corners;
     calcOpticalFlowPyrLK := shift_tracker |}.

(** Decimal literals, correctly rounded: [n / d] for small integers. *)
Definition ratio (n d : Z) : float := (F32.of_int n / F32.of_int d)%f32.

(** The camera of the concrete scenario: focal length 0.004, sensor
    0.0064 by 0.0048, one frame every 0.1 s. *)
Definition tracker0 : OpticalFlowTracking :=
  OpticalFlowTracking_ctor (L := library) OPTICAL_FLOW_LUCAS_KANADE
    (ratio 1 10) (ratio 4 1000) (ratio 64 10000) (ratio 48 10000).

(** A 4-by-3 single-channel frame with bright pixels at (x, y) = (1, 0)
    and (2, 3). *)
Definition frameA : cv.Mat :=
  {| cv.rows := 4; cv.cols := 3; cv.channels := 1;
     cv.data := [0; 200; 0;
                 0; 0; 0;
                 0; 0; 0;
                 0; 0; 255] |}.

(** The same scene one row further down: the pixel of the last row is
    gone. *)
Definition frameB : cv.Mat :=
  {| cv.rows := 4; cv.cols := 3; cv.channels := 1;
     cv.data := [0; 0; 0;
                 0; 200; 0;
                 0; 0; 0;
                 0; 0; 0] |}.

(** A frame without any bright pixel. *)
Definition frameDark : cv.Mat :=
  {| cv.rows := 4; cv.cols := 3; cv.channels := 1;
     cv.data := [0; 0; 0;
                 0; 0; 0;
                 0; 0; 0;
                 0; 0; 0] |}.

(** A frame of another size. *)
Definition frameSmall : cv.Mat :=
  {| cv.rows := 2; cv.cols := 2; cv.channels := 1;
     cv.data := [0; 200;
                 0; 0] |}.

(** The tracker after its first call on [frameA]. *)
Definition tracker1 : OpticalFlowTracking :=
  snd (calculateRealVel (L := library) frameA (F32.of_int 2) tracker0).

(** The smallest positive binary32 number, [2^-149]. *)
Definition tiny : float := S754_finite false 1 (-149).

(** What the tracker and the detector answer for [frameB] after
    [frameA]. *)
Definition nextB : list cv.Point2f :=
  map (one_row_down frameB) (_features tracker1).
Definition statusB : list Z :=
  map (still_inside frameB) (_features tracker1).
Definition errB : list float :=
  map (fun _ => F32.zero) (_features tracker1).
Definition cornersA : list cv.Point2f :=
  bright_from 0 (cv.cols frameA) (cv.data frameA).
Definition cornersB : list cv.Point2f :=
  bright_from 0 (cv.cols frameB) (cv.data frameB).

End Scenario.

(** The library [L] with the optical-flow call taken away: any use of it
    throws. *)
Definition without_tracking (L : Library) : Library :=
  {| std_atan := std_atan;
     std_tan := std_tan;
     cvtColor := cvtColor;
     goodFeaturesToTrack := goodFeaturesToTrack;
     calcOpticalFlowPyrLK :=
       fun _ _ _ _ _ _ =>
         cv.Raises {| cv.what := "calcOpticalFlowPyrLK is not linked" |} |}.

(** What every reachable tracker state satisfies (see
    [reachable_invariant]): a non-empty feature vector is the detector's
    answer on the stored reference frame, which then has pixels; and a stored
    reference frame comes with positive frame dimensions. *)
Definition tracker_invariant {L : Library} (t : OpticalFlowTracking) : Prop :=
  (_features t <> [] ->
   cv.empty (_last_im t) = false /\
   goodFeaturesToTrack (_last_im t) 1000 (1 # 10) (8 # 1) cv.Mat_default 2
     = cv.Returns (_features t)) /\
  (cv.empty (_last_im t) = false ->
   0 < _img_width t /\ 0 < _img_height t).

(** ** Further predicates on binary32 numbers *)

(** A zero or a finite number: neither an infinity nor NaN. *)
Definition is_finite_float (x : float) : bool :=
  match x with S754_zero _ | S754_finite _ _ _ => true | _ => false end.

(** [std::tan] of a zero is a zero, as IEEE 754 asks. *)
Definition tan_keeps_zero (L : Library) : Prop :=
  forall s, F32.is_zero (std_tan (S754_zero s)) = true.

(** A number other than zero: finite and not zero, or an infinity. *)
Definition is_nonzero_number (x : spec_float) : Prop :=
  match x with
  | S754_finite _ _ _ | S754_infinity _ => True
  | _ => False
  end.

(** ** The S-function: image conversion and output signals *)

(** C++ [double], Simulink's [real_T]: IEEE 754 binary64. *)
Definition double : Type := spec_float.

Module F64.

Definition prec : Z := 53.
Definition emax : Z := 1024.

Definition mul : double -> double -> double := SFmul prec emax.

(** [static_cast<double>(int)] *)
Definition of_int (z : Z) : double := binary_normalize prec emax z 0 false.

(** The conversion of a [float] to [double]. *)
Definition of_float (x : float) : double :=
  match x with
  | S754_finite s m e => binary_round prec emax s m e
  | _ => x
  end.

(** The literals [0.0] and [255.0]. *)
Definition zero : double := S754_zero false.
Definition c255 : double := Eval vm_compute in of_int 255.

Definition is_nan (x : double) : bool :=
  match x with S754_nan => true | _ => false end.

End F64.

(** [clamp<double>] (s_function.cpp): [value > maxVal] is [maxVal < value]. *)
Definition clamp (value minVal maxVal : double) : double :=
  if SFltb value minVal then minVal
  else if SFltb maxVal value then maxVal
  else value.

(** The integer part of a [double], towards zero; none for an infinity or
    NaN. *)
Definition truncate (x : double) : option Z :=
  match x with
  | S754_zero _ => Some 0
  | S754_finite s m e =>
      Some (cond_Zopp s
              match e with
              | Z0 => Zpos m
              | Zpos p => Zpos m * 2 ^ Zpos p
              | Zneg p => Zpos m / 2 ^ Zpos p
              end)
  | _ => None
  end.

(** [static_cast<uchar>(double)]: defined when the integer part is
    representable. *)
Definition to_uchar (x : double) : option Z :=
  match truncate x with
  | Some z => if (0 <=? z) && (z <=? 255) then Some z else None
  | None => None
  end.

(** One pixel of mdlOutputs' conversion, line 372-373. *)
Definition pixel_of (x : double) : option Z :=
  to_uchar (clamp (F64.mul x F64.c255) F64.zero F64.c255).

(** What a rounding of a positive mantissa to [prec] bits can give. *)
Definition rounded_shape (prec : Z) (s : bool) (r : spec_float) : Prop :=
  match r with
  | S754_zero s' | S754_infinity s' => s' = s
  | S754_finite s' m _ => s' = s /\ Zpos m < 2 ^ prec
  | S754_nan => False
  end.

(** An assignment through an index: none when the index is out of range. *)
Fixpoint store {A} (k : nat) (v : A) (l : list A) : option (list A) :=
  match l, k with
  | [], _ => None
  | _ :: l', O => Some (v :: l')
  | a :: l', S k' =>
      match store k' v l' with
      | Some r => Some (a :: r)
      | None => None
      end
  end.

(** The matrix [m] with its bytes replaced. *)
Definition set_data (d : list Z) (m : cv.Mat) : cv.Mat :=
  {| cv.rows := cv.rows m; cv.cols := cv.cols m;
     cv.channels := cv.channels m; cv.data := d |}.

(** [image->at<uchar>(r, c) = px] on a continuous single-channel matrix. *)
Definition Mat_at_put (image : cv.Mat) (r c : nat) (px : Z) : option cv.Mat :=
  match store (r * Z.to_nat (cv.cols image) + c) px (cv.data image) with
  | Some d => Some (set_data d image)
  | None => None
  end.

(** The inner loop of the conversion, lines 371-374: [n] columns are left,
    the next one is [c]. *)
Fixpoint fill_columns (n c r height : nat) (input_image : list double)
    (image : cv.Mat) : option cv.Mat :=
  match n with
  | O => Some image
  | S n' =>
      match nth_error input_image (r + c * height) with
      | None => None
      | Some x =>
          match pixel_of x with
          | None => None
          | Some px =>
              match Mat_at_put image r c px with
              | None => None
              | Some image' =>
                  fill_columns n' (S c) r height input_image image'
              end
          end
      end
  end.

(** The outer loop, lines 370-375. *)
Fixpoint fill_rows (n r height width : nat) (input_image : list double)
    (image : cv.Mat) : option cv.Mat :=
  match n with
  | O => Some image
  | S n' =>
      match fill_columns width 0 r height input_image image with
      | None => None
      | Some image' => fill_rows n' (S r) height width input_image image'
      end
  end.

(** The conversion of the input image into the buffer, lines 370-375. *)
Definition fill_image (height width : Z) (input_image : list double)
    (image : cv.Mat) : option cv.Mat :=
  fill_rows (Z.to_nat height) 0 (Z.to_nat height) (Z.to_nat width)
    input_image image.

(** The pixel read from a column-major input for the row-major index [k]. *)
Definition pixel_from (input_image : list double) (height width k : nat)
    : option Z :=
  match nth_error input_image (k / width + (k mod width) * height) with
  | Some x => pixel_of x
  | None => None
  end.

(** Two matrices of the same size and type. *)
Definition same_header (a b : cv.Mat) : Prop :=
  cv.rows a = cv.rows b /\ cv.cols a = cv.cols b /\
  cv.channels a = cv.channels b /\
  List.length (cv.data a) = List.length (cv.data b).

(** The first output loop, lines 406-409. *)
Fixpoint write_velocities (n i num_rows : nat) (vel_x vel_y : list float)
    (output_velocities : list double) : option (list double) :=
  match n with
  | O => Some output_velocities
  | S n' =>
      match nth_error vel_x i, nth_error vel_y i with
      | Some vx, Some vy =>
          match store (0 + i * num_rows) (F64.of_float vx) output_velocities with
          | None => None
          | Some out1 =>
              match store (1 + i * num_rows) (F64.of_float vy) out1 with
              | None => None
              | Some out2 =>
                  write_velocities n' (S i) num_rows vel_x vel_y out2
              end
          end
      | _, _ => None
      end
  end.

(** The second output loop, lines 412-415. *)
Fixpoint write_zeros (n i num_rows : nat) (output_velocities : list double)
    : option (list double) :=
  match n with
  | O => Some output_velocities
  | S n' =>
      match store (0 + i * num_rows) F64.zero output_velocities with
      | None => None
      | Some out1 =>
          match store (1 + i * num_rows) F64.zero out1 with
          | None => None
          | Some out2 => write_zeros n' (S i) num_rows out2
          end
      end
  end.

(** What the two loops leave at index [k] of the signal: the first two rows
    of the columns [i .. i + n - 1] hold the pair [col j], the rest is as
    before. *)
Definition columns_written (R i n : nat) (col : nat -> double * double)
    (before : list double) (k : nat) : option double :=
  if (i <=? k / R)%nat && (k / R <? i + n)%nat && (k mod R <? 2)%nat
  then Some (if (k mod R =? 0)%nat then fst (col (k / R)%nat)
             else snd (col (k / R)%nat))
  else nth_error before k.

(** Column [j] of the velocities, as doubles. *)
Definition velocity_column (vel_x vel_y : list float) (j : nat)
    : double * double :=
  (F64.of_float (nth j vel_x F32.zero), F64.of_float (nth j vel_y F32.zero)).

(** The two output loops, lines 406-415, for port dimensions that are not
    negative. *)
Definition write_outputs (valid_features num_rows num_cols : Z)
    (vel_x vel_y : list float) (output_velocities : list double)
    : option (list double) :=
  match write_velocities (Z.to_nat valid_features) 0 (Z.to_nat num_rows)
          vel_x vel_y output_velocities with
  | None => None
  | Some out =>
      write_zeros (Z.to_nat (num_cols - valid_features))
        (Z.to_nat valid_features) (Z.to_nat num_rows) out
  end.

(** ** The block: mdlStart, mdlOutputs *)

Module Block.

(** The six block parameters, the three integers after their
    [static_cast<int>]. *)
Record SFcnParams : Type := {
  focal_length : double;
  cmos_height : double;
  cmos_width : double;
  instance_id : Z;
  height : Z;
  width : Z
}.

(** The part of the [SimStruct] the callbacks read and write: the
    parameters, the two work pointers (a null pointer is [None]), the error
    status, the warnings issued so far, and output ports 0, 1 and 2. *)
Record SimStruct : Type := {
  SFcnParam : SFcnParams;
  PWork0 : option OpticalFlowTracking;
  PWork1 : option cv.Mat;
  ErrorStatus : option string;
  Warnings : list string;
  OutputPortDimensions0 : Z * Z;
  output_velocities : list double;
  computation_time : double;
  num_features : double
}.

(** [ssSetOutputPortMatrixDimensions(S, 0, 2, 1000)] *)
Definition output_port_0 : Z * Z := (2, 1000).

(** [ssSetPWorkValue(S, 0, tracker); ssSetPWorkValue(S, 1, image)] *)
Definition ssSetPWorkValues (tracker : option OpticalFlowTracking)
    (image : option cv.Mat) (S : SimStruct) : SimStruct :=
  {| SFcnParam := SFcnParam S; PWork0 := tracker; PWork1 := image;
     ErrorStatus := ErrorStatus S; Warnings := Warnings S;
     OutputPortDimensions0 := OutputPortDimensions0 S;
     output_velocities := output_velocities S;
     computation_time := computation_time S;
     num_features := num_features S |}.

Definition ssSetErrorStatus (msg : string) (S : SimStruct) : SimStruct :=
  {| SFcnParam := SFcnParam S; PWork0 := PWork0 S; PWork1 := PWork1 S;
     ErrorStatus := Some msg; Warnings := Warnings S;
     OutputPortDimensions0 := OutputPortDimensions0 S;
     output_velocities := output_velocities S;
     computation_time := computation_time S;
     num_features := num_features S |}.

(** The message of [ssWarning], if one was issued. *)
Definition issued (w : option string) : list string :=
  match w with Some msg => [msg] | None => [] end.

Section Callbacks.

Context {L : Library}.

(** [new cv::Mat(rows, cols, CV_8UC1)] *)
Variable new_Mat : Z -> Z -> cv.result cv.Mat.

(** An exception of the allocation leaves [mdlStart] before the work
    pointers are set. *)
Definition mdlStart (S : SimStruct) : cv.result SimStruct :=
  let focal_length := focal_length (SFcnParam S) in
  let cmos_width := cmos_width (SFcnParam S) in
  let cmos_height := cmos_height (SFcnParam S) in
  let height := height (SFcnParam S) in
  let width := width (SFcnParam S) in
  let tracker :=
    OpticalFlowTracking_ctor 100 F32.one (F32.of_double focal_length)
      (F32.of_double cmos_width) (F32.of_double cmos_height) in
  match new_Mat height width with
  | cv.Raises e => cv.Raises e
  | cv.Returns image =>
      cv.Returns (ssSetPWorkValues (Some tracker) (Some image) S)
  end.

(** [input_image] and [delta_t] are the signals on input ports 0 and 1,
    [elapsed] the duration the clock measures.  [None] is a read or a write
    out of range. *)
Definition mdlOutputs (input_image : list double) (delta_t elapsed : double)
    (S : SimStruct) : option SimStruct :=
  let height := height (SFcnParam S) in
  let width := width (SFcnParam S) in
  match PWork0 S, PWork1 S with
  | None, _ => Some (ssSetErrorStatus "Optical flow tracker not initialized." S)
  | Some _, None => Some (ssSetErrorStatus "Image buffer not initialized." S)
  | Some tracker, Some image =>
      let tracker := snd (_set_delta_t_ delta_t tracker) in
      match fill_image height width input_image image with
      | None => None
      | Some image =>
          match try_calculateRealVel image tracker with
          | (Ok step, tracker) =>
              let '(num_rows, num_cols) := OutputPortDimensions0 S in
              let valid_features :=
                Z.min (Z.of_nat (List.length (vel_x step))) num_cols in
              match write_outputs valid_features num_rows num_cols
                      (vel_x step) (vel_y step) (output_velocities S) with
              | None => None
              | Some out =>
                  Some {| SFcnParam := SFcnParam S;
                          PWork0 := Some tracker; PWork1 := Some image;
                          ErrorStatus := ErrorStatus S;
                          Warnings := Warnings S ++ issued (ssWarning step);
                          OutputPortDimensions0 := OutputPortDimensions0 S;
                          output_velocities := out;
                          computation_time := elapsed;
                          num_features := F64.of_int valid_features |}
              end
          | (Undefined, _) | (Throw _, _) => None
          end
      end
  end.

(** [mdlTerminate]: both objects deleted, both work pointers null. *)
Definition mdlTerminate (S : SimStruct) : SimStruct :=
  ssSetPWorkValues None None S.

(** The simulation steps: one [mdlOutputs] per sample, each with its input
    image, its time step and the duration measured. *)
Fixpoint simulate (samples : list (list double * double * double))
    (S : SimStruct) : option SimStruct :=
  match samples with
  | [] => Some S
  | (input_image, delta_t, elapsed) :: rest =>
      match mdlOutputs input_image delta_t elapsed S with
      | None => None
      | Some S' => simulate rest S'
      end
  end.

End Callbacks.

End Block.

(** ** States of the block *)

Section BlockState.

Context {L : Library}.

(** A stored reference frame has the dimensions of the block parameters, and
    so have [_img_height] and [_img_width]. *)
Definition frame_matches (p : Block.SFcnParams) (t : OpticalFlowTracking)
    : Prop :=
  cv.empty (_last_im t) = false ->
  cv.rows (_last_im t) = Block.height p /\
  cv.cols (_last_im t) = Block.width p /\
  _img_height t = Block.height p /\ _img_width t = Block.width p.

(** The block between [mdlStart] and [mdlTerminate]: both work pointers are
    set, the tracker is in a reachable state, and the image buffer is a
    single-channel matrix of the size given by the parameters. *)
Definition ready (S : Block.SimStruct) : Prop :=
  let p := Block.SFcnParam S in
  exists tracker image,
    Block.PWork0 S = Some tracker /\ Block.PWork1 S = Some image /\
    reachable tracker /\ frame_matches p tracker /\
    cv.rows image = Block.height p /\ cv.cols image = Block.width p /\
    cv.channels image = 1 /\
    List.length (cv.data image)
    = (Z.to_nat (Block.height p) * Z.to_nat (Block.width p))%nat.

End BlockState.

(** Output port 0 is a matrix of at least two rows, and its signal has one
    entry per cell. *)
Definition outputs_allocated (S : Block.SimStruct) : Prop :=
  2 <= fst (Block.OutputPortDimensions0 S) /\
  0 <= snd (Block.OutputPortDimensions0 S) /\
  List.length (Block.output_velocities S)
  = (Z.to_nat (fst (Block.OutputPortDimensions0 S))
     * Z.to_nat (snd (Block.OutputPortDimensions0 S)))%nat.

(** The signal on input port 0: one number per pixel, none of them NaN. *)
Definition image_signal (p : Block.SFcnParams) (input_image : list double)
    : Prop :=
  List.length input_image
  = (Z.to_nat (Block.height p) * Z.to_nat (Block.width p))%nat /\
  Forall (fun x => F64.is_nan x = false) input_image.

(** [new cv::Mat(rows, cols, CV_8UC1)], when it returns, has made a
    single-channel matrix of [rows] by [cols] bytes; negative sizes are
    refused. *)
Definition allocates_as_asked (new_Mat : Z -> Z -> cv.result cv.Mat) : Prop :=
  forall rows cols m,
    new_Mat rows cols = cv.Returns m ->
    0 <= rows /\ 0 <= cols /\
    cv.rows m = rows /\ cv.cols m = cols /\ cv.channels m = 1 /\
    List.length (cv.data m) = (Z.to_nat rows * Z.to_nat cols)%nat.

(** The cell [(row, j)] of output port 0 after a step that found the
    velocities [vel_x] and [vel_y]. *)
Definition velocity_cell (vel_x vel_y : list float) (num_cols : Z)
    (row j : nat) : double :=
  let valid_features := Z.min (Z.of_nat (List.length vel_x)) num_cols in
  if (j <? Z.to_nat valid_features)%nat
  then F64.of_float (nth j (match row with O => vel_x | _ => vel_y end)
                       F32.zero)
  else F64.zero.

(** ** A tracker that sees no motion *)

(** The library of the scenario with a tracker that finds every point where
    it was. *)
Definition still_tracker (prev next : cv.Mat) (pts : list cv.Point2f)
    (win : cv.Size) (maxLevel : Z) (criteria : cv.TermCriteria)
    : cv.result (list cv.Point2f * list Z * list float) :=
  cv.Returns (pts, map (fun _ => 1) pts, map (fun _ => F32.zero) pts).

Definition still_library : Library :=
  {| std_atan := Scenario.atan3;
     std_tan := Scenario.tan3;
     cvtColor := Scenario.to_luminance;
     goodFeaturesToTrack := Scenario.threshold_corners;
     calcOpticalFlowPyrLK := still_tracker |}.

(** ** A tracker that refuses an empty point vector *)

(** The optical-flow call of the scenario, throwing when it is handed no
    point. *)
Definition picky_tracker (prev next : cv.Mat) (pts : list cv.Point2f)
    (win : cv.Size) (maxLevel : Z) (criteria : cv.TermCriteria)
    : cv.result (list cv.Point2f * list Z * list float) :=
  match pts with
  | [] => cv.Raises {| cv.what := "calcOpticalFlowPyrLK: no points" |}
  | _ :: _ => Scenario.shift_tracker prev next pts win maxLevel criteria
  end.

Definition picky_library : Library :=
  {| std_atan := Scenario.atan3;
     std_tan := Scenario.tan3;
     cvtColor := Scenario.to_luminance;
     goodFeaturesToTrack := Scenario.threshold_corners;
     calcOpticalFlowPyrLK := picky_tracker |}.

(** The tracker seeded on [Scenario.frameA] after a call on
    [Scenario.frameDark], where the detector finds nothing. *)
Definition tracker_in_the_dark : OpticalFlowTracking :=
  snd (calculateRealVel (L := picky_library) Scenario.frameDark (F32.of_int 2)
         (snd (calculateRealVel (L := picky_library) Scenario.frameA
                 (F32.of_int 2) Scenario.tracker0))).

(** A reference frame is stored, and no feature. *)
Definition frame_only (t : OpticalFlowTracking) : Prop :=
  cv.empty (_last_im t) = false /\ _features t = [].

(** ** A block to run the model on *)

Module BlockScenario.

(** An allocation that hands out a zeroed buffer. *)
Definition zeros_Mat (rows cols : Z) : cv.result cv.Mat :=
  if (rows <? 0) || (cols <? 0)
  then cv.Raises {| cv.what := "Mat: negative size" |}
  else cv.Returns {| cv.rows := rows; cv.cols := cols; cv.channels := 1;
                     cv.data := repeat 0 (Z.to_nat rows * Z.to_nat cols) |}.

(** [n / d] as a double, correctly rounded. *)
Definition ratio (n d : Z) : double :=
  SFdiv F64.prec F64.emax (F64.of_int n) (F64.of_int d).

Definition one : double := Eval vm_compute in F64.of_int 1.

(** The camera of [Scenario.tracker0] and frames of 4 by 3 pixels. *)
Definition parameters : Block.SFcnParams :=
  {| Block.focal_length := ratio 4 1000;
     Block.cmos_height := ratio 48 10000;
     Block.cmos_width := ratio 64 10000;
     Block.instance_id := 1;
     Block.height := 4;
     Block.width := 3 |}.

(** The block before [mdlStart]; output port 0 holds 255 everywhere. *)
Definition S0 : Block.SimStruct :=
  {| Block.SFcnParam := parameters;
     Block.PWork0 := None; Block.PWork1 := None;
     Block.ErrorStatus := None; Block.Warnings := [];
     Block.OutputPortDimensions0 := Block.output_port_0;
     Block.output_velocities := repeat F64.c255 2000;
     Block.computation_time := F64.zero;
     Block.num_features := F64.zero |}.

(** [Scenario.frameA] and [Scenario.frameB] as signals, column-major, a
    bright pixel being 1.0. *)
Definition signalA : list double :=
  [F64.zero; F64.zero; F64.zero; F64.zero;
   one; F64.zero; F64.zero; F64.zero;
   F64.zero; F64.zero; F64.zero; one].

Definition signalB : list double :=
  [F64.zero; F64.zero; F64.zero; F64.zero;
   F64.zero; one; F64.zero; F64.zero;
   F64.zero; F64.zero; F64.zero; F64.zero].

(** [signalB] as the block converts it. *)
Definition imageB : cv.Mat :=
  {| cv.rows := 4; cv.cols := 3; cv.channels := 1;
     cv.data := [0; 0; 0;
                 0; 255; 0;
                 0; 0; 0;
                 0; 0; 0] |}.

Definition delta_t : double := ratio 1 10.
Definition elapsed : double := ratio 2 1000.

(** The block after [mdlStart]. *)
Definition started (L : Library) : Block.SimStruct :=
  match Block.mdlStart (L := L) zeros_Mat S0 with
  | cv.Returns S1 => S1
  | cv.Raises _ => S0
  end.

(** The block after its first step, on [signalA]. *)
Definition seeded (L : Library) : Block.SimStruct :=
  match Block.mdlOutputs (L := L) signalA delta_t elapsed (started L) with
  | Some S2 => S2
  | None => started L
  end.

(** The objects behind the two work pointers. *)
Definition tracker_in (S : Block.SimStruct) : OpticalFlowTracking :=
  match Block.PWork0 S with
  | Some tracker => tracker
  | None => Scenario.tracker0
  end.

Definition image_in (S : Block.SimStruct) : cv.Mat :=
  match Block.PWork1 S with
  | Some image => image
  | None => cv.Mat_default
  end.

End BlockScenario.

(** Proof steps: open the member functions, then split on how each call
    ended. *)

Ltac run_member :=
  unfold calculateRealVel, extractFeatures, detect_into_features,
    _has_features, _set_delta_t_, bind, this, call, indexing, modify, ret;
  cbv beta iota.

Ltac split_outcomes :=
  repeat (match goal with
    | |- context [if ?b then _ else _] =>
        let E := fresh "E" in destruct b eqn:E
    | |- context [match ?r with cv.Returns _ => _ | cv.Raises _ => _ end] =>
        let E := fresh "E" in destruct r eqn:E
    | |- context [match ?o with Some _ => _ | None => _ end] =>
        let E := fresh "E" in destruct o eqn:E
    | |- context [match ?o with Ok _ => _ | Throw _ => _ | Undefined => _ end] =>
        let E := fresh "E" in destruct o eqn:E
    | |- context [let '(_, _) := ?p in _] =>
        let E := fresh "E" in destruct p eqn:E
    end; cbv beta iota; cbn [fst snd] in *).

(** * Facts about the two loops and the two branches *)

Section LoopFacts.


Context {L : Library}.

Lemma nth_error_middle {A} (pre : list A) (a : A) (suf : list A) :
  nth_error (pre ++ a :: suf) (List.length pre) = Some a.
Proof.
  induction pre as [|b pre IH]; simpl; auto.
Qed.

Lemma app_cons_shift {A} (pre : list A) (a : A) (suf : list A) :
  pre ++ a :: suf = (pre ++ [a]) ++ suf.
Proof. now rewrite <- app_assoc. Qed.

Lemma length_snoc {A} (pre : list A) (a : A) :
  List.length (pre ++ [a]) = S (List.length pre).
Proof. rewrite length_app; simpl; lia. Qed.

(** The first loop, started anywhere inside the vectors. *)
Lemma pixel_velocity_loop_from :
  forall (fs nfs : list cv.Point2f) (ss : list Z),
    List.length nfs = List.length fs ->
    List.length ss = List.length fs ->
    forall (pf pn : list cv.Point2f) (ps : list Z) delta_t vx vy olds,
      List.length pn = List.length pf ->
      List.length ps = List.length pf ->
      pixel_velocity_loop (List.length nfs) (List.length pf)
        (pn ++ nfs) (ps ++ ss) (pf ++ fs) delta_t (vx, vy, olds)
      = Some (vx ++ map (fun on => (cv.y (snd on) - cv.y (fst on)) / delta_t)%f32
                    (survivors fs nfs ss),
            vy ++ map (fun on => (- (cv.x (snd on) - cv.x (fst on))) / delta_t)%f32
                    (survivors fs nfs ss),
            olds ++ map fst (survivors fs nfs ss)).
Proof.
  induction fs as [|f fs IH]; intros nfs ss Hn Hs pf pn ps delta_t vx vy olds Hpn Hps.
  - destruct nfs; [|discriminate]. simpl. now rewrite !app_nil_r.
  - destruct nfs as [|nf nfs]; [discriminate|].
    destruct ss as [|s ss]; [discriminate|].
    simpl in Hn, Hs. injection Hn as Hn. injection Hs as Hs.
    cbn [List.length pixel_velocity_loop survivors].
    rewrite <- Hps at 1. rewrite nth_error_middle.
    destruct (s =? 0) eqn:Es.
    + rewrite (app_cons_shift pn), (app_cons_shift ps), (app_cons_shift pf).
      rewrite <- (length_snoc pf f).
      apply IH; auto; rewrite !length_snoc; congruence.
    + rewrite <- Hpn at 1. rewrite !nth_error_middle.
      rewrite (app_cons_shift pn), (app_cons_shift ps), (app_cons_shift pf).
      rewrite <- (length_snoc pf f).
      unfold push_back.
      rewrite IH; auto; try (rewrite !length_snoc; congruence).
      cbn [map fst snd]. now rewrite <- !app_assoc.
Qed.


(** The second loop, started anywhere inside the vectors. *)
Lemma real_velocity_loop_from :
  forall (xs ys : list float),
    List.length ys = List.length xs ->
    forall (px py : list float) height t ax ay,
      List.length py = List.length px ->
      real_velocity_loop (List.length xs) (List.length px)
        (px ++ xs) (py ++ ys) height t (ax, ay)
      = Some (ax ++ map (fun vx =>
                    height * std_tan (vx * _fov_v t / F32.of_int (_img_height t)
                                      * _delta_t t) / _delta_t t)%f32 xs,
            ay ++ map (fun vy =>
                    height * std_tan (vy * _fov_h t / F32.of_int (_img_width t)
                                      * _delta_t t) / _delta_t t)%f32 ys).
Proof.
  induction xs as [|vx xs IH]; intros ys Hy px py height t ax ay Hp.
  - destruct ys; [|discriminate]. simpl. now rewrite !app_nil_r.
  - destruct ys as [|vy ys]; [discriminate|].
    simpl in Hy. injection Hy as Hy.
    cbn [List.length real_velocity_loop].
    rewrite nth_error_middle. rewrite <- Hp at 1. rewrite nth_error_middle.
    rewrite (app_cons_shift px), (app_cons_shift py).
    rewrite <- (length_snoc px vx).
    unfold push_back.
    rewrite IH; auto; try (rewrite !length_snoc; congruence).
    cbn [map]. now rewrite <- !app_assoc.
Qed.

Lemma pixel_velocity_loop_correct features new_features status delta_t :
  List.length new_features = List.length features ->
  List.length status = List.length features ->
  pixel_velocity_loop (List.length new_features) 0 new_features status
    features delta_t ([], [], [])
  = Some (map (fun on => (cv.y (snd on) - cv.y (fst on)) / delta_t)%f32
            (survivors features new_features status),
        map (fun on => (- (cv.x (snd on) - cv.x (fst on))) / delta_t)%f32
            (survivors features new_features status),
        map fst (survivors features new_features status)).
Proof.
  intros Hn Hs.
  exact (pixel_velocity_loop_from features new_features status Hn Hs
           [] [] [] delta_t [] [] [] eq_refl eq_refl).
Qed.

Lemma real_velocity_loop_correct vels_x vels_y height t :
  List.length vels_y = List.length vels_x ->
  real_velocity_loop (List.length vels_x) 0 vels_x vels_y height t ([], [])
  = Some (map (fun vx =>
               height * std_tan (vx * _fov_v t / F32.of_int (_img_height t)
                                 * _delta_t t) / _delta_t t)%f32 vels_x,
        map (fun vy =>
               height * std_tan (vy * _fov_h t / F32.of_int (_img_width t)
                                 * _delta_t t) / _delta_t t)%f32 vels_y).
Proof.
  intros Hy.
  exact (real_velocity_loop_from vels_x vels_y Hy [] [] height t [] [] eq_refl).
Qed.

(** A call in the tracking branch, given what the library calls returned. *)
Lemma calculateRealVel_tracking t img height gray new_features status err
    corners :
  cv.empty (_last_im t) = false ->
  to_gray img = cv.Returns gray ->
  calcOpticalFlowPyrLK (_last_im t) gray (_features t)
    {| cv.width := 16; cv.height := 16 |} 2 _criteria
    = cv.Returns (new_features, status, err) ->
  List.length new_features = List.length (_features t) ->
  List.length status = List.length (_features t) ->
  goodFeaturesToTrack gray 1000 (1 # 10) (8 # 1) cv.Mat_default 2
    = cv.Returns corners ->
  calculateRealVel img height t =
  (Ok (map (fun vx =>
              height * std_tan (vx * _fov_v t / F32.of_int (_img_height t)
                                * _delta_t t) / _delta_t t)%f32
         (map (fun on => (cv.y (snd on) - cv.y (fst on)) / _delta_t t)%f32
            (survivors (_features t) new_features status)),
       map (fun vy =>
              height * std_tan (vy * _fov_h t / F32.of_int (_img_width t)
                                * _delta_t t) / _delta_t t)%f32
         (map (fun on => (- (cv.x (snd on) - cv.x (fst on))) / _delta_t t)%f32
            (survivors (_features t) new_features status)),
       new_features,
       map fst (survivors (_features t) new_features status),
       true),
   after_tracking gray corners t).
Proof.
  intros Hlast Hgray Hlk Hn Hs Hdet.
  unfold calculateRealVel, bind, this, call, indexing, modify, ret,
    detect_into_features.
  rewrite Hlast, Hgray. cbn [_last_im _features _delta_t set_debug_count].
  rewrite Hlk.
  rewrite (pixel_velocity_loop_correct _ _ _ _ Hn Hs).
  cbv beta iota. unfold bind, modify, call. rewrite Hdet. cbv beta iota.
  rewrite real_velocity_loop_correct by now rewrite !length_map.
  reflexivity.
Qed.


(** [extractFeatures], given what the library calls returned. *)
Lemma extractFeatures_returns t img gray corners :
  to_gray img = cv.Returns gray ->
  goodFeaturesToTrack gray 1000 (1 # 10) (8 # 1) cv.Mat_default 2
    = cv.Returns corners ->
  extractFeatures img t = (Ok tt, after_extraction gray corners t).
Proof.
  intros Hgray Hdet.
  unfold extractFeatures, detect_into_features, _has_features,
    bind, this, call, modify, ret.
  rewrite Hgray, Hdet. cbn [_features set_features].
  destruct corners; reflexivity.
Qed.

(** A call in the first-call branch, given what the library calls returned. *)
Lemma calculateRealVel_unseeded t img height gray corners :
  cv.empty (_last_im t) = true ->
  to_gray img = cv.Returns gray ->
  goodFeaturesToTrack gray 1000 (1 # 10) (8 # 1) cv.Mat_default 2
    = cv.Returns corners ->
  calculateRealVel img height t
  = (Ok ([], [], [], [], true), after_extraction gray corners t).
Proof.
  intros Hlast Hgray Hdet.
  unfold calculateRealVel, bind, this, ret.
  rewrite Hlast, (extractFeatures_returns _ _ _ _ Hgray Hdet).
  reflexivity.
Qed.

End LoopFacts.

(** * The velocity computation *)

Section Velocity.

Context {L : Library}.

Variables (t : OpticalFlowTracking) (img : cv.Mat) (height : float).
Variables (gray : cv.Mat) (new_features : list cv.Point2f) (status : list Z)
  (err : list float) (corners : list cv.Point2f).

(** C2.  A call of [calculateRealVel] in the tracking state in which the
    library calls return.  Its first loop, run on the old [_features] and on
    the points and statuses the optical-flow call answered for them, computes
    for every feature whose status is non-zero, in order, the pixel velocity
    [vx = dy / _delta_t] and [vy = (- dx) / _delta_t], with [(dx, dy)] the
    new location minus the old one, and keeps the old location; the other
    features contribute nothing.  What the call returns is the conversion of
    exactly these pixel velocities, entry by entry, with these old
    locations. *)
Theorem pixel_velocity_remap :
  cv.empty (_last_im t) = false ->
  to_gray img = cv.Returns gray ->
  calcOpticalFlowPyrLK (_last_im t) gray (_features t)
    {| cv.width := 16; cv.height := 16 |} 2 _criteria
    = cv.Returns (new_features, status, err) ->
  List.length new_features = List.length (_features t) ->
  List.length status = List.length (_features t) ->
  goodFeaturesToTrack gray 1000 (1 # 10) (8 # 1) cv.Mat_default 2
    = cv.Returns corners ->
  let tracked := survivors (_features t) new_features status in
  let vels_x :=
    map (fun on =>
           let dy := (cv.y (snd on) - cv.y (fst on))%f32 in
           (dy / _delta_t t)%f32) tracked in
  let vels_y :=
    map (fun on =>
           let dx := (cv.x (snd on) - cv.x (fst on))%f32 in
           (- dx / _delta_t t)%f32) tracked in
  pixel_velocity_loop (List.length new_features) 0 new_features status
    (_features t) (_delta_t t) ([], [], [])
  = Some (vels_x, vels_y, map fst tracked) /\
  fst (calculateRealVel img height t)
  = Ok (map (fun vx =>
               (height * std_tan (vx * _fov_v t / F32.of_int (_img_height t)
                                  * _delta_t t) / _delta_t t)%f32) vels_x,
        map (fun vy =>
               (height * std_tan (vy * _fov_h t / F32.of_int (_img_width t)
                                  * _delta_t t) / _delta_t t)%f32) vels_y,
        new_features, map fst tracked, true).
Proof.
  intros Hlast Hgray Hlk Hn Hs Hdet tracked vels_x vels_y. split.
  - now apply pixel_velocity_loop_correct.
  - now rewrite (calculateRealVel_tracking _ _ height _ _ _ _ _
                   Hlast Hgray Hlk Hn Hs Hdet).
Qed.

(** C1.  A call in the tracking state in which the library calls return:
    with [vels_x] and [vels_y] the pixel velocities the first loop computed,
    the call returns, entry by entry,
    [height * tan (angular_vel * _delta_t) / _delta_t] where the angular
    velocity is [vx * _fov_v / _img_height] on the x axis and
    [vy * _fov_h / _img_width] on the y axis, the frame dimensions being the
    stored ones. *)
Theorem real_velocity_formula :
  cv.empty (_last_im t) = false ->
  to_gray img = cv.Returns gray ->
  calcOpticalFlowPyrLK (_last_im t) gray (_features t)
    {| cv.width := 16; cv.height := 16 |} 2 _criteria
    = cv.Returns (new_features, status, err) ->
  List.length new_features = List.length (_features t) ->
  List.length status = List.length (_features t) ->
  goodFeaturesToTrack gray 1000 (1 # 10) (8 # 1) cv.Mat_default 2
    = cv.Returns corners ->
  exists vels_x vels_y old_features,
    pixel_velocity_loop (List.length new_features) 0 new_features status
      (_features t) (_delta_t t) ([], [], [])
    = Some (vels_x, vels_y, old_features) /\
    List.length vels_x
    = List.length (survivors (_features t) new_features status) /\
    List.length vels_y = List.length vels_x /\
    fst (calculateRealVel img height t)
    = Ok (map (fun vx =>
                 let angular_vel_x :=
                   (vx * _fov_v t / F32.of_int (_img_height t))%f32 in
                 (height * std_tan (angular_vel_x * _delta_t t) / _delta_t t)%f32)
            vels_x,
          map (fun vy =>
                 let angular_vel_y :=
                   (vy * _fov_h t / F32.of_int (_img_width t))%f32 in
                 (height * std_tan (angular_vel_y * _delta_t t) / _delta_t t)%f32)
            vels_y,
          new_features, old_features, true).
Proof.
  intros Hlast Hgray Hlk Hn Hs Hdet.
  eexists _, _, _. split; [now apply pixel_velocity_loop_correct|].
  rewrite !length_map. repeat split.
  now rewrite (calculateRealVel_tracking _ _ height _ _ _ _ _
                 Hlast Hgray Hlk Hn Hs Hdet).
Qed.

End Velocity.

Lemma pixel_velocity_remap_witness :
  pixel_velocity_loop (List.length Scenario.nextB) 0 Scenario.nextB
    Scenario.statusB (_features Scenario.tracker1)
    (_delta_t Scenario.tracker1) ([], [], [])
  = Some ([(F32.one / Scenario.ratio 1 10)%f32],
          [(- F32.zero / Scenario.ratio 1 10)%f32],
          [{| cv.x := F32.one; cv.y := F32.zero |}]) /\
  fst (calculateRealVel (L := Scenario.library) Scenario.frameB
         (F32.of_int 2) Scenario.tracker1)
  = Ok ([(F32.of_int 2
          * Scenario.tan3 (F32.one / Scenario.ratio 1 10
                           * _fov_v Scenario.tracker1 / F32.of_int 4
                           * Scenario.ratio 1 10)
          / Scenario.ratio 1 10)%f32],
        [(F32.of_int 2
          * Scenario.tan3 (- F32.zero / Scenario.ratio 1 10
                           * _fov_h Scenario.tracker1 / F32.of_int 3
                           * Scenario.ratio 1 10)
          / Scenario.ratio 1 10)%f32],
        Scenario.nextB,
        [{| cv.x := F32.one; cv.y := F32.zero |}], true).
Proof.
  pose proof (pixel_velocity_remap (L := Scenario.library) Scenario.tracker1
                Scenario.frameB (F32.of_int 2) Scenario.frameB Scenario.nextB
                Scenario.statusB Scenario.errB Scenario.cornersB) as H.
  cbv zeta in H.
  destruct H as [Hloop Hcall]; try (vm_compute; reflexivity).
  split.
  - rewrite Hloop. vm_compute. reflexivity.
  - rewrite Hcall. vm_compute. reflexivity.
Defined.

(** The displacement of the specification's scenario: a point tracked from
    (100, 100) to (100, 108) with a frame interval of 0.1 s has the pixel
    velocity [vx = 80], [vy = -0]. *)
Example pixel_velocity_shift_of_8 :
  pixel_velocity_loop 1 0
    [{| cv.x := F32.of_int 100; cv.y := F32.of_int 108 |}] [1]
    [{| cv.x := F32.of_int 100; cv.y := F32.of_int 100 |}]
    (Scenario.ratio 1 10) ([], [], [])
  = Some ([F32.of_int 80], [S754_zero true],
          [{| cv.x := F32.of_int 100; cv.y := F32.of_int 100 |}]).
Proof. vm_compute. reflexivity. Qed.

Lemma real_velocity_formula_witness :
  exists vels_x vels_y old_features,
    pixel_velocity_loop (List.length Scenario.nextB) 0 Scenario.nextB
      Scenario.statusB (_features Scenario.tracker1)
      (_delta_t Scenario.tracker1) ([], [], [])
    = Some (vels_x, vels_y, old_features) /\
    List.length vels_x = 1%nat /\
    List.length vels_y = List.length vels_x /\
    fst (calculateRealVel (L := Scenario.library) Scenario.frameB
           (F32.of_int 2) Scenario.tracker1)
    = Ok (map (fun vx =>
                 (F32.of_int 2
                  * Scenario.tan3 (vx * _fov_v Scenario.tracker1 / F32.of_int 4
                                   * Scenario.ratio 1 10)
                  / Scenario.ratio 1 10)%f32) vels_x,
          map (fun vy =>
                 (F32.of_int 2
                  * Scenario.tan3 (vy * _fov_h Scenario.tracker1 / F32.of_int 3
                                   * Scenario.ratio 1 10)
                  / Scenario.ratio 1 10)%f32) vels_y,
          Scenario.nextB, old_features, true).
Proof.
  apply (real_velocity_formula (L := Scenario.library) Scenario.tracker1
           Scenario.frameB (F32.of_int 2) Scenario.frameB Scenario.nextB
           Scenario.statusB Scenario.errB Scenario.cornersB);
    vm_compute; reflexivity.
Defined.

(** * The first call *)

Section FirstCall.

Context {L : Library}.

(** C3.  On a freshly constructed tracker, a [calculateRealVel] call whose
    grayscale conversion and corner detection return runs [extractFeatures]
    on the image and returns four empty vectors and [true]; the optical-flow
    routine is not called (the call goes the same way in a library that has
    none, and [_debug_count] stays 0); afterwards [_has_features] answers
    whether the detector found a corner. *)
Theorem first_call_seeds method delta_t focal cmos_w cmos_h img height gray
    corners :
  to_gray img = cv.Returns gray ->
  goodFeaturesToTrack gray 1000 (1 # 10) (8 # 1) cv.Mat_default 2
    = cv.Returns corners ->
  let t0 := OpticalFlowTracking_ctor method delta_t focal cmos_w cmos_h in
  let r := calculateRealVel img height t0 in
  fst r = Ok ([], [], [], [], true) /\
  snd r = snd (extractFeatures img t0) /\
  _features (snd r) = corners /\
  _debug_count (snd r) = 0 /\
  calculateRealVel (L := without_tracking L) img height t0 = r /\
  fst (_has_features (snd r)) = Ok (negb (vector_empty corners)) /\
  (corners <> [] -> fst (_has_features (snd r)) = Ok true).
Proof.
  intros Hgray Hdet t0 r.
  assert (Hr : r = (Ok ([], [], [], [], true), after_extraction gray corners t0))
    by (apply calculateRealVel_unseeded; auto).
  rewrite Hr. cbn [fst snd].
  rewrite (extractFeatures_returns _ _ _ _ Hgray Hdet). cbn [snd].
  repeat split.
  - destruct corners; reflexivity.
  - destruct corners; reflexivity.
  - apply (calculateRealVel_unseeded (L := without_tracking L)); auto.
  - destruct corners; reflexivity.
  - destruct corners; [congruence | reflexivity].
Qed.

End FirstCall.

Lemma first_call_seeds_witness :
  fst (calculateRealVel (L := Scenario.library) Scenario.frameA
         (F32.of_int 2) Scenario.tracker0)
  = Ok ([], [], [], [], true) /\
  fst (_has_features
         (snd (calculateRealVel (L := Scenario.library) Scenario.frameA
                 (F32.of_int 2) Scenario.tracker0)))
  = Ok true.
Proof.
  pose proof (first_call_seeds (L := Scenario.library)
                OPTICAL_FLOW_LUCAS_KANADE
                (Scenario.ratio 1 10) (Scenario.ratio 4 1000)
                (Scenario.ratio 64 10000) (Scenario.ratio 48 10000)
                Scenario.frameA (F32.of_int 2) Scenario.frameA
                Scenario.cornersA eq_refl eq_refl) as H.
  cbv zeta in H.
  destruct H as (H1 & _ & _ & _ & _ & H6 & _).
  split; [exact H1 | exact H6].
Defined.

(** * The returned sequences *)

Lemma survivors_length_le features new_features status :
  (List.length (survivors features new_features status)
   <= List.length features)%nat.
Proof.
  revert new_features status.
  induction features as [|f fs IH]; intros [|nf nfs] [|s ss]; simpl; try lia.
  destruct (s =? 0); simpl; specialize (IH nfs ss); lia.
Qed.

Section Returned.

Context {L : Library}.

(** In the tracking branch the third component of the result is the whole
    [nextPts] vector of the optical-flow call, while the velocities and the
    old locations have one entry per surviving feature. *)
Lemma tracking_result_lengths t img height gray new_features status err
    corners :
  cv.empty (_last_im t) = false ->
  to_gray img = cv.Returns gray ->
  calcOpticalFlowPyrLK (_last_im t) gray (_features t)
    {| cv.width := 16; cv.height := 16 |} 2 _criteria
    = cv.Returns (new_features, status, err) ->
  List.length new_features = List.length (_features t) ->
  List.length status = List.length (_features t) ->
  goodFeaturesToTrack gray 1000 (1 # 10) (8 # 1) cv.Mat_default 2
    = cv.Returns corners ->
  exists v_est_x v_est_y old_features,
    fst (calculateRealVel img height t)
    = Ok (v_est_x, v_est_y, new_features, old_features, true) /\
    List.length v_est_x
    = List.length (survivors (_features t) new_features status) /\
    List.length v_est_y = List.length v_est_x /\
    List.length old_features = List.length v_est_x /\
    (List.length v_est_x <= List.length (_features t))%nat /\
    List.length new_features = List.length (_features t).
Proof.
  intros Hlast Hgray Hlk Hn Hs Hdet.
  rewrite (calculateRealVel_tracking _ _ height _ _ _ _ _
             Hlast Hgray Hlk Hn Hs Hdet).
  eexists _, _, _. split; [reflexivity|].
  rewrite !length_map. repeat split; auto.
  apply survivors_length_le.
Qed.

End Returned.

(** C6.  Evaluation at the failing input: the tracker seeded on [frameA]
    holds two features; on [frameB] the tracker reports the statuses 1 and 0.
    The call returns one velocity pair and one old location, but two new
    locations: the entry of the lost feature is still there, so the new
    locations are not parallel to the other three sequences. *)
Theorem new_features_not_filtered :
  Scenario.statusB = [1; 0] /\
  exists vx vy n1 n2 o1,
    fst (calculateRealVel (L := Scenario.library) Scenario.frameB
           (F32.of_int 2) Scenario.tracker1)
    = Ok ([vx], [vy], [n1; n2], [o1], true).
Proof.
  split; [reflexivity|].
  eexists _, _, _, _, _. vm_compute. reflexivity.
Qed.

(** * Exceptions *)

Section Exceptions.

Context {L : Library}.

(** An exception of the optical-flow call goes through [calculateRealVel];
    only [_debug_count] has changed by then. *)
Lemma calculateRealVel_tracking_raises t img height gray e :
  cv.empty (_last_im t) = false ->
  to_gray img = cv.Returns gray ->
  calcOpticalFlowPyrLK (_last_im t) gray (_features t)
    {| cv.width := 16; cv.height := 16 |} 2 _criteria
    = cv.Raises e ->
  calculateRealVel img height t
  = (Throw e, set_debug_count (wrap_int (_debug_count t + 1)) t).
Proof.
  intros Hlast Hgray Hlk.
  unfold calculateRealVel, bind, this, call, modify.
  rewrite Hlast, Hgray. cbn [_last_im _features set_debug_count].
  now rewrite Hlk.
Qed.


End Exceptions.


(** * Construction *)

(** C8, as stated, fails: a tracker constructed with focal length 0, sensor
    width -1 and sensor height 0 exists and works: its first call seeds it
    and its second call returns a velocity. *)
Lemma constructor_accepts_nonpositive :
  fst (calculateRealVel (L := Scenario.library) Scenario.frameA (F32.of_int 2)
         (OpticalFlowTracking_ctor (L := Scenario.library)
            OPTICAL_FLOW_LUCAS_KANADE (Scenario.ratio 1 10)
            F32.zero (F32.of_int (-1)) F32.zero))
  = Ok ([], [], [], [], true) /\
  exists vx vy nf olds,
    fst (calculateRealVel (L := Scenario.library) Scenario.frameB
           (F32.of_int 2)
           (snd (calculateRealVel (L := Scenario.library) Scenario.frameA
                   (F32.of_int 2)
                   (OpticalFlowTracking_ctor (L := Scenario.library)
                      OPTICAL_FLOW_LUCAS_KANADE (Scenario.ratio 1 10)
                      F32.zero (F32.of_int (-1)) F32.zero))))
    = Ok ([vx], [vy], nf, olds, true).
Proof.
  split; [vm_compute; reflexivity|].
  eexists _, _, _, _. vm_compute. reflexivity.
Qed.

Section Construction.

Context {L : Library}.

(** C8, amended.  The constructor checks nothing: for every method, time
    step, focal length and sensor size it yields a tracker that stores the
    parameters as given, has the fields of view
    [2 * atan (sensor / (2 * focal_length))], frame dimensions 0, no
    reference frame and no features; the first [calculateRealVel] call on it
    goes through the first-call branch. *)
Theorem constructor_total method delta_t focal cmos_w cmos_h :
  let t := OpticalFlowTracking_ctor method delta_t focal cmos_w cmos_h in
  _method t = method /\ _delta_t t = delta_t /\
  _focal_length t = focal /\
  _cmos_width t = cmos_w /\ _cmos_height t = cmos_h /\
  _fov_h t = (F32.two * std_atan (cmos_w / (F32.two * focal)))%f32 /\
  _fov_v t = (F32.two * std_atan (cmos_h / (F32.two * focal)))%f32 /\
  _img_width t = 0 /\ _img_height t = 0 /\ _debug_count t = 0 /\
  cv.empty (_last_im t) = true /\ _features t = [] /\
  forall img height gray corners,
    to_gray img = cv.Returns gray ->
    goodFeaturesToTrack gray 1000 (1 # 10) (8 # 1) cv.Mat_default 2
      = cv.Returns corners ->
    calculateRealVel img height t
    = (Ok ([], [], [], [], true), after_extraction gray corners t).
Proof.
  cbv zeta. repeat split.
  intros img height gray corners Hgray Hdet.
  now apply calculateRealVel_unseeded.
Qed.

End Construction.

Lemma constructor_total_witness :
  _fov_h (OpticalFlowTracking_ctor (L := Scenario.library)
            OPTICAL_FLOW_LUCAS_KANADE (Scenario.ratio 1 10)
            F32.zero (F32.of_int (-1)) F32.zero)
  = (F32.two * Scenario.atan3 (F32.of_int (-1) / (F32.two * F32.zero)))%f32.
Proof.
  exact (proj1 (proj2 (proj2 (proj2 (proj2 (proj2
           (constructor_total (L := Scenario.library)
              OPTICAL_FLOW_LUCAS_KANADE (Scenario.ratio 1 10)
              F32.zero (F32.of_int (-1)) F32.zero))))))).
Defined.

(** * The states the member functions leave behind *)

Section States.

Context {L : Library}.

(** Where [extractFeatures] can leave the object. *)
Lemma extractFeatures_state img t :
  let t' := snd (extractFeatures img t) in
  t' = t \/
  t' = set_features [] t \/
  exists gray corners,
    to_gray img = cv.Returns gray /\
    goodFeaturesToTrack gray 1000 (1 # 10) (8 # 1) cv.Mat_default 2
      = cv.Returns corners /\
    t' = after_extraction gray corners t.
Proof.
  cbv zeta.
  destruct (to_gray img) as [gray|e] eqn:Hgray;
    [|left; run_member; now rewrite Hgray].
  destruct (goodFeaturesToTrack gray 1000 (1 # 10) (8 # 1) cv.Mat_default 2)
    as [corners|e] eqn:Hdet.
  - right; right. exists gray, corners.
    now rewrite (extractFeatures_returns _ _ _ _ Hgray Hdet).
  - right; left. run_member. now rewrite Hgray, Hdet.
Qed.

(** Where a [calculateRealVel] call that does not run into undefined
    behaviour can leave the object. *)
Lemma calculateRealVel_state img height t :
  fst (calculateRealVel img height t) <> Undefined ->
  let t' := snd (calculateRealVel img height t) in
  (cv.empty (_last_im t) = true /\ t' = snd (extractFeatures img t)) \/
  (cv.empty (_last_im t) = false /\
   (t' = t \/
    t' = set_debug_count (wrap_int (_debug_count t + 1)) t \/
    t' = set_features []
           (set_debug_count (wrap_int (_debug_count t + 1)) t) \/
    exists gray corners,
      to_gray img = cv.Returns gray /\
      goodFeaturesToTrack gray 1000 (1 # 10) (8 # 1) cv.Mat_default 2
        = cv.Returns corners /\
      t' = after_tracking gray corners t)).
Proof.
  cbv zeta. intros Hdef.
  destruct (cv.empty (_last_im t)) eqn:Hlast.
  - left. split; [reflexivity|].
    unfold calculateRealVel, bind, this, ret. rewrite Hlast.
    destruct (extractFeatures img t) as [[| |] t']; reflexivity.
  - right. split; [reflexivity|]. revert Hdef.
    unfold calculateRealVel, detect_into_features, bind, this, call, indexing,
      modify, ret.
    rewrite Hlast. cbv beta iota.
    cbn [_last_im _features _delta_t set_debug_count].
    destruct (to_gray img) as [gray|e] eqn:Hgray; cbn [fst snd]; auto.
    destruct (calcOpticalFlowPyrLK (_last_im t) gray (_features t)
                {| cv.width := 16; cv.height := 16 |} 2 _criteria)
      as [[[nfs ss] err] | e]; cbn [fst snd]; auto.
    destruct (pixel_velocity_loop (List.length nfs) 0 nfs ss (_features t)
                (_delta_t t) ([], [], [])) as [[[vx vy] olds] | ];
      cbn [fst snd]; auto.
    destruct (goodFeaturesToTrack gray 1000 (1 # 10) (8 # 1) cv.Mat_default 2)
      as [corners|e] eqn:Hdet; cbn [fst snd]; auto.
    destruct (real_velocity_loop _ _ _ _ _ _ _) as [[ax ay]| ];
      cbn [fst snd]; intros Hdef;
      right; right; right; exists gray, corners; auto.
Qed.

End States.

(** * No read out of range *)

Section Defined.

Context {L : Library}.

Lemma extractFeatures_defined img t :
  fst (extractFeatures img t) <> Undefined.
Proof.
  run_member. split_outcomes; discriminate.
Qed.

(** When the optical-flow call answers with one point and one status per
    feature, no call reads a vector out of range. *)
Lemma calculateRealVel_defined img height t :
  lk_tracks_every_point L ->
  fst (calculateRealVel img height t) <> Undefined.
Proof.
  intros Hlk.
  destruct (cv.empty (_last_im t)) eqn:Hlast.
  - pose proof (extractFeatures_defined img t) as Hdef.
    unfold calculateRealVel, bind, this, ret. rewrite Hlast.
    destruct (extractFeatures img t) as [[| |] t']; cbn in *;
      congruence.
  - destruct (to_gray img) as [gray|e] eqn:Hgray;
      [|unfold calculateRealVel, bind, this, call; rewrite Hlast, Hgray;
        discriminate].
    destruct (calcOpticalFlowPyrLK (_last_im t) gray (_features t)
                {| cv.width := 16; cv.height := 16 |} 2 _criteria)
      as [[[nfs ss] err] | e] eqn:Htrack;
      [|unfold calculateRealVel, bind, this, call, modify;
        rewrite Hlast, Hgray; cbn [_last_im _features set_debug_count];
        rewrite Htrack; discriminate].
    destruct (Hlk _ _ _ _ _ _ _ _ _ Htrack) as [Hn Hs].
    destruct (goodFeaturesToTrack gray 1000 (1 # 10) (8 # 1) cv.Mat_default 2)
      as [corners|e] eqn:Hdet.
    + rewrite (calculateRealVel_tracking _ _ height _ _ _ _ _
                 Hlast Hgray Htrack Hn Hs Hdet).
      discriminate.
    + unfold calculateRealVel, detect_into_features, bind, this, call,
        indexing, modify.
      rewrite Hlast, Hgray. cbn [_last_im _features _delta_t set_debug_count].
      rewrite Htrack, (pixel_velocity_loop_correct _ _ _ _ Hn Hs).
      cbv beta iota. rewrite Hdet. discriminate.
Qed.

End Defined.

(** * The caller's [try] block *)

Section Caught.

Context {L : Library}.




End Caught.

(** * binary32 facts *)

Lemma digits2_pos_size p : digits2_pos p = Pos.size p.
Proof. induction p; simpl; congruence. Qed.

Lemma digits2_pos_lower p : 2 ^ (Zpos (digits2_pos p) - 1) <= Zpos p.
Proof.
  rewrite digits2_pos_size.
  pose proof (Pos.size_le p) as H.
  assert (H' : 2 ^ Zpos (Pos.size p) <= 2 * Zpos p).
  { change (2 * Zpos p) with (Zpos p~0).
    rewrite <- Pos2Z.inj_pow. now apply Pos2Z.pos_le_pos. }
  replace (Zpos (Pos.size p)) with (Zpos (Pos.size p) - 1 + 1) in H' by lia.
  rewrite Z.pow_add_r, Z.pow_1_r in H' by lia. lia.
Qed.

Lemma digits2_pos_upper p : Zpos p < 2 ^ Zpos (digits2_pos p).
Proof.
  rewrite digits2_pos_size.
  pose proof (Pos.size_gt p) as H.
  rewrite <- Pos2Z.inj_pow. now apply Pos2Z.pos_lt_pos.
Qed.

Lemma shr_1_m mrs : 0 <= shr_m mrs -> shr_m (shr_1 mrs) = shr_m mrs / 2.
Proof.
  destruct mrs as [m r s]. cbn [shr_m]. intros Hm.
  destruct m as [|p|p]; [reflexivity| |lia].
  destruct p as [p|p|]; cbn [shr_1 shr_m].
  - rewrite Pos2Z.inj_xI. apply Z.div_unique with (r := 1); lia.
  - rewrite Pos2Z.inj_xO. apply Z.div_unique with (r := 0); lia.
  - reflexivity.
Qed.

Lemma iter_pos_shr_1_m p : forall mrs,
  0 <= shr_m mrs ->
  shr_m (iter_pos shr_1 p mrs) = shr_m mrs / 2 ^ Zpos p.
Proof.
  induction p as [p IH|p IH|]; intros mrs Hm; cbn [iter_pos].
  - assert (H1 : 0 <= shr_m (shr_1 mrs))
      by (rewrite shr_1_m by auto; apply Z.div_pos; lia).
    assert (H2 : 0 <= shr_m (iter_pos shr_1 p (shr_1 mrs)))
      by (rewrite IH by auto; apply Z.div_pos; lia).
    rewrite IH, IH, shr_1_m by auto.
    rewrite !Z.div_div by lia.
    f_equal. rewrite Pos2Z.inj_xI.
    rewrite <- !Z.pow_add_r by lia. rewrite <- (Z.pow_1_r 2) at 1.
    rewrite <- Z.pow_add_r by lia. f_equal. lia.
  - assert (H2 : 0 <= shr_m (iter_pos shr_1 p mrs))
      by (rewrite IH by auto; apply Z.div_pos; lia).
    rewrite IH, IH by auto.
    rewrite !Z.div_div by lia.
    f_equal. rewrite Pos2Z.inj_xO.
    rewrite <- !Z.pow_add_r by lia. f_equal. lia.
  - rewrite shr_1_m by auto. reflexivity.
Qed.

Lemma shr_record_of_loc_m m l : shr_m (shr_record_of_loc m l) = m.
Proof. destruct l as [|[| |]]; reflexivity. Qed.

Lemma round_nearest_even_ge m l : m <= round_nearest_even m l.
Proof.
  destruct l as [|[| |]]; cbn [round_nearest_even]; try lia.
  destruct (Z.even m); lia.
Qed.

Section RoundingFacts.

Variables prec emax : Z.
Hypothesis prec_pos : 0 < prec.

(** The first shift of a rounding keeps a positive mantissa positive when
    the exponent is not below [emin]. *)
Lemma shr_fexp_positive p e l :
  emin prec emax <= e ->
  0 < shr_m (fst (shr_fexp prec emax (Zpos p) e l)) /\
  emin prec emax <= snd (shr_fexp prec emax (Zpos p) e l).
Proof.
  intros He. unfold shr_fexp, shr, fexp. cbn [Zdigits2].
  pose proof (digits2_pos_lower p) as Hlow.
  destruct (Z.max (Zpos (digits2_pos p) + e - prec) (emin prec emax) - e)
    as [|n|n] eqn:Hn; cbn [fst snd];
    try (rewrite shr_record_of_loc_m; split; lia).
  rewrite iter_pos_shr_1_m by (rewrite shr_record_of_loc_m; lia).
  rewrite shr_record_of_loc_m. split; [|lia].
  assert (Hle : Zpos n <= Zpos (digits2_pos p) - 1) by lia.
  assert (2 ^ Zpos n <= 2 ^ (Zpos (digits2_pos p) - 1))
    by (apply Z.pow_le_mono_r; lia).
  apply Z.div_str_pos. split; [apply Z.pow_pos_nonneg; lia | lia].
Qed.

Lemma binary_round_aux_nonzero s p e l :
  emin prec emax <= e ->
  F32.is_zero (binary_round_aux prec emax s (Zpos p) e l) = false.
Proof.
  intros He. unfold binary_round_aux.
  destruct (shr_fexp_positive p e l He) as [Hm1 He1].
  destruct (shr_fexp prec emax (Zpos p) e l) as [mrs1 e1]. cbn [fst snd] in *.
  pose proof (round_nearest_even_ge (shr_m mrs1) (loc_of_shr_record mrs1)) as Hr.
  destruct (round_nearest_even (shr_m mrs1) (loc_of_shr_record mrs1))
    as [|q|q] eqn:Hq; try lia.
  destruct (shr_fexp_positive q e1 loc_Exact He1) as [Hm2 He2].
  destruct (shr_fexp prec emax (Zpos q) e1 loc_Exact) as [mrs2 e2].
  cbn [fst snd] in *.
  destruct (shr_m mrs2); try lia.
  destruct (e2 <=? emax - prec); reflexivity.
Qed.

Lemma binary_round_nonzero s p e :
  emin prec emax <= e ->
  F32.is_zero (binary_round prec emax s p e) = false.
Proof.
  intros He. unfold binary_round, shl_align.
  assert (Hf : emin prec emax <= fexp prec emax (Zpos (digits2_pos p) + e))
    by (unfold fexp; lia).
  destruct (fexp prec emax (Zpos (digits2_pos p) + e) - e);
    now apply binary_round_aux_nonzero.
Qed.

End RoundingFacts.

Lemma of_int_nonzero z : z <> 0 -> F32.is_zero (F32.of_int z) = false.
Proof.
  intros Hz. unfold F32.of_int, binary_normalize.
  destruct z as [|p|p]; [congruence| |];
    apply binary_round_nonzero; vm_compute; congruence.
Qed.

Section Doubling.

Variables prec emax : Z.
Hypothesis prec_pos : 0 < prec.

Lemma shr_nonpos mrs e n : n <= 0 -> shr mrs e n = (mrs, e).
Proof. destruct n; [reflexivity | lia | reflexivity]. Qed.

Lemma shr_succ mrs e n :
  shr mrs (e + 1) n = (fst (shr mrs e n), snd (shr mrs e n) + 1).
Proof. destruct n; cbn [shr fst snd]; f_equal; lia. Qed.

(** Outside the range where the exponent is clamped, the shift of a
    rounding does not depend on the exponent. *)
Lemma shr_fexp_succ m e l :
  emin prec emax <= Zdigits2 m + e - prec \/ emin prec emax <= e ->
  shr_fexp prec emax m (e + 1) l
  = (fst (shr_fexp prec emax m e l), snd (shr_fexp prec emax m e l) + 1).
Proof.
  intros Hzone. unfold shr_fexp, fexp.
  destruct (Z_le_gt_dec (emin prec emax) (Zdigits2 m + e - prec)) as [Hlin|Hcl].
  - replace (Z.max (Zdigits2 m + (e + 1) - prec) (emin prec emax) - (e + 1))
      with (Z.max (Zdigits2 m + e - prec) (emin prec emax) - e) by lia.
    apply shr_succ.
  - rewrite (shr_nonpos _ (e + 1)) by lia.
    rewrite (shr_nonpos _ e) by lia.
    reflexivity.
Qed.

(** After the shift of a rounding the exponent is at least [emin]. *)
Lemma shr_fexp_exponent m e l :
  emin prec emax <= snd (shr_fexp prec emax m e l).
Proof.
  unfold shr_fexp, shr, fexp.
  destruct (Z.max (Zdigits2 m + e - prec) (emin prec emax) - e) eqn:Hn;
    cbn [snd]; lia.
Qed.

(** Rounding one binade higher gives the double. *)
Lemma binary_round_aux_succ s m e l :
  emin prec emax <= Zdigits2 m + e - prec \/ emin prec emax <= e ->
  binary_round_aux prec emax s m (e + 1) l
  = SFdouble prec emax (binary_round_aux prec emax s m e l).
Proof.
  intros Hzone. unfold binary_round_aux.
  rewrite (shr_fexp_succ _ _ _ Hzone).
  pose proof (shr_fexp_exponent m e l) as He1.
  destruct (shr_fexp prec emax m e l) as [mrs1 e1]. cbn [fst snd] in *.
  rewrite (shr_fexp_succ _ e1 _ (or_intror He1)).
  destruct (shr_fexp prec emax _ e1 loc_Exact) as [mrs2 e2]. cbn [fst snd].
  destruct (shr_m mrs2); cbn [SFdouble]; try reflexivity.
  destruct (e2 <=? emax - prec) eqn:E2; cbn [SFdouble]; [reflexivity|].
  apply Z.leb_gt in E2.
  destruct (e2 + 1 <=? emax - prec) eqn:E3; [apply Z.leb_le in E3; lia|reflexivity].
Qed.

(** When the exact product is not below the normal range and the doubled
    factor is finite, doubling a factor doubles the rounded product. *)
Lemma SFmul_double_finite sh mh eh sc mc ec :
  eh + 1 <= emax - prec ->
  emin prec emax <= Zpos (digits2_pos (mh * mc)) + (eh + ec) - prec ->
  SFmul prec emax (SFdouble prec emax (S754_finite sh mh eh))
    (S754_finite sc mc ec)
  = SFdouble prec emax
      (SFmul prec emax (S754_finite sh mh eh) (S754_finite sc mc ec)).
Proof.
  intros Hfin Hzone. cbn [SFdouble].
  apply Z.leb_le in Hfin. rewrite Hfin. cbn [SFmul].
  replace (eh + 1 + ec) with (eh + ec + 1) by lia.
  apply binary_round_aux_succ. left. exact Hzone.
Qed.

Lemma SFmul_double_special h c :
  match h, c with
  | S754_finite _ _ _, S754_finite _ _ _ => False
  | S754_finite _ _ eh, _ => eh + 1 <= emax - prec
  | _, _ => True
  end ->
  SFmul prec emax (SFdouble prec emax h) c
  = SFdouble prec emax (SFmul prec emax h c).
Proof.
  destruct h as [sh|sh| |sh mh eh], c as [sc|sc| |sc mc ec];
    try reflexivity; try contradiction;
    intros Hfin; apply Z.leb_le in Hfin; cbn [SFdouble]; rewrite Hfin;
    reflexivity.
Qed.

(** The same for a quotient whose exponent is not clamped. *)
Lemma SFdiv_double_finite sa ma ea sd md ed :
  ea + 1 <= emax - prec ->
  Zpos (digits2_pos ma) <= prec ->
  emin prec emax
    <= Zpos (digits2_pos ma) + ea - (Zpos (digits2_pos md) + ed) - prec ->
  SFdiv prec emax (SFdouble prec emax (S754_finite sa ma ea))
    (S754_finite sd md ed)
  = SFdouble prec emax
      (SFdiv prec emax (S754_finite sa ma ea) (S754_finite sd md ed)).
Proof.
  intros Hfin Hdig Hzone. cbn [SFdouble].
  apply Z.leb_le in Hfin. rewrite Hfin. cbn [SFdiv].
  unfold SFdiv_core_binary. cbn [Zdigits2].
  pose proof (Pos2Z.is_pos (digits2_pos md)) as Hd2.
  set (d1 := Zpos (digits2_pos ma)) in *.
  set (d2 := Zpos (digits2_pos md)) in *.
  assert (E0 : Z.min (fexp prec emax (d1 + ea - (d2 + ed))) (ea - ed)
               = d1 + ea - (d2 + ed) - prec)
    by (unfold fexp; lia).
  assert (E1 : Z.min (fexp prec emax (d1 + (ea + 1) - (d2 + ed))) (ea + 1 - ed)
               = d1 + ea - (d2 + ed) - prec + 1)
    by (unfold fexp; lia).
  rewrite E0, E1.
  replace (ea + 1 - ed - (d1 + ea - (d2 + ed) - prec + 1))
    with (ea - ed - (d1 + ea - (d2 + ed) - prec)) by lia.
  destruct (Z.div_eucl _ (Zpos md)) as [q r].
  apply binary_round_aux_succ. right. exact Hzone.
Qed.

Lemma SFdiv_double_special a dt :
  match a, dt with
  | S754_finite _ _ _, S754_finite _ _ _ => False
  | S754_finite _ _ ea, _ => ea + 1 <= emax - prec
  | _, _ => True
  end ->
  SFdiv prec emax (SFdouble prec emax a) dt
  = SFdouble prec emax (SFdiv prec emax a dt).
Proof.
  destruct a as [sa|sa| |sa ma ea], dt as [sd|sd| |sd md ed];
    try reflexivity; try contradiction;
    intros Hfin; apply Z.leb_le in Hfin; cbn [SFdouble]; rewrite Hfin;
    reflexivity.
Qed.


Lemma Zdigits2_bounds p :
  2 ^ (Zpos (digits2_pos p) - 1) <= Zpos p < 2 ^ Zpos (digits2_pos p).
Proof. split; [apply digits2_pos_lower | apply digits2_pos_upper]. Qed.

Lemma digits2_pos_unique p d :
  2 ^ (d - 1) <= Zpos p < 2 ^ d -> Zpos (digits2_pos p) = d.
Proof.
  intros [Hlo Hhi]. destruct (Zdigits2_bounds p) as [Hlo' Hhi'].
  assert (0 < d).
  { destruct (Z_lt_le_dec 0 d); auto.
    assert (2 ^ d <= 1).
    { destruct (Z.eq_dec d 0) as [->|]; [cbn; lia|].
      rewrite Z.pow_neg_r by lia. lia. }
    lia. }
  assert (Zpos (digits2_pos p) - 1 < d)
    by (apply (Z.pow_lt_mono_r_iff 2); lia).
  assert (d - 1 < Zpos (digits2_pos p))
    by (apply (Z.pow_lt_mono_r_iff 2); lia).
  lia.
Qed.

Lemma digits2_pos_ge p d :
  2 ^ (d - 1) <= Zpos p -> d <= Zpos (digits2_pos p).
Proof.
  intros Hlo. destruct (Zdigits2_bounds p) as [_ Hhi].
  destruct (Z_le_gt_dec d 0); [lia|].
  assert (d - 1 < Zpos (digits2_pos p))
    by (apply (Z.pow_lt_mono_r_iff 2); lia).
  lia.
Qed.

Lemma round_nearest_even_le m l : round_nearest_even m l <= m + 1.
Proof.
  destruct l as [|[| |]]; cbn [round_nearest_even]; try lia.
  destruct (Z.even m); lia.
Qed.

Lemma full_mantissa_bounded q e :
  Zpos (digits2_pos q) = prec ->
  emin prec emax <= e -> e <= emax - prec ->
  bounded prec emax q e = true.
Proof.
  intros Hd Hlo Hhi. unfold bounded, canonical_mantissa, fexp.
  rewrite Hd. apply andb_true_intro. split.
  - apply Z.eqb_eq. lia.
  - apply Z.leb_le. lia.
Qed.

(** Rounding a mantissa of at least [prec] digits whose value is not below
    the normal range gives a normal number or an infinity. *)
Lemma binary_round_aux_normal s p e l :
  prec <= Zpos (digits2_pos p) ->
  emin prec emax <= Zpos (digits2_pos p) + e - prec ->
  normal_or_inf prec emax (binary_round_aux prec emax s (Zpos p) e l).
Proof.
  intros Hd Hzone. unfold binary_round_aux.
  set (d := Zpos (digits2_pos p)) in *.
  destruct (Zdigits2_bounds p) as [Hlo Hhi]. fold d in Hlo, Hhi.
  (* first shift *)
  assert (H1 : shr_m (fst (shr_fexp prec emax (Zpos p) e l))
               = Zpos p / 2 ^ (d - prec) /\
               snd (shr_fexp prec emax (Zpos p) e l) = d + e - prec).
  { unfold shr_fexp, shr, fexp. cbn [Zdigits2]. fold d.
    replace (Z.max (d + e - prec) (emin prec emax) - e) with (d - prec) by lia.
    destruct (d - prec) as [|n|n] eqn:Hn; cbn [fst snd]; try lia.
    - rewrite shr_record_of_loc_m, Z.div_1_r. split; lia.
    - rewrite iter_pos_shr_1_m by (rewrite shr_record_of_loc_m; lia).
      rewrite shr_record_of_loc_m. split; [reflexivity | lia]. }
  destruct (shr_fexp prec emax (Zpos p) e l) as [mrs1 e1].
  cbn [fst snd] in H1. destruct H1 as [Hm1 He1].
  assert (Hpow : 2 ^ (d - 1) = 2 ^ (d - prec) * 2 ^ (prec - 1))
    by (rewrite <- Z.pow_add_r by lia; f_equal; lia).
  assert (Hpow' : 2 ^ d = 2 ^ (d - prec) * 2 ^ prec)
    by (rewrite <- Z.pow_add_r by lia; f_equal; lia).
  assert (Hpp : 0 < 2 ^ (d - prec)) by (apply Z.pow_pos_nonneg; lia).
  assert (Hm1lo : 2 ^ (prec - 1) <= shr_m mrs1)
    by (rewrite Hm1; apply Z.div_le_lower_bound; lia).
  assert (Hm1hi : shr_m mrs1 < 2 ^ prec)
    by (rewrite Hm1; apply Z.div_lt_upper_bound; lia).
  pose proof (round_nearest_even_ge (shr_m mrs1) (loc_of_shr_record mrs1)) as Hge.
  pose proof (round_nearest_even_le (shr_m mrs1) (loc_of_shr_record mrs1)) as Hle.
  assert (Hp1 : 0 < 2 ^ (prec - 1)) by (apply Z.pow_pos_nonneg; lia).
  destruct (round_nearest_even (shr_m mrs1) (loc_of_shr_record mrs1))
    as [|q|q] eqn:Hq; try lia.
  (* second shift *)
  unfold shr_fexp, shr, fexp. cbn [Zdigits2].
  destruct (Z_lt_le_dec (Zpos q) (2 ^ prec)) as [Hlt|Hge2].
  - assert (Hdq : Zpos (digits2_pos q) = prec)
      by (apply digits2_pos_unique; lia).
    rewrite Hdq.
    replace (Z.max (prec + e1 - prec) (emin prec emax) - e1) with 0 by lia.
    cbn [shr_record_of_loc shr_m].
    destruct (e1 <=? emax - prec) eqn:Ee; cbn [normal_or_inf]; [|exact I].
    apply Z.leb_le in Ee. split; [exact Hdq|].
    apply full_mantissa_bounded; auto; lia.
  - assert (Hq2 : Zpos q = 2 ^ prec) by lia.
    assert (Hdq : Zpos (digits2_pos q) = prec + 1).
    { apply digits2_pos_unique. rewrite Hq2.
      replace (prec + 1 - 1) with prec by lia.
      split; [lia|]. apply Z.pow_lt_mono_r; lia. }
    rewrite Hdq.
    replace (Z.max (prec + 1 + e1 - prec) (emin prec emax) - e1) with 1 by lia.
    cbn [iter_pos shr_record_of_loc].
    assert (Hhalf : shr_m (shr_1 {| shr_m := Zpos q; shr_r := false;
                                     shr_s := false |}) = 2 ^ (prec - 1)).
    { rewrite shr_1_m by (cbn; lia). cbn [shr_m]. rewrite Hq2.
      replace prec with (prec - 1 + 1) at 1 by lia.
      rewrite Z.pow_add_r, Z.pow_1_r by lia.
      apply Z.div_mul. lia. }
    destruct (shr_m (shr_1 _)) as [|q'|q'] eqn:Hq'; try lia.
    destruct (e1 + 1 <=? emax - prec) eqn:Ee; cbn [normal_or_inf]; [|exact I].
    apply Z.leb_le in Ee.
    assert (Hdq' : Zpos (digits2_pos q') = prec).
    { apply digits2_pos_unique. rewrite Hhalf. split; [lia|].
      apply Z.pow_lt_mono_r; lia. }
    split; [exact Hdq'|].
    apply full_mantissa_bounded; auto; lia.
Qed.


Lemma SFmul_normal sh mh eh sc mc ec :
  Zpos (digits2_pos mh) = prec ->
  emin prec emax <= Zpos (digits2_pos (mh * mc)) + (eh + ec) - prec ->
  normal_or_inf prec emax
    (SFmul prec emax (S754_finite sh mh eh) (S754_finite sc mc ec)).
Proof.
  intros Hd Hzone. cbn [SFmul].
  apply binary_round_aux_normal; [|exact Hzone].
  apply digits2_pos_ge.
  destruct (Zdigits2_bounds mh) as [Hlo _]. rewrite Hd in Hlo.
  rewrite Pos2Z.inj_mul. nia.
Qed.

Lemma SFdiv_normal sa ma ea sd md ed :
  Zpos (digits2_pos ma) = prec ->
  emin prec emax
    <= Zpos (digits2_pos ma) + ea - (Zpos (digits2_pos md) + ed) - prec ->
  normal_or_inf prec emax
    (SFdiv prec emax (S754_finite sa ma ea) (S754_finite sd md ed)).
Proof.
  intros Hd Hzone. cbn [SFdiv].
  unfold SFdiv_core_binary. cbn [Zdigits2].
  destruct (Zdigits2_bounds ma) as [Hlo1 Hhi1].
  destruct (Zdigits2_bounds md) as [Hlo2 Hhi2].
  rewrite Hd in *.
  set (d2 := digits2_pos md) in *.
  assert (E0 : Z.min (fexp prec emax (prec + ea - (Zpos d2 + ed))) (ea - ed)
               = ea - ed - Zpos d2)
    by (unfold fexp; lia).
  rewrite E0.
  replace (ea - ed - (ea - ed - Zpos d2)) with (Zpos d2) by lia.
  rewrite Z.shiftl_mul_pow2 by lia.
  pose proof (Z_div_mod (Zpos ma * 2 ^ Zpos d2) (Zpos md) eq_refl) as Hdm.
  destruct (Z.div_eucl (Zpos ma * 2 ^ Zpos d2) (Zpos md)) as [q r].
  destruct Hdm as [Hdm Hr].
  assert (Hp1 : 0 < 2 ^ (prec - 1)) by (apply Z.pow_pos_nonneg; lia).
  assert (Hq : 2 ^ (prec - 1) <= q) by nia.
  destruct q as [|q|q]; try lia.
  apply binary_round_aux_normal.
  - now apply digits2_pos_ge.
  - pose proof (digits2_pos_ge q prec Hq). lia.
Qed.


Lemma normal_or_inf_not_subnormal r :
  normal_or_inf prec emax r -> not_subnormal prec emax r.
Proof. destruct r; cbn; tauto. Qed.

Lemma SFmul_double h c :
  match h with
  | S754_finite _ _ eh => eh + 1 <= emax - prec
  | _ => True
  end ->
  match h, c with
  | S754_finite _ mh eh, S754_finite _ mc ec =>
      emin prec emax <= Zpos (digits2_pos (mh * mc)) + (eh + ec) - prec
  | _, _ => True
  end ->
  SFmul prec emax (SFdouble prec emax h) c
  = SFdouble prec emax (SFmul prec emax h c).
Proof.
  intros Hfin Hzone.
  destruct h as [sh|sh| |sh mh eh], c as [sc|sc| |sc mc ec];
    try (now apply SFmul_double_special).
  now apply SFmul_double_finite.
Qed.

Lemma SFdiv_double a dt :
  match a with
  | S754_finite _ ma ea =>
      ea + 1 <= emax - prec /\ Zpos (digits2_pos ma) <= prec
  | _ => True
  end ->
  match a, dt with
  | S754_finite _ ma ea, S754_finite _ md ed =>
      emin prec emax
      <= Zpos (digits2_pos ma) + ea - (Zpos (digits2_pos md) + ed) - prec
  | _, _ => True
  end ->
  SFdiv prec emax (SFdouble prec emax a) dt
  = SFdouble prec emax (SFdiv prec emax a dt).
Proof.
  intros Hfin Hzone.
  destruct a as [sa|sa| |sa ma ea], dt as [sd|sd| |sd md ed];
    try (apply SFdiv_double_special; tauto).
  apply SFdiv_double_finite; tauto.
Qed.

Lemma SFmul_not_subnormal h c :
  not_subnormal prec emax h ->
  match h, c with
  | S754_finite _ mh eh, S754_finite _ mc ec =>
      emin prec emax <= Zpos (digits2_pos (mh * mc)) + (eh + ec) - prec
  | _, _ => True
  end ->
  not_subnormal prec emax (SFmul prec emax h c).
Proof.
  intros Hh Hzone.
  destruct h as [sh|sh| |sh mh eh], c as [sc|sc| |sc mc ec]; try exact I.
  apply normal_or_inf_not_subnormal. apply SFmul_normal; [apply Hh | exact Hzone].
Qed.

Lemma SFdiv_not_subnormal a dt :
  not_subnormal prec emax a ->
  match a, dt with
  | S754_finite _ ma ea, S754_finite _ md ed =>
      emin prec emax
      <= Zpos (digits2_pos ma) + ea - (Zpos (digits2_pos md) + ed) - prec
  | _, _ => True
  end ->
  not_subnormal prec emax (SFdiv prec emax a dt).
Proof.
  intros Ha Hzone.
  destruct a as [sa|sa| |sa ma ea], dt as [sd|sd| |sd md ed]; try exact I.
  apply normal_or_inf_not_subnormal. apply SFdiv_normal; [apply Ha | exact Hzone].
Qed.

End Doubling.

(** In binary32, [2.0f * x] is the double of [x] unless [x] is subnormal. *)
Lemma mul_two_normal s m e :
  Zpos (digits2_pos m) = 24 ->
  bounded 24 128 m e = true ->
  F32.mul F32.two (S754_finite s m e) = F32.double (S754_finite s m e).
Proof.
  intros Hd Hb.
  unfold bounded, canonical_mantissa in Hb.
  apply andb_prop in Hb as [Hc He].
  apply Z.eqb_eq in Hc. apply Z.leb_le in He.
  rewrite Hd in Hc. unfold fexp, emin in Hc.
  assert (Hemin : -149 <= e) by lia.
  injection Hd as Hd.
  unfold F32.mul, F32.two, SFmul, binary_round_aux, shr_fexp.
  cbn [xorb Pos.mul Zdigits2 digits2_pos]. rewrite Hd.
  cbn [Pos.succ].
  replace (fexp F32.prec F32.emax (47 + (-22 + e)) - (-22 + e)) with 23
    by (unfold fexp, emin, F32.prec, F32.emax; lia).
  cbn [shr shr_record_of_loc iter_pos shr_1 orb fst snd shr_m
       loc_of_shr_record round_nearest_even Zdigits2 digits2_pos].
  rewrite Hd.
  replace (fexp F32.prec F32.emax (24 + (-22 + e + 23)) - (-22 + e + 23)) with 0
    by (unfold fexp, emin, F32.prec, F32.emax; lia).
  cbn [shr shr_m shr_record_of_loc F32.double SFdouble].
  replace (-22 + e + 23) with (e + 1) by lia.
  reflexivity.
Qed.

Lemma mul_two_not_subnormal x :
  not_subnormal F32.prec F32.emax x -> F32.mul F32.two x = F32.double x.
Proof.
  destruct x as [s|s| |s m e]; try reflexivity.
  intros [Hd Hb]. now apply mul_two_normal.
Qed.

(** The conversion of one sample, [height * c / dt] with [c] the tangent:
    under [F32.doubling_is_exact], doubling the height doubles the result. *)
Lemma conversion_doubles height c dt :
  F32.doubling_is_exact height c dt = true ->
  (F32.two * height * c / dt)%f32 = (F32.two * (height * c / dt))%f32.
Proof.
  intros Hsafe.
  assert (Hh : not_subnormal F32.prec F32.emax height /\
               match height with
               | S754_finite _ _ eh => eh + 1 <= F32.emax - F32.prec
               | _ => True
               end /\
               match height, c with
               | S754_finite _ mh eh, S754_finite _ mc ec =>
                   emin F32.prec F32.emax
                   <= Zpos (digits2_pos (mh * mc)) + (eh + ec) - F32.prec
               | _, _ => True
               end /\
               match F32.mul height c with
               | S754_finite _ _ ea => ea + 1 <= F32.emax - F32.prec
               | _ => True
               end /\
               match F32.mul height c, dt with
               | S754_finite _ ma ea, S754_finite _ md ed =>
                   emin F32.prec F32.emax
                   <= Zpos (digits2_pos ma) + ea
                      - (Zpos (digits2_pos md) + ed) - F32.prec
               | _, _ => True
               end).
  { unfold F32.doubling_is_exact in Hsafe.
    destruct height as [s|s| |s m e];
      try (destruct c; (destruct dt; cbn; tauto)).
    apply andb_prop in Hsafe as [Hsafe Hq].
    apply andb_prop in Hsafe as [Hsafe Hf'].
    apply andb_prop in Hsafe as [Hsafe Hp].
    apply andb_prop in Hsafe as [Hnorm Hf].
    unfold F32.is_normal in Hnorm. apply andb_prop in Hnorm as [Hd Hb].
    apply Z.eqb_eq in Hd.
    repeat split; auto.
    - now apply Z.leb_le.
    - unfold F32.product_is_normal in Hp. destruct c; auto. now apply Z.leb_le.
    - unfold F32.double_is_finite in Hf'.
      destruct (F32.mul _ c); auto. now apply Z.leb_le.
    - unfold F32.quotient_is_normal in Hq.
      destruct (F32.mul _ c); auto. destruct dt; auto. now apply Z.leb_le. }
  destruct Hh as (Hn & Hfin & Hzone & Hfin' & Hzone').
  assert (Ha : not_subnormal F32.prec F32.emax (height * c)%f32)
    by exact (SFmul_not_subnormal F32.prec F32.emax eq_refl height c Hn Hzone).
  assert (Hv : not_subnormal F32.prec F32.emax (height * c / dt)%f32)
    by exact (SFdiv_not_subnormal F32.prec F32.emax eq_refl
                (F32.mul height c) dt Ha Hzone').
  rewrite (mul_two_not_subnormal height Hn).
  rewrite (mul_two_not_subnormal _ Hv).
  unfold F32.mul, F32.div, F32.double in *.
  rewrite (SFmul_double F32.prec F32.emax height c Hfin Hzone).
  apply SFdiv_double; [|exact Hzone'].
  destruct (SFmul F32.prec F32.emax height c); auto.
  destruct Ha as [Hd _]. split; [exact Hfin' | lia].
Qed.

(** * The scenario library keeps the contracts *)

Lemma scenario_detector_needs_pixels : detector_needs_pixels Scenario.library.
Proof.
  intros img maxCorners q d mask bs corners. cbn.
  unfold Scenario.threshold_corners.
  destruct (0 <? cv.rows img) eqn:Hr; destruct (0 <? cv.cols img) eqn:Hc;
    cbn [andb]; intros H Hne; try (injection H as <-; congruence).
  split; [now apply Z.ltb_lt in Hr | now apply Z.ltb_lt in Hc].
Qed.

Lemma scenario_detector_respects_cap : detector_respects_cap Scenario.library.
Proof.
  intros img maxCorners q d mask bs corners Hpos. cbn.
  unfold Scenario.threshold_corners.
  destruct ((0 <? cv.rows img) && (0 <? cv.cols img));
    intros H; injection H as <-; [|cbn; lia].
  pose proof (firstn_le_length (Z.to_nat maxCorners)
                (Scenario.bright_from 0 (cv.cols img) (cv.data img))).
  lia.
Qed.

Lemma scenario_lk_tracks_every_point : lk_tracks_every_point Scenario.library.
Proof.
  intros prev next pts win lvl crit nextPts status err. cbn.
  unfold Scenario.shift_tracker.
  destruct ((cv.rows prev =? cv.rows next) && (cv.cols prev =? cv.cols next));
    [|discriminate].
  intros H; injection H as <- <- <-. now rewrite !length_map.
Qed.

Lemma scenario_tracker1_reachable :
  reachable (L := Scenario.library) Scenario.tracker1.
Proof.
  unfold Scenario.tracker1.
  eapply reachable_step; [apply reachable_ctor|].
  apply step_calculateRealVel. vm_compute. discriminate.
Qed.

Lemma picky_library_lk : lk_tracks_every_point picky_library.
Proof.
  intros prev next pts win lvl crit nextPts status err. cbn.
  unfold picky_tracker. destruct pts as [|p pts]; [discriminate|].
  apply scenario_lk_tracks_every_point.
Qed.

(** With a reference frame and no feature, every call with the picky tracker
    throws and leaves the tracker in such a state. *)
Lemma picky_keeps_failing t img height :
  frame_only t ->
  (exists e, fst (calculateRealVel (L := picky_library) img height t)
             = Throw e) /\
  frame_only (snd (calculateRealVel (L := picky_library) img height t)).
Proof.
  intros [Hlast Hfeat].
  destruct (to_gray (L := picky_library) img) as [gray|e] eqn:Hgray.
  - rewrite (calculateRealVel_tracking_raises (L := picky_library) t img
               height gray {| cv.what := "calcOpticalFlowPyrLK: no points" |}
               Hlast Hgray)
      by (rewrite Hfeat; reflexivity).
    split; [eexists; reflexivity|]. split; assumption.
  - unfold calculateRealVel, bind, this, call. rewrite Hlast, Hgray.
    split; [eexists; reflexivity|]. split; assumption.
Qed.

(** A caught exception need not be the last one.  The picky tracker meets
    the three library contracts; after two calls that return, the second on
    a frame without corners, the tracker holds a frame and no feature, and
    from there every call throws, whatever its image. *)
Lemma tracker_can_stay_failing :
  lk_tracks_every_point picky_library /\
  detector_respects_cap picky_library /\
  detector_needs_pixels picky_library /\
  reachable (L := picky_library) tracker_in_the_dark /\
  frame_only tracker_in_the_dark /\
  forall t, frame_only t ->
  forall img height,
    (exists e, fst (calculateRealVel (L := picky_library) img height t)
               = Throw e) /\
    frame_only (snd (calculateRealVel (L := picky_library) img height t)).
Proof.
  split; [exact picky_library_lk|].
  split; [exact scenario_detector_respects_cap|].
  split; [exact scenario_detector_needs_pixels|].
  split; [|split].
  - unfold tracker_in_the_dark.
    eapply reachable_step;
      [|apply step_calculateRealVel; vm_compute; discriminate].
    eapply reachable_step;
      [|apply step_calculateRealVel; vm_compute; discriminate].
    apply (reachable_ctor (L := picky_library)).
  - split; vm_compute; reflexivity.
  - intros t Hframe img height. now apply picky_keeps_failing.
Qed.


(** * Invariants of the reachable states *)

Section Invariants.

Context {L : Library}.
Hypothesis needs_pixels : detector_needs_pixels L.

Lemma after_extraction_invariant gray corners t :
  goodFeaturesToTrack gray 1000 (1 # 10) (8 # 1) cv.Mat_default 2
    = cv.Returns corners ->
  tracker_invariant t -> tracker_invariant (after_extraction gray corners t).
Proof.
  intros Hdet [Hf Hd]. destruct corners as [|c cs].
  - split; cbn; [congruence | exact Hd].
  - destruct (needs_pixels _ _ _ _ _ _ _ Hdet) as [Hr Hc]; [discriminate|].
    assert (He : cv.empty gray = false)
      by (unfold cv.empty; apply Z.eqb_neq; nia).
    split; cbn; auto.
Qed.

Lemma after_tracking_invariant gray corners t :
  cv.empty (_last_im t) = false ->
  goodFeaturesToTrack gray 1000 (1 # 10) (8 # 1) cv.Mat_default 2
    = cv.Returns corners ->
  tracker_invariant t -> tracker_invariant (after_tracking gray corners t).
Proof.
  intros Hlast Hdet [Hf Hd]. split; cbn.
  - intros Hne.
    destruct (needs_pixels _ _ _ _ _ _ _ Hdet Hne) as [Hr Hc].
    split; [unfold cv.empty; apply Z.eqb_neq; nia | exact Hdet].
  - intros _. now apply Hd.
Qed.

Lemma extractFeatures_invariant img t :
  tracker_invariant t -> tracker_invariant (snd (extractFeatures img t)).
Proof.
  intros Hinv.
  destruct (extractFeatures_state img t)
    as [-> | [-> | (gray & corners & _ & Hdet & ->)]]; auto.
  - destruct Hinv as [Hf Hd]. split; cbn; [congruence | exact Hd].
  - now apply after_extraction_invariant.
Qed.

Lemma step_invariant t t' :
  step t t' -> tracker_invariant t -> tracker_invariant t'.
Proof.
  intros Hstep Hinv. destruct Hstep as [t d | t img Hdef | t img height Hdef].
  - exact Hinv.
  - now apply extractFeatures_invariant.
  - destruct (calculateRealVel_state img height t Hdef)
      as [[_ ->] | [Hlast [-> | [-> | [-> | (gray & corners & _ & Hdet & ->)]]]]];
      auto.
    + now apply extractFeatures_invariant.
    + destruct Hinv as [Hf Hd]. split; cbn; [congruence | exact Hd].
    + now apply after_tracking_invariant.
Qed.

Lemma reachable_invariant t : reachable t -> tracker_invariant t.
Proof.
  induction 1 as [method delta_t focal cmos_w cmos_h | t t' _ IH Hstep].
  - split; cbn; [congruence | discriminate].
  - exact (step_invariant _ _ Hstep IH).
Qed.

(** C10.  In every reachable state that holds a reference frame, the stored
    frame width and frame height are positive, and the two divisors of the
    conversion step, [static_cast<float>(_img_height)] and
    [static_cast<float>(_img_width)], are not zero. *)
Theorem frame_dimensions_positive t :
  reachable t ->
  cv.empty (_last_im t) = false ->
  0 < _img_width t /\ 0 < _img_height t /\
  F32.is_zero (F32.of_int (_img_height t)) = false /\
  F32.is_zero (F32.of_int (_img_width t)) = false.
Proof.
  intros Hreach Hlast.
  destruct (reachable_invariant t Hreach) as [_ Hd].
  destruct (Hd Hlast) as [Hw Hh].
  repeat split; auto; apply of_int_nonzero; lia.
Qed.

(** C5, amended.  In every reachable state with a non-empty feature vector,
    a reference frame is stored and the features are the ones the detector
    finds in that frame. *)
Theorem features_come_with_frame t :
  reachable t ->
  _features t <> [] ->
  cv.empty (_last_im t) = false /\
  goodFeaturesToTrack (_last_im t) 1000 (1 # 10) (8 # 1) cv.Mat_default 2
    = cv.Returns (_features t).
Proof.
  intros Hreach Hne.
  destruct (reachable_invariant t Hreach) as [Hf _]. now apply Hf.
Qed.

End Invariants.

Section Cap.

Context {L : Library}.
Hypothesis respects_cap : detector_respects_cap L.

Lemma features_within_cap t :
  reachable t -> (List.length (_features t) <= 1000)%nat.
Proof.
  induction 1 as [method delta_t focal cmos_w cmos_h | t t' _ IH Hstep].
  - cbn. lia.
  - assert (Hcorners : forall gray corners,
              goodFeaturesToTrack gray 1000 (1 # 10) (8 # 1) cv.Mat_default 2
                = cv.Returns corners ->
              (List.length corners <= 1000)%nat).
    { intros gray corners Hdet.
      assert (Hpos : 0 < 1000) by lia.
      pose proof (respects_cap _ _ _ _ _ _ _ Hpos Hdet). lia. }
    assert (Hextract : forall img,
              (List.length (_features (snd (extractFeatures img t))) <= 1000)%nat).
    { intros img.
      destruct (extractFeatures_state img t)
        as [-> | [-> | (gray & corners & _ & Hdet & ->)]];
        [exact IH | cbn; lia |].
      specialize (Hcorners _ _ Hdet).
      destruct corners; cbn in *; lia. }
    destruct Hstep as [t d | t img Hdef | t img height Hdef].
    + exact IH.
    + apply Hextract.
    + destruct (calculateRealVel_state img height t Hdef)
        as [[_ ->] | [Hlast [-> | [-> | [-> | (gray & corners & _ & Hdet & ->)]]]]];
        [apply Hextract | exact IH | exact IH | cbn; lia |].
      cbn. now apply (Hcorners gray).
Qed.

End Cap.

Lemma frame_dimensions_positive_witness :
  0 < _img_width Scenario.tracker1 /\ 0 < _img_height Scenario.tracker1 /\
  F32.is_zero (F32.of_int (_img_height Scenario.tracker1)) = false /\
  F32.is_zero (F32.of_int (_img_width Scenario.tracker1)) = false.
Proof.
  apply (frame_dimensions_positive (L := Scenario.library)
           scenario_detector_needs_pixels Scenario.tracker1
           scenario_tracker1_reachable).
  vm_compute. reflexivity.
Defined.

Lemma features_come_with_frame_witness :
  cv.empty (_last_im Scenario.tracker1) = false /\
  Scenario.threshold_corners (_last_im Scenario.tracker1) 1000 (1 # 10) (8 # 1)
    cv.Mat_default 2
  = cv.Returns (_features Scenario.tracker1).
Proof.
  apply (features_come_with_frame (L := Scenario.library)
           scenario_detector_needs_pixels Scenario.tracker1
           scenario_tracker1_reachable).
  vm_compute. discriminate.
Defined.

(** C5, as stated, fails: after [extractFeatures] on a frame without corners
    the tracker seeded on [frameA] still holds [frameA] but no feature. *)
Lemma frame_without_features :
  reachable (L := Scenario.library)
    (snd (extractFeatures (L := Scenario.library) Scenario.frameDark
            Scenario.tracker1)) /\
  _features (snd (extractFeatures (L := Scenario.library) Scenario.frameDark
                    Scenario.tracker1)) = [] /\
  cv.empty (_last_im (snd (extractFeatures (L := Scenario.library)
                             Scenario.frameDark Scenario.tracker1))) = false.
Proof.
  split; [|split; vm_compute; reflexivity].
  eapply reachable_step; [apply scenario_tracker1_reachable|].
  apply step_extractFeatures. vm_compute. discriminate.
Qed.

(** * What a detection stores *)

(** C4, as stated, fails at the re-seed step: the tracker seeded on [frameA]
    is given a frame without corners; the detection is empty, and yet the
    stored reference frame is now the new frame. *)
Lemma reseed_overwrites_frame :
  _features (snd (calculateRealVel (L := Scenario.library) Scenario.frameDark
                    (F32.of_int 2) Scenario.tracker1)) = [] /\
  _last_im Scenario.tracker1 = Scenario.frameA /\
  _last_im (snd (calculateRealVel (L := Scenario.library) Scenario.frameDark
                   (F32.of_int 2) Scenario.tracker1)) = Scenario.frameDark /\
  Scenario.frameDark <> Scenario.frameA.
Proof.
  repeat split; try (vm_compute; reflexivity).
  intros H. apply (f_equal cv.data) in H. vm_compute in H. discriminate H.
Qed.

Section Detection.

Context {L : Library}.

(** C4, amended.  When the grayscale conversion and the detector return:
    [extractFeatures] stores the detected corners; if there is at least one
    it also stores the grayscale image and its width and height, and if
    there is none it leaves the reference frame and the frame dimensions as
    they were.  The re-seed step of a tracking call stores the detected
    corners and the grayscale image as the new reference frame, whether or
    not a corner was found. *)
Theorem detection_stores t img height gray corners new_features status err :
  to_gray img = cv.Returns gray ->
  goodFeaturesToTrack gray 1000 (1 # 10) (8 # 1) cv.Mat_default 2
    = cv.Returns corners ->
  (let t' := snd (extractFeatures img t) in
   fst (extractFeatures img t) = Ok tt /\
   _features t' = corners /\
   (corners <> [] ->
    _last_im t' = gray /\
    _img_width t' = cv.cols gray /\ _img_height t' = cv.rows gray) /\
   (corners = [] ->
    _last_im t' = _last_im t /\
    _img_width t' = _img_width t /\ _img_height t' = _img_height t)) /\
  (cv.empty (_last_im t) = false ->
   calcOpticalFlowPyrLK (_last_im t) gray (_features t)
     {| cv.width := 16; cv.height := 16 |} 2 _criteria
     = cv.Returns (new_features, status, err) ->
   List.length new_features = List.length (_features t) ->
   List.length status = List.length (_features t) ->
   let t' := snd (calculateRealVel img height t) in
   _features t' = corners /\ _last_im t' = gray).
Proof.
  intros Hgray Hdet. split.
  - cbv zeta. rewrite (extractFeatures_returns _ _ _ _ Hgray Hdet).
    cbn [fst snd]. destruct corners as [|c cs]; cbn;
      repeat split; congruence.
  - intros Hlast Hlk Hn Hs. cbv zeta.
    rewrite (calculateRealVel_tracking _ _ height _ _ _ _ _
               Hlast Hgray Hlk Hn Hs Hdet).
    split; reflexivity.
Qed.

End Detection.

Lemma detection_stores_witness :
  _features (snd (calculateRealVel (L := Scenario.library) Scenario.frameB
                    (F32.of_int 2) Scenario.tracker1)) = Scenario.cornersB /\
  _last_im (snd (calculateRealVel (L := Scenario.library) Scenario.frameB
                   (F32.of_int 2) Scenario.tracker1)) = Scenario.frameB.
Proof.
  refine (proj2 (detection_stores (L := Scenario.library) Scenario.tracker1
                   Scenario.frameB (F32.of_int 2) Scenario.frameB
                   Scenario.cornersB Scenario.nextB Scenario.statusB
                   Scenario.errB _ _) _ _ _ _);
    vm_compute; reflexivity.
Defined.

(** * Scaling with the height *)

(** C9, as stated, fails where the product underflows: with the height
    [2^-149] the forward velocity of the surviving feature is 0, and with the
    doubled height [2^-148] it is [10 * 2^-149], which is not twice 0. *)
Lemma height_doubling_underflow :
  (F32.two * Scenario.tiny)%f32 = S754_finite false 2 (-149) /\
  (exists vy nf olds,
     fst (calculateRealVel (L := Scenario.library) Scenario.frameB
            Scenario.tiny Scenario.tracker1)
     = Ok ([S754_zero false], vy, nf, olds, true)) /\
  (exists vy nf olds,
     fst (calculateRealVel (L := Scenario.library) Scenario.frameB
            (F32.two * Scenario.tiny)%f32 Scenario.tracker1)
     = Ok ([S754_finite false 10 (-149)], vy, nf, olds, true)) /\
  (F32.two * S754_zero false)%f32 <> S754_finite false 10 (-149).
Proof.
  split; [vm_compute; reflexivity|].
  split; [eexists _, _, _; vm_compute; reflexivity|].
  split; [eexists _, _, _; vm_compute; reflexivity|].
  vm_compute. discriminate.
Qed.

Section HeightScaling.

Context {L : Library}.

(** C9, amended.  A call in the tracking state in which the library calls
    return, with [vels_x] and [vels_y] the pixel velocities of the first
    loop.  If for every sample the computation of [height * tan / _delta_t]
    and of its double stays clear of overflow and underflow
    ([F32.doubling_is_exact]), then the call with the height [2 * height]
    returns, entry by entry, twice the velocities of the call with
    [height], and the same locations. *)
Theorem height_doubling t img height gray new_features status err corners
    vels_x vels_y old_features :
  cv.empty (_last_im t) = false ->
  to_gray img = cv.Returns gray ->
  calcOpticalFlowPyrLK (_last_im t) gray (_features t)
    {| cv.width := 16; cv.height := 16 |} 2 _criteria
    = cv.Returns (new_features, status, err) ->
  List.length new_features = List.length (_features t) ->
  List.length status = List.length (_features t) ->
  goodFeaturesToTrack gray 1000 (1 # 10) (8 # 1) cv.Mat_default 2
    = cv.Returns corners ->
  pixel_velocity_loop (List.length new_features) 0 new_features status
    (_features t) (_delta_t t) ([], [], [])
    = Some (vels_x, vels_y, old_features) ->
  forallb (fun vx =>
             F32.doubling_is_exact height
               (std_tan (vx * _fov_v t / F32.of_int (_img_height t)
                         * _delta_t t)%f32)
               (_delta_t t)) vels_x = true ->
  forallb (fun vy =>
             F32.doubling_is_exact height
               (std_tan (vy * _fov_h t / F32.of_int (_img_width t)
                         * _delta_t t)%f32)
               (_delta_t t)) vels_y = true ->
  exists v_est_x v_est_y,
    fst (calculateRealVel img height t)
    = Ok (v_est_x, v_est_y, new_features, old_features, true) /\
    fst (calculateRealVel img (F32.two * height)%f32 t)
    = Ok (map (F32.mul F32.two) v_est_x, map (F32.mul F32.two) v_est_y,
          new_features, old_features, true).
Proof.
  intros Hlast Hgray Hlk Hn Hs Hdet Hloop Hx Hy.
  rewrite (pixel_velocity_loop_correct _ _ _ _ Hn Hs) in Hloop.
  injection Hloop as Evx Evy Eold.
  rewrite (calculateRealVel_tracking _ _ height _ _ _ _ _
             Hlast Hgray Hlk Hn Hs Hdet).
  rewrite (calculateRealVel_tracking _ _ (F32.two * height)%f32 _ _ _ _ _
             Hlast Hgray Hlk Hn Hs Hdet).
  cbn [fst]. rewrite Evx, Evy, Eold.
  eexists _, _. split; [reflexivity|].
  rewrite !map_map.
  rewrite forallb_forall in Hx, Hy.
  do 4 f_equal. f_equal.
  - apply map_ext_in. intros vx Hin. apply conversion_doubles. now apply Hx.
  - apply map_ext_in. intros vy Hin. apply conversion_doubles. now apply Hy.
Qed.

End HeightScaling.

Lemma height_doubling_witness :
  exists v_est_x v_est_y,
    fst (calculateRealVel (L := Scenario.library) Scenario.frameB
           (F32.of_int 2) Scenario.tracker1)
    = Ok (v_est_x, v_est_y, Scenario.nextB,
          [{| cv.x := F32.one; cv.y := F32.zero |}], true) /\
    fst (calculateRealVel (L := Scenario.library) Scenario.frameB
           (F32.two * F32.of_int 2)%f32 Scenario.tracker1)
    = Ok (map (F32.mul F32.two) v_est_x, map (F32.mul F32.two) v_est_y,
          Scenario.nextB, [{| cv.x := F32.one; cv.y := F32.zero |}], true).
Proof.
  apply (height_doubling (L := Scenario.library) Scenario.tracker1
           Scenario.frameB (F32.of_int 2) Scenario.frameB Scenario.nextB
           Scenario.statusB Scenario.errB Scenario.cornersB
           [(F32.one / Scenario.ratio 1 10)%f32]
           [(- F32.zero / Scenario.ratio 1 10)%f32]);
    vm_compute; reflexivity.
Defined.

(** * Further facts about the tracker *)

Lemma sub_self_zero a :
  is_finite_float a = true -> F32.is_zero (a - a)%f32 = true.
Proof.
  destruct a as [s|s| |s m e]; try discriminate; intros _.
  - destruct s; reflexivity.
  - unfold F32.sub, SFsub. rewrite Z.sub_diag. reflexivity.
Qed.

Lemma div_zero_finite a s m e :
  F32.is_zero a = true -> F32.is_zero (a / S754_finite s m e)%f32 = true.
Proof. destruct a; try discriminate; reflexivity. Qed.

Lemma neg_zero a : F32.is_zero a = true -> F32.is_zero (- a)%f32 = true.
Proof. destruct a; try discriminate; reflexivity. Qed.

Lemma mul_zero_finite a b :
  F32.is_zero a = true -> is_finite_float b = true ->
  F32.is_zero (a * b)%f32 = true.
Proof. destruct a, b; try discriminate; reflexivity. Qed.

Lemma mul_finite_zero a b :
  is_finite_float a = true -> F32.is_zero b = true ->
  F32.is_zero (a * b)%f32 = true.
Proof. destruct a, b; try discriminate; reflexivity. Qed.

Lemma binary_round_aux_number prec emax s p e l :
  0 < prec ->
  emin prec emax <= e ->
  is_nonzero_number (binary_round_aux prec emax s (Zpos p) e l).
Proof.
  intros Hprec He. unfold binary_round_aux.
  destruct (shr_fexp_positive prec emax Hprec p e l He) as [Hm1 He1].
  destruct (shr_fexp prec emax (Zpos p) e l) as [mrs1 e1]. cbn [fst snd] in *.
  pose proof (round_nearest_even_ge (shr_m mrs1) (loc_of_shr_record mrs1)) as Hr.
  destruct (round_nearest_even (shr_m mrs1) (loc_of_shr_record mrs1))
    as [|q|q] eqn:Hq; try lia.
  destruct (shr_fexp_positive prec emax Hprec q e1 loc_Exact He1) as [Hm2 He2].
  destruct (shr_fexp prec emax (Zpos q) e1 loc_Exact) as [mrs2 e2].
  cbn [fst snd] in *.
  destruct (shr_m mrs2); try lia.
  destruct (e2 <=? emax - prec); exact I.
Qed.

Lemma of_int_number z : z <> 0 -> is_nonzero_number (F32.of_int z).
Proof.
  intros Hz. unfold F32.of_int, binary_normalize.
  destruct z as [|p|p]; [congruence| |];
    unfold binary_round, shl_align;
    match goal with
    | |- context [fexp ?a ?b ?c - 0] =>
        assert (Hf : emin a b <= fexp a b c) by (unfold fexp; lia);
        destruct (fexp a b c - 0)
    end;
    apply binary_round_aux_number; try reflexivity; try exact Hf;
    vm_compute; congruence.
Qed.

Lemma div_zero_number a b :
  F32.is_zero a = true -> is_nonzero_number b ->
  F32.is_zero (a / b)%f32 = true.
Proof. destruct a, b; try discriminate; try contradiction; reflexivity. Qed.

Section ZeroMotion.

Context {L : Library}.

(** The conversion of a pixel velocity that is a zero gives a zero. *)
Lemma conversion_of_zero height v fov dim dt :
  tan_keeps_zero L ->
  F32.is_zero v = true ->
  is_finite_float height = true ->
  is_finite_float fov = true ->
  dim <> 0 ->
  (exists s m e, dt = S754_finite s m e) ->
  F32.is_zero
    (height * std_tan (v * fov / F32.of_int dim * dt) / dt)%f32 = true.
Proof.
  intros Htan Hv Hh Hfov Hdim (s & m & e & ->).
  apply div_zero_finite.
  apply mul_finite_zero; [exact Hh|].
  assert (Hang : F32.is_zero (v * fov / F32.of_int dim * S754_finite s m e)%f32
                 = true).
  { apply mul_zero_finite; [|reflexivity].
    apply div_zero_number; [|now apply of_int_number].
    now apply mul_zero_finite. }
  destruct (v * fov / F32.of_int dim * S754_finite s m e)%f32;
    try discriminate. apply Htan.
Qed.

End ZeroMotion.

Lemma div_by_zero a z :
  F32.is_zero z = true -> is_finite_float (a / z)%f32 = false.
Proof. destruct a, z; try discriminate; reflexivity. Qed.

Section FurtherTracker.

Context {L : Library}.

(** X4.  Features that did not move have velocity zero.  In the tracking
    branch, when every surviving feature is found where it was, with finite
    coordinates, and the height, the two fields of view and the time step
    are finite, the time step and the frame dimensions not zero, and the
    tangent of a zero is a zero, then every returned velocity is a zero. *)
Theorem zero_motion_zero_velocity t img height gray new_features status err
    corners :
  cv.empty (_last_im t) = false ->
  to_gray img = cv.Returns gray ->
  calcOpticalFlowPyrLK (_last_im t) gray (_features t)
    {| cv.width := 16; cv.height := 16 |} 2 _criteria
    = cv.Returns (new_features, status, err) ->
  List.length new_features = List.length (_features t) ->
  List.length status = List.length (_features t) ->
  goodFeaturesToTrack gray 1000 (1 # 10) (8 # 1) cv.Mat_default 2
    = cv.Returns corners ->
  tan_keeps_zero L ->
  Forall (fun on => snd on = fst on /\
                    is_finite_float (cv.x (fst on)) = true /\
                    is_finite_float (cv.y (fst on)) = true)
    (survivors (_features t) new_features status) ->
  is_finite_float height = true ->
  is_finite_float (_fov_h t) = true ->
  is_finite_float (_fov_v t) = true ->
  _img_width t <> 0 -> _img_height t <> 0 ->
  (exists s m e, _delta_t t = S754_finite s m e) ->
  exists v_est_x v_est_y old_features,
    fst (calculateRealVel img height t)
    = Ok (v_est_x, v_est_y, new_features, old_features, true) /\
    Forall (fun v => F32.is_zero v = true) v_est_x /\
    Forall (fun v => F32.is_zero v = true) v_est_y.
Proof.
  intros Hlast Hgray Hlk Hn Hs Hdet Htan Hstill Hh Hfh Hfv Hw Hhgt Hdt.
  rewrite (calculateRealVel_tracking _ _ height _ _ _ _ _
             Hlast Hgray Hlk Hn Hs Hdet).
  eexists _, _, _. split; [reflexivity|].
  destruct Hdt as (s & m & e & Edt).
  split; rewrite !Forall_map; eapply Forall_impl; try exact Hstill;
    intros [old new] (Heq & Hx & Hy); cbn [fst snd] in *; subst new.
  - apply conversion_of_zero; auto; [|rewrite Edt; eauto].
    rewrite Edt. apply div_zero_finite. now apply sub_self_zero.
  - apply conversion_of_zero; auto; [|rewrite Edt; eauto].
    rewrite Edt. apply div_zero_finite. apply neg_zero.
    now apply sub_self_zero.
Qed.

(** X5.  A time step of zero gives no usable velocity: in the tracking
    branch every returned velocity is then an infinity or NaN, one per
    surviving feature; the call itself returns. *)
Theorem zero_interval_no_finite_velocity t img height gray new_features status
    err corners :
  cv.empty (_last_im t) = false ->
  to_gray img = cv.Returns gray ->
  calcOpticalFlowPyrLK (_last_im t) gray (_features t)
    {| cv.width := 16; cv.height := 16 |} 2 _criteria
    = cv.Returns (new_features, status, err) ->
  List.length new_features = List.length (_features t) ->
  List.length status = List.length (_features t) ->
  goodFeaturesToTrack gray 1000 (1 # 10) (8 # 1) cv.Mat_default 2
    = cv.Returns corners ->
  F32.is_zero (_delta_t t) = true ->
  exists v_est_x v_est_y old_features,
    fst (calculateRealVel img height t)
    = Ok (v_est_x, v_est_y, new_features, old_features, true) /\
    Forall (fun v => is_finite_float v = false) v_est_x /\
    Forall (fun v => is_finite_float v = false) v_est_y.
Proof.
  intros Hlast Hgray Hlk Hn Hs Hdet Hdt.
  rewrite (calculateRealVel_tracking _ _ height _ _ _ _ _
             Hlast Hgray Hlk Hn Hs Hdet).
  eexists _, _, _. split; [reflexivity|].
  split; rewrite !Forall_map; apply Forall_forall; intros on _;
    now apply div_by_zero.
Qed.

(** X2.  After a call of [calculateRealVel] in which every library call
    returned, in either branch, [_features] holds the corners detected in
    the frame just given, and [_has_features] tells whether there are
    any. *)
Theorem has_features_tells_current_frame t img height gray corners :
  to_gray img = cv.Returns gray ->
  goodFeaturesToTrack gray 1000 (1 # 10) (8 # 1) cv.Mat_default 2
    = cv.Returns corners ->
  (cv.empty (_last_im t) = false ->
   exists new_features status err,
     calcOpticalFlowPyrLK (_last_im t) gray (_features t)
       {| cv.width := 16; cv.height := 16 |} 2 _criteria
       = cv.Returns (new_features, status, err) /\
     List.length new_features = List.length (_features t) /\
     List.length status = List.length (_features t)) ->
  fst (_has_features (snd (calculateRealVel img height t)))
  = Ok (negb (vector_empty corners)) /\
  _features (snd (calculateRealVel img height t)) = corners.
Proof.
  intros Hgray Hdet Htrack.
  destruct (cv.empty (_last_im t)) eqn:Hlast.
  - rewrite (calculateRealVel_unseeded _ _ height _ _ Hlast Hgray Hdet).
    destruct corners; split; reflexivity.
  - destruct (Htrack eq_refl) as (nfs & ss & err & Hlk & Hn & Hs).
    rewrite (calculateRealVel_tracking _ _ height _ _ _ _ _
               Hlast Hgray Hlk Hn Hs Hdet).
    split; reflexivity.
Qed.

(** X1.  The two fields of view never change after construction: in every
    reachable state they are [2 * atan(sensor size / (2 * focal length))]
    of the camera fields, which no member function writes. *)
Theorem fields_of_view_fixed t :
  reachable t ->
  _fov_h t = (F32.two * std_atan (_cmos_width t / (F32.two * _focal_length t)))%f32 /\
  _fov_v t = (F32.two * std_atan (_cmos_height t / (F32.two * _focal_length t)))%f32.
Proof.
  induction 1 as [method delta_t focal cmos_w cmos_h | t t' _ IH Hstep].
  - split; reflexivity.
  - assert (Hextract : forall img,
              let t' := snd (extractFeatures img t) in
              _fov_h t' = _fov_h t /\ _fov_v t' = _fov_v t /\
              _cmos_width t' = _cmos_width t /\
              _cmos_height t' = _cmos_height t /\
              _focal_length t' = _focal_length t).
    { intros img.
      destruct (extractFeatures_state img t)
        as [-> | [-> | (gray & corners & _ & _ & ->)]];
        try (repeat split; reflexivity).
      destruct corners; repeat split; reflexivity. }
    assert (Hsame : _fov_h t' = _fov_h t /\ _fov_v t' = _fov_v t /\
                    _cmos_width t' = _cmos_width t /\
                    _cmos_height t' = _cmos_height t /\
                    _focal_length t' = _focal_length t).
    { destruct Hstep as [t d | t img Hdef | t img height Hdef].
      - repeat split; reflexivity.
      - apply Hextract.
      - destruct (calculateRealVel_state img height t Hdef)
          as [[_ ->] | [_ [-> | [-> | [-> | (gray & corners & _ & _ & ->)]]]]];
          try (repeat split; reflexivity).
        apply Hextract. }
    destruct Hsame as (-> & -> & -> & -> & ->). exact IH.
Qed.

(** X3.  Once a reference frame is stored, [calculateRealVel] never writes
    [_img_width] or [_img_height], however the call ends and whatever the
    size of the new frame. *)
Theorem tracking_keeps_dimensions t img height :
  cv.empty (_last_im t) = false ->
  _img_width (snd (calculateRealVel img height t)) = _img_width t /\
  _img_height (snd (calculateRealVel img height t)) = _img_height t.
Proof.
  intros Hlast. run_member. rewrite Hlast.
  cbn [_last_im _features set_features set_debug_count].
  split_outcomes; split; reflexivity.
Qed.

End FurtherTracker.


(** * The image conversion and the output loops *)

Lemma compare_cont_antisym p q c :
  Pos.compare_cont c q p = CompOpp (Pos.compare_cont (CompOpp c) p q).
Proof. rewrite Pos.compare_cont_antisym. now rewrite CompOpp_involutive. Qed.

Lemma SFcompare_antisym x y :
  SFcompare y x
  = match SFcompare x y with Some c => Some (CompOpp c) | None => None end.
Proof.
  destruct x as [sx|sx| |sx mx ex], y as [sy|sy| |sy my ey];
    try reflexivity;
    try (destruct sx; reflexivity); try (destruct sy; reflexivity);
    try (destruct sx, sy; reflexivity).
  cbn [SFcompare].
  destruct sx, sy; try reflexivity; f_equal;
    rewrite (Z.compare_antisym ex ey);
    destruct (ex ?= ey); cbn [CompOpp]; try reflexivity;
    rewrite (compare_cont_antisym mx my Eq); cbn [CompOpp];
    try reflexivity; now rewrite CompOpp_involutive.
Qed.

Lemma SFleb_refl x : F64.is_nan x = false -> SFleb x x = true.
Proof.
  destruct x as [s|s| |s m e]; try discriminate; intros _;
    try (destruct s; reflexivity).
  unfold SFleb, SFcompare. rewrite Z.compare_refl, Pos.compare_cont_refl.
  destruct s; reflexivity.
Qed.

Lemma SFltb_false_leb x y :
  F64.is_nan x = false -> F64.is_nan y = false ->
  SFltb x y = false -> SFleb y x = true.
Proof.
  intros Hx Hy. unfold SFltb, SFleb. rewrite (SFcompare_antisym x y).
  destruct (SFcompare x y) as [[| |]|] eqn:Hc; try discriminate;
    try reflexivity.
  destruct x, y; try discriminate; cbn in Hc;
    try discriminate;
    repeat match goal with s : bool |- _ => destruct s end; discriminate.
Qed.

(** X6.  [clamp] keeps a number that is not NaN between its bounds: for
    bounds [minVal <= maxVal], themselves not NaN, the result is at least
    [minVal] and at most [maxVal]. *)
Theorem clamp_between value minVal maxVal :
  F64.is_nan value = false ->
  F64.is_nan minVal = false -> F64.is_nan maxVal = false ->
  SFleb minVal maxVal = true ->
  SFleb minVal (clamp value minVal maxVal) = true /\
  SFleb (clamp value minVal maxVal) maxVal = true.
Proof.
  intros Hv Hlo Hhi Hle. unfold clamp.
  destruct (SFltb value minVal) eqn:E1.
  - split; [now apply SFleb_refl | exact Hle].
  - destruct (SFltb maxVal value) eqn:E2.
    + split; [exact Hle | now apply SFleb_refl].
    + split; now apply SFltb_false_leb.
Qed.

Section Shape.

Variables prec emax : Z.
Hypothesis prec_pos : 0 < prec.

(** The first shift of a rounding leaves a mantissa below [2^prec]. *)
Lemma shr_fexp_bounded m e l :
  0 <= m ->
  0 <= shr_m (fst (shr_fexp prec emax m e l)) < 2 ^ prec.
Proof.
  intros Hm. unfold shr_fexp, shr, fexp.
  assert (Hd : m < 2 ^ Zdigits2 m /\ 0 <= Zdigits2 m).
  { destruct m as [|p|p]; cbn [Zdigits2]; [cbn; lia| |lia].
    split; [apply digits2_pos_upper | lia]. }
  destruct Hd as [Hd Hd0].
  assert (Hpp : 0 < 2 ^ prec) by (apply Z.pow_pos_nonneg; lia).
  destruct (Z.max (Zdigits2 m + e - prec) (emin prec emax) - e)
    as [|n|n] eqn:Hn; cbn [fst].
  - rewrite shr_record_of_loc_m. split; [lia|].
    assert (2 ^ Zdigits2 m <= 2 ^ prec) by (apply Z.pow_le_mono_r; lia).
    lia.
  - rewrite iter_pos_shr_1_m by (rewrite shr_record_of_loc_m; lia).
    rewrite shr_record_of_loc_m.
    assert (Hpn : 0 < 2 ^ Zpos n) by (apply Z.pow_pos_nonneg; lia).
    split; [apply Z.div_pos; lia|].
    apply Z.div_lt_upper_bound; [lia|].
    rewrite <- Z.pow_add_r by lia.
    assert (2 ^ Zdigits2 m <= 2 ^ (Zpos n + prec))
      by (apply Z.pow_le_mono_r; lia).
    lia.
  - rewrite shr_record_of_loc_m. split; [lia|].
    assert (2 ^ Zdigits2 m <= 2 ^ prec) by (apply Z.pow_le_mono_r; lia).
    lia.
Qed.

Lemma binary_round_aux_shape s p e l :
  rounded_shape prec s (binary_round_aux prec emax s (Zpos p) e l).
Proof.
  unfold binary_round_aux.
  pose proof (shr_fexp_bounded (Zpos p) e l ltac:(lia)) as [H1 _].
  destruct (shr_fexp prec emax (Zpos p) e l) as [mrs1 e1]. cbn [fst] in H1.
  pose proof (round_nearest_even_ge (shr_m mrs1) (loc_of_shr_record mrs1)) as Hr.
  pose proof (shr_fexp_bounded
                (round_nearest_even (shr_m mrs1) (loc_of_shr_record mrs1))
                e1 loc_Exact ltac:(lia)) as H2.
  destruct (shr_fexp prec emax _ e1 loc_Exact) as [mrs2 e2]. cbn [fst] in H2.
  destruct (shr_m mrs2) as [|q|q]; cbn [rounded_shape]; try lia;
    [reflexivity|].
  destruct (e2 <=? emax - prec); cbn [rounded_shape]; [split; [reflexivity|lia]
                                                      | reflexivity].
Qed.

End Shape.

(** A sample that is not NaN becomes a byte. *)
Lemma pixel_in_range x :
  F64.is_nan x = false ->
  exists v, pixel_of x = Some v /\ 0 <= v <= 255.
Proof.
  intros Hx. unfold pixel_of.
  assert (Hp : match F64.mul x F64.c255 with
               | S754_finite false m _ => Zpos m < 2 ^ 53
               | S754_nan => False
               | _ => True
               end).
  { destruct x as [s|s| |s m e]; try discriminate; try exact I.
    pose proof (binary_round_aux_shape F64.prec F64.emax eq_refl
                  (xorb s false) (m * 8972014882652160) (e + -45) loc_Exact)
      as Hs.
    unfold F64.mul, F64.c255, SFmul.
    destruct (binary_round_aux F64.prec F64.emax _ _ _ _)
      as [s'|s'| |s' m' e'];
      cbn [rounded_shape] in Hs; auto.
    destruct s'; [exact I | tauto]. }
  destruct (F64.mul x F64.c255) as [s|s| |s m e]; try contradiction.
  - exists 0. split; [reflexivity | lia].
  - destruct s; [exists 0 | exists 255]; split; try reflexivity; lia.
  - destruct s.
    + exists 0. split; [reflexivity | lia].
    + unfold clamp.
      change (SFltb (S754_finite false m e) F64.zero) with false.
      cbv iota. unfold SFltb, F64.c255, SFcompare.
      destruct (Z.compare_spec (-45) e) as [He|He|He].
      * destruct (Pos.compare_cont Eq 8972014882652160 m) eqn:Hc.
        -- apply Pos.compare_eq in Hc. subst. exists 255.
           split; [reflexivity | lia].
        -- exists 255. split; [reflexivity | lia].
        -- assert (Hm : Zpos m < 8972014882652160)
             by (apply Pos2Z.pos_lt_pos, Pos.gt_lt; exact Hc).
           subst e. unfold to_uchar, truncate. cbn [cond_Zopp].
           assert (Hq : 0 <= Zpos m / 2 ^ 45 <= 255).
           { split; [apply Z.div_pos; lia|].
             apply Z.lt_succ_r. apply Z.div_lt_upper_bound; lia. }
           exists (Zpos m / 2 ^ 45).
           destruct (0 <=? Zpos m / 2 ^ 45) eqn:E1;
             destruct (Zpos m / 2 ^ 45 <=? 255) eqn:E2; cbn [andb];
             try (split; [reflexivity | lia]); lia.
      * exists 255. split; [reflexivity | lia].
      * unfold to_uchar, truncate. cbn [cond_Zopp].
        destruct e as [|pe|pe]; try lia.
        assert (Hpe : 46 <= Zpos pe) by lia.
        assert (Hq : 0 <= Zpos m / 2 ^ Zpos pe <= 255).
        { assert (0 < 2 ^ Zpos pe) by (apply Z.pow_pos_nonneg; lia).
          split; [apply Z.div_pos; lia|].
          apply Z.lt_succ_r. apply Z.div_lt_upper_bound; [lia|].
          assert (2 ^ 46 <= 2 ^ Zpos pe) by (apply Z.pow_le_mono_r; lia).
          nia. }
        exists (Zpos m / 2 ^ Zpos pe).
        destruct (0 <=? Zpos m / 2 ^ Zpos pe) eqn:E1;
          destruct (Zpos m / 2 ^ Zpos pe <=? 255) eqn:E2; cbn [andb];
          try (split; [reflexivity | lia]); lia.
Qed.

Lemma store_in_range {A} (l : list A) : forall k v,
  (k < List.length l)%nat ->
  exists l', store k v l = Some l' /\
             List.length l' = List.length l /\
             forall j, nth_error l' j
                       = if Nat.eqb j k then Some v else nth_error l j.
Proof.
  induction l as [|a l IH]; intros k v Hk; [cbn in Hk; lia|].
  destruct k as [|k]; cbn [store].
  - eexists. split; [reflexivity|]. split; [reflexivity|].
    intros [|j]; reflexivity.
  - destruct (IH k v) as (l' & -> & Hlen & Hnth); [cbn in Hk; lia|].
    eexists. split; [reflexivity|]. split; [cbn; lia|].
    intros [|j]; [reflexivity|]. cbn [nth_error Nat.eqb]. apply Hnth.
Qed.

Lemma store_out_of_range {A} (l : list A) : forall k v,
  (List.length l <= k)%nat -> store k v l = None.
Proof.
  induction l as [|a l IH]; intros k v Hk; [destruct k; reflexivity|].
  destruct k as [|k]; cbn in *; [lia|]. rewrite IH by lia. reflexivity.
Qed.

Section Fill.

Variables (H W : nat) (input_image : list double).

Hypothesis input_ok : forall r c,
  (r < H)%nat -> (c < W)%nat ->
  exists x, nth_error input_image (r + c * H) = Some x /\
            F64.is_nan x = false.

Lemma fill_columns_spec r : (r < H)%nat -> forall n c image,
  (c + n = W)%nat ->
  Z.to_nat (cv.cols image) = W ->
  List.length (cv.data image) = (H * W)%nat ->
  exists image',
    fill_columns n c r H input_image image = Some image' /\
    same_header image' image /\
    forall k,
      nth_error (cv.data image') k
      = if (r * W + c <=? k)%nat && (k <? r * W + c + n)%nat
        then match nth_error input_image (r + (k - r * W) * H) with
             | Some x => pixel_of x
             | None => None
             end
        else nth_error (cv.data image) k.
Proof.
  intros Hr. induction n as [|n IH]; intros c image Hc Hcols Hlen.
  - exists image. split; [reflexivity|]. split; [repeat split|].
    intros k. destruct (r * W + c <=? k)%nat eqn:E1; [|reflexivity].
    destruct (k <? r * W + c + 0)%nat eqn:E2; [|reflexivity].
    apply Nat.leb_le in E1. apply Nat.ltb_lt in E2. lia.
  - cbn [fill_columns].
    destruct (input_ok r c Hr ltac:(lia)) as (x & Hx & Hnan).
    rewrite Hx.
    destruct (pixel_in_range x Hnan) as (px & Hpx & _). rewrite Hpx.
    unfold Mat_at_put. rewrite Hcols.
    assert (Hk : (r * W + c < List.length (cv.data image))%nat)
      by (rewrite Hlen; nia).
    destruct (store_in_range (cv.data image) _ px Hk) as (d & -> & Hdlen & Hd).
    destruct (IH (S c) (set_data d image)) as (image' & -> & Hhead & Hnth);
      [lia | exact Hcols | cbn; lia |].
    exists image'. split; [reflexivity|].
    split.
    { destruct Hhead as (H1 & H2 & H3 & H4). cbn in *.
      repeat split; auto. lia. }
    intros k. rewrite Hnth. cbn [cv.data set_data]. rewrite Hd.
    destruct (Nat.eqb_spec k (r * W + c)) as [->|Hne].
    + replace (r * W + c - r * W)%nat with c by lia. rewrite Hx, Hpx.
      replace (r * W + S c <=? r * W + c)%nat with false
        by (symmetry; apply Nat.leb_gt; lia).
      replace (r * W + c <=? r * W + c)%nat with true
        by (symmetry; apply Nat.leb_le; lia).
      replace (r * W + c <? r * W + c + S n)%nat with true
        by (symmetry; apply Nat.ltb_lt; lia).
      reflexivity.
    + destruct (r * W + S c <=? k)%nat eqn:E1;
        destruct (k <? r * W + S c + n)%nat eqn:E2;
        destruct (r * W + c <=? k)%nat eqn:E3;
        destruct (k <? r * W + c + S n)%nat eqn:E4;
        cbn [andb]; try reflexivity;
        repeat match goal with
          | E : (_ <=? _)%nat = true |- _ => apply Nat.leb_le in E
          | E : (_ <=? _)%nat = false |- _ => apply Nat.leb_gt in E
          | E : (_ <? _)%nat = true |- _ => apply Nat.ltb_lt in E
          | E : (_ <? _)%nat = false |- _ => apply Nat.ltb_ge in E
          end; lia.
Qed.

Lemma fill_rows_spec : forall n r image,
  (r + n = H)%nat ->
  Z.to_nat (cv.cols image) = W ->
  List.length (cv.data image) = (H * W)%nat ->
  exists image',
    fill_rows n r H W input_image image = Some image' /\
    same_header image' image /\
    forall k,
      nth_error (cv.data image') k
      = if (r * W <=? k)%nat && (k <? (r + n) * W)%nat
        then pixel_from input_image H W k
        else nth_error (cv.data image) k.
Proof.
  induction n as [|n IH]; intros r image Hr Hcols Hlen.
  - exists image. split; [reflexivity|]. split; [repeat split|].
    intros k. destruct (r * W <=? k)%nat eqn:E1; [|reflexivity].
    destruct (k <? (r + 0) * W)%nat eqn:E2; [|reflexivity].
    apply Nat.leb_le in E1. apply Nat.ltb_lt in E2. nia.
  - cbn [fill_rows].
    destruct (fill_columns_spec r ltac:(lia) W 0%nat image)
      as (image1 & -> & Hhead1 & Hnth1); auto.
    destruct Hhead1 as (H1 & H2 & H3 & H4).
    destruct (IH (S r) image1) as (image' & -> & Hhead & Hnth);
      [lia | rewrite H2; exact Hcols | lia |].
    exists image'. split; [reflexivity|].
    split.
    { destruct Hhead as (G1 & G2 & G3 & G4).
      repeat split; congruence. }
    intros k. rewrite Hnth, Hnth1.
    replace (r * W + 0)%nat with (r * W)%nat by lia.
    replace (r * W + W)%nat with (S r * W)%nat by lia.
    replace ((r + S n) * W)%nat with ((S r + n) * W)%nat by (f_equal; lia).
    destruct (S r * W <=? k)%nat eqn:E1;
      destruct (k <? (S r + n) * W)%nat eqn:E2;
      destruct (r * W <=? k)%nat eqn:E3;
      destruct (k <? S r * W)%nat eqn:E4;
      cbn [andb]; try reflexivity;
      repeat match goal with
        | E : (_ <=? _)%nat = true |- _ => apply Nat.leb_le in E
        | E : (_ <=? _)%nat = false |- _ => apply Nat.leb_gt in E
        | E : (_ <? _)%nat = true |- _ => apply Nat.ltb_lt in E
        | E : (_ <? _)%nat = false |- _ => apply Nat.ltb_ge in E
        end; try nia.
    (* the row just written *)
    unfold pixel_from.
    assert (HW : (0 < W)%nat) by nia.
    assert (Hdiv : (k / W = r)%nat).
    { symmetry. apply (Nat.div_unique k W r (k - r * W)); lia. }
    assert (Hmod : (k mod W = k - r * W)%nat).
    { symmetry. apply (Nat.mod_unique k W r (k - r * W)); lia. }
    now rewrite Hdiv, Hmod.
Qed.

End Fill.

(** The conversion loops fill the whole buffer, whatever it held: pixel
    [(r, c)] is made from the sample [r + c * height]. *)
Lemma fill_image_transposes height width input_image image :
  cv.cols image = width ->
  List.length (cv.data image) = (Z.to_nat height * Z.to_nat width)%nat ->
  (forall r c,
     (r < Z.to_nat height)%nat -> (c < Z.to_nat width)%nat ->
     exists x, nth_error input_image (r + c * Z.to_nat height) = Some x /\
               F64.is_nan x = false) ->
  exists image',
    fill_image height width input_image image = Some image' /\
    same_header image' image /\
    (forall r c,
       (r < Z.to_nat height)%nat -> (c < Z.to_nat width)%nat ->
       exists x,
         nth_error input_image (r + c * Z.to_nat height) = Some x /\
         nth_error (cv.data image') (r * Z.to_nat width + c) = pixel_of x) /\
    (forall other,
       same_header other image ->
       fill_image height width input_image other = Some image').
Proof.
  intros Hcols Hlen Hin. unfold fill_image.
  set (H := Z.to_nat height) in *. set (W := Z.to_nat width) in *.
  destruct (fill_rows_spec H W input_image Hin H 0%nat image)
    as (image' & Hfill & Hhead & Hnth);
    [lia | now rewrite Hcols | exact Hlen |].
  exists image'. split; [exact Hfill|]. split; [exact Hhead|]. split.
  - intros r c Hr Hc. destruct (Hin r c Hr Hc) as (x & Hx & Hnan).
    exists x. split; [exact Hx|]. rewrite Hnth.
    replace (0 * W <=? r * W + c)%nat with true
      by (symmetry; apply Nat.leb_le; lia).
    replace (r * W + c <? (0 + H) * W)%nat with true
      by (symmetry; apply Nat.ltb_lt; nia).
    cbn [andb]. unfold pixel_from.
    assert (Hdiv : ((r * W + c) / W = r)%nat)
      by (symmetry; apply (Nat.div_unique _ W r c); lia).
    assert (Hmod : ((r * W + c) mod W = c)%nat)
      by (symmetry; apply (Nat.mod_unique _ W r c); lia).
    now rewrite Hdiv, Hmod, Hx.
  - intros other (G1 & G2 & G3 & G4).
    destruct (fill_rows_spec H W input_image Hin H 0%nat other)
      as (other' & Hfill' & Hhead' & Hnth');
      [lia | now rewrite G2, Hcols | lia |].
    rewrite Hfill'. f_equal.
    destruct Hhead as (A1 & A2 & A3 & A4).
    destruct Hhead' as (B1 & B2 & B3 & B4).
    assert (Hdata : cv.data other' = cv.data image').
    { apply nth_error_ext. intros k. rewrite Hnth, Hnth'.
      destruct ((0 * W <=? k)%nat && (k <? (0 + H) * W)%nat) eqn:E;
        [reflexivity|].
      assert (Hk : (H * W <= k)%nat).
      { destruct (0 * W <=? k)%nat eqn:E1; cbn [andb] in E.
        - apply Nat.ltb_ge in E. lia.
        - apply Nat.leb_gt in E1. lia. }
      transitivity (@None Z); [|symmetry];
        apply nth_error_None; lia. }
    destruct other' as [r1 c1 ch1 d1], image' as [r2 c2 ch2 d2].
    cbn in *. congruence.
Qed.

Lemma index_of_cell R j rho k :
  (rho < R)%nat ->
  (k = rho + j * R)%nat <-> (k / R = j /\ k mod R = rho)%nat.
Proof.
  intros Hrho. split.
  - intros ->. split.
    + symmetry. apply (Nat.div_unique _ R j rho); lia.
    + symmetry. apply (Nat.mod_unique _ R j rho); lia.
  - intros [<- <-]. pose proof (Nat.div_mod_eq k R). lia.
Qed.

Lemma write_pair_spec R C i (a b : double) out :
  (2 <= R)%nat -> (i < C)%nat -> List.length out = (R * C)%nat ->
  exists out1 out2,
    store (0 + i * R) a out = Some out1 /\
    store (1 + i * R) b out1 = Some out2 /\
    List.length out2 = List.length out /\
    forall k, nth_error out2 k
              = columns_written R i 1 (fun _ => (a, b)) out k.
Proof.
  intros HR Hi Hlen.
  assert (Hk0 : (0 + i * R < List.length out)%nat) by (rewrite Hlen; nia).
  destruct (store_in_range out _ a Hk0) as (out1 & E1 & L1 & N1).
  assert (Hk1 : (1 + i * R < List.length out1)%nat) by (rewrite L1, Hlen; nia).
  destruct (store_in_range out1 _ b Hk1) as (out2 & E2 & L2 & N2).
  exists out1, out2. repeat split; auto; [lia|].
  intros k. rewrite N2, N1. unfold columns_written. cbn [fst snd].
  pose proof (index_of_cell R i 0 k ltac:(lia)) as I0.
  pose proof (index_of_cell R i 1 k ltac:(lia)) as I1.
  destruct (Nat.eqb_spec k (1 + i * R)) as [E|E].
  - apply I1 in E as [-> ->].
    replace (i <=? i)%nat with true by (symmetry; apply Nat.leb_le; lia).
    replace (i <? i + 1)%nat with true by (symmetry; apply Nat.ltb_lt; lia).
    reflexivity.
  - destruct (Nat.eqb_spec k (0 + i * R)) as [E'|E'].
    + apply I0 in E' as [-> ->].
      replace (i <=? i)%nat with true by (symmetry; apply Nat.leb_le; lia).
      replace (i <? i + 1)%nat with true by (symmetry; apply Nat.ltb_lt; lia).
      reflexivity.
    + destruct (i <=? k / R)%nat eqn:A1; cbn [andb]; [|reflexivity].
      destruct (k / R <? i + 1)%nat eqn:A2; cbn [andb]; [|reflexivity].
      destruct (k mod R <? 2)%nat eqn:A3; [|reflexivity].
      apply Nat.leb_le in A1. apply Nat.ltb_lt in A2, A3.
      exfalso.
      destruct (Nat.eq_dec (k mod R) 0) as [Z0|NZ].
      * apply E'. apply I0. split; lia.
      * apply E. apply I1. split; lia.
Qed.

Lemma columns_written_step R i n col before mid k :
  (forall k', nth_error mid k'
              = columns_written R i 1 (fun _ => col i) before k') ->
  columns_written R (S i) n col mid k
  = columns_written R i (S n) col before k.
Proof.
  intros Hmid. unfold columns_written at 1 2. rewrite Hmid.
  unfold columns_written.
  destruct (S i <=? k / R)%nat eqn:A1;
    destruct (k / R <? S i + n)%nat eqn:A2;
    destruct (i <=? k / R)%nat eqn:A3;
    destruct (k / R <? i + S n)%nat eqn:A4;
    destruct (k / R <? i + 1)%nat eqn:A5;
    destruct (k mod R <? 2)%nat eqn:A6;
    cbn [andb]; try reflexivity;
    repeat match goal with
      | E : (_ <=? _)%nat = true |- _ => apply Nat.leb_le in E
      | E : (_ <=? _)%nat = false |- _ => apply Nat.leb_gt in E
      | E : (_ <? _)%nat = true |- _ => apply Nat.ltb_lt in E
      | E : (_ <? _)%nat = false |- _ => apply Nat.ltb_ge in E
      end; try lia.
  replace (k / R)%nat with i by lia. reflexivity.
Qed.

Lemma columns_written_none R i col before k :
  columns_written R i 0 col before k = nth_error before k.
Proof.
  unfold columns_written.
  destruct (i <=? k / R)%nat eqn:A1; cbn [andb]; [|reflexivity].
  destruct (k / R <? i + 0)%nat eqn:A2; cbn [andb]; [|reflexivity].
  apply Nat.leb_le in A1. apply Nat.ltb_lt in A2. lia.
Qed.

Section Outputs.

Variables (R C : nat) (vel_x vel_y : list float).
Hypothesis two_rows : (2 <= R)%nat.

Lemma write_velocities_spec : forall n i out,
  (i + n <= C)%nat ->
  (i + n <= List.length vel_x)%nat -> (i + n <= List.length vel_y)%nat ->
  List.length out = (R * C)%nat ->
  exists out',
    write_velocities n i R vel_x vel_y out = Some out' /\
    List.length out' = List.length out /\
    forall k, nth_error out' k
              = columns_written R i n (velocity_column vel_x vel_y) out k.
Proof.
  induction n as [|n IH]; intros i out Hc Hx Hy Hlen.
  - exists out. repeat split. intros k. now rewrite columns_written_none.
  - cbn [write_velocities].
    destruct (nth_error vel_x i) as [vx|] eqn:Ex;
      [|apply nth_error_None in Ex; lia].
    destruct (nth_error vel_y i) as [vy|] eqn:Ey;
      [|apply nth_error_None in Ey; lia].
    destruct (write_pair_spec R C i (F64.of_float vx) (F64.of_float vy) out)
      as (out1 & out2 & -> & -> & L2 & N2); auto; [lia|].
    destruct (IH (S i) out2) as (out' & -> & L' & N'); try lia.
    exists out'. repeat split; [lia|].
    intros k. rewrite N'. apply columns_written_step.
    intros k'. rewrite N2. unfold velocity_column.
    now rewrite (nth_error_nth _ _ _ Ex), (nth_error_nth _ _ _ Ey).
Qed.

Lemma write_zeros_spec : forall n i out,
  (i + n <= C)%nat ->
  List.length out = (R * C)%nat ->
  exists out',
    write_zeros n i R out = Some out' /\
    List.length out' = List.length out /\
    forall k, nth_error out' k
              = columns_written R i n (fun _ => (F64.zero, F64.zero)) out k.
Proof.
  induction n as [|n IH]; intros i out Hc Hlen.
  - exists out. repeat split. intros k. now rewrite columns_written_none.
  - cbn [write_zeros].
    destruct (write_pair_spec R C i F64.zero F64.zero out)
      as (out1 & out2 & -> & -> & L2 & N2); auto; [lia|].
    destruct (IH (S i) out2) as (out' & -> & L' & N'); try lia.
    exists out'. repeat split; [lia|].
    intros k. rewrite N'. apply columns_written_step. exact N2.
Qed.

End Outputs.

(** The cell [(row, j)] of the output signal after the two loops. *)
Lemma write_outputs_spec num_rows num_cols vel_x vel_y out :
  2 <= num_rows -> 0 <= num_cols ->
  List.length out = (Z.to_nat num_rows * Z.to_nat num_cols)%nat ->
  (Z.to_nat (Z.min (Z.of_nat (List.length vel_x)) num_cols)
   <= List.length vel_y)%nat ->
  let valid_features := Z.min (Z.of_nat (List.length vel_x)) num_cols in
  exists out',
    write_outputs valid_features num_rows num_cols vel_x vel_y out = Some out' /\
    List.length out' = List.length out /\
    forall j row,
      (j < Z.to_nat num_cols)%nat -> (row < Z.to_nat num_rows)%nat ->
      nth_error out' (row + j * Z.to_nat num_rows)
      = match row with
        | O => Some (if (j <? Z.to_nat valid_features)%nat
                     then F64.of_float (nth j vel_x F32.zero)
                     else F64.zero)
        | S O => Some (if (j <? Z.to_nat valid_features)%nat
                       then F64.of_float (nth j vel_y F32.zero)
                       else F64.zero)
        | _ => nth_error out (row + j * Z.to_nat num_rows)
        end.
Proof.
  intros HR HC Hlen Hy valid_features. unfold write_outputs.
  set (R := Z.to_nat num_rows) in *. set (C := Z.to_nat num_cols) in *.
  set (V := Z.to_nat valid_features) in *.
  assert (HV : (V <= C)%nat /\ (V <= List.length vel_x)%nat)
    by (unfold V, C, valid_features; lia).
  destruct HV as [HVC HVx].
  assert (HR2 : (2 <= R)%nat) by (unfold R; lia).
  destruct (write_velocities_spec R C vel_x vel_y HR2 V 0%nat out)
    as (out1 & -> & L1 & N1); try lia.
  replace (Z.to_nat (num_cols - valid_features)) with (C - V)%nat
    by (unfold C, V, valid_features; lia).
  destruct (write_zeros_spec R C HR2 (C - V)%nat V out1)
    as (out' & -> & L' & N'); try lia.
  exists out'. repeat split; [lia|].
  intros j row Hj Hrow. rewrite N'. unfold columns_written at 1.
  rewrite N1. unfold columns_written.
  destruct (index_of_cell R j row (row + j * R)%nat Hrow) as [Hcell _].
  destruct (Hcell eq_refl) as [-> ->]. cbn [fst snd].
  unfold velocity_column. cbn [fst snd].
  replace (0 + V)%nat with V by lia.
  replace (V + (C - V))%nat with C by lia.
  replace (j <? C)%nat with true by (symmetry; apply Nat.ltb_lt; lia).
  destruct (Nat.ltb_spec j V) as [Hlt|Hge].
  - replace (V <=? j)%nat with false by (symmetry; apply Nat.leb_gt; lia).
    cbn [andb]. destruct row as [|[|row]]; reflexivity.
  - replace (V <=? j)%nat with true by (symmetry; apply Nat.leb_le; lia).
    cbn [andb]. destruct row as [|[|row]]; reflexivity.
Qed.


(** * The block *)

Section ResultLengths.

Context {L : Library}.

(** The velocity vectors of a returning call are parallel and no longer than
    the feature vector the call started with. *)
Lemma calculateRealVel_result_lengths img height t vx vy nf olds b :
  lk_tracks_every_point L ->
  fst (calculateRealVel img height t) = Ok (vx, vy, nf, olds, b) ->
  List.length vy = List.length vx /\
  (List.length vx <= List.length (_features t))%nat.
Proof.
  intros Hlk.
  destruct (cv.empty (_last_im t)) eqn:Hlast.
  - unfold calculateRealVel, bind, this, ret. rewrite Hlast.
    destruct (extractFeatures img t) as [[| |] t']; cbn [fst];
      intros H; try discriminate.
    injection H as <- <- _ _ _. cbn. split; [reflexivity | lia].
  - destruct (to_gray img) as [gray|e] eqn:Hgray;
      [|unfold calculateRealVel, bind, this, call; rewrite Hlast, Hgray;
        discriminate].
    destruct (calcOpticalFlowPyrLK (_last_im t) gray (_features t)
                {| cv.width := 16; cv.height := 16 |} 2 _criteria)
      as [[[nfs ss] err] | e] eqn:Htrack;
      [|unfold calculateRealVel, bind, this, call, modify;
        rewrite Hlast, Hgray; cbn [_last_im _features set_debug_count];
        rewrite Htrack; discriminate].
    destruct (Hlk _ _ _ _ _ _ _ _ _ Htrack) as [Hn Hs].
    destruct (goodFeaturesToTrack gray 1000 (1 # 10) (8 # 1) cv.Mat_default 2)
      as [corners|e] eqn:Hdet.
    + destruct (tracking_result_lengths t img height gray nfs ss err corners
                  Hlast Hgray Htrack Hn Hs Hdet)
        as (vx' & vy' & olds' & Hres & _ & Hy & _ & Hx & _).
      rewrite Hres. intros H. injection H as <- <- _ _ _. auto.
    + unfold calculateRealVel, detect_into_features, bind, this, call,
        indexing, modify.
      rewrite Hlast, Hgray. cbn [_last_im _features _delta_t set_debug_count].
      rewrite Htrack, (pixel_velocity_loop_correct _ _ _ _ Hn Hs).
      cbv beta iota. rewrite Hdet. discriminate.
Qed.

(** Without a reference frame the call reads no vector at all, and what it
    returns is empty. *)
Lemma calculateRealVel_unseeded_outcome img height t :
  cv.empty (_last_im t) = true ->
  fst (calculateRealVel img height t) <> Undefined /\
  forall vx vy nf olds b,
    fst (calculateRealVel img height t) = Ok (vx, vy, nf, olds, b) ->
    vx = [] /\ vy = [].
Proof.
  intros Hlast.
  pose proof (extractFeatures_defined img t) as Hdef.
  unfold calculateRealVel, bind, this, ret. rewrite Hlast.
  destruct (extractFeatures img t) as [[| |] t']; cbn [fst] in *;
    (split; [congruence|]); intros vx vy nf olds b H; try discriminate.
  injection H as <- <- _ _ _. auto.
Qed.

End ResultLengths.

Section BlockFacts.

Context {L : Library}.

Lemma try_calculateRealVel_returns image t :
  lk_tracks_every_point L \/ cv.empty (_last_im t) = true ->
  exists step,
    try_calculateRealVel image t
    = (Ok step, snd (calculateRealVel image F32.one t)) /\
    List.length (vel_y step) = List.length (vel_x step) /\
    (List.length (vel_x step) <= List.length (_features t))%nat /\
    match fst (calculateRealVel image F32.one t) with
    | Ok (vx, vy, _, _, _) =>
        step = {| vel_x := vx; vel_y := vy; ssWarning := None |}
    | Throw e =>
        step = {| vel_x := []; vel_y := []; ssWarning := Some (cv.what e) |}
    | Undefined => False
    end.
Proof.
  intros Hcase. unfold try_calculateRealVel.
  assert (Hdef : fst (calculateRealVel image F32.one t) <> Undefined).
  { destruct Hcase as [Hlk|Hlast];
      [now apply calculateRealVel_defined
      | now apply calculateRealVel_unseeded_outcome]. }
  assert (Hlen : forall vx vy nf olds b,
            fst (calculateRealVel image F32.one t) = Ok (vx, vy, nf, olds, b) ->
            List.length vy = List.length vx /\
            (List.length vx <= List.length (_features t))%nat).
  { intros vx vy nf olds b Hres. destruct Hcase as [Hlk|Hlast].
    - exact (calculateRealVel_result_lengths image F32.one t vx vy nf olds b
               Hlk Hres).
    - destruct (calculateRealVel_unseeded_outcome image F32.one t Hlast)
        as [_ Hemp].
      destruct (Hemp vx vy nf olds b Hres) as [-> ->]. cbn. split; lia. }
  destruct (calculateRealVel image F32.one t)
    as [[[[[[vx vy] nf] olds] b] | e | ] t'] eqn:Hcall; cbn [fst snd] in *.
  - destruct (Hlen vx vy nf olds b eq_refl) as [Hy Hx].
    eexists. split; [reflexivity|]. cbn. auto.
  - eexists. split; [reflexivity|]. cbn. repeat split; lia.
  - congruence.
Qed.

Lemma to_gray_single_channel image :
  cv.channels image = 1 -> to_gray image = cv.Returns image.
Proof. intros H. unfold to_gray. now rewrite H. Qed.

Lemma frame_matches_step p t image height :
  frame_matches p t ->
  cv.rows image = Block.height p -> cv.cols image = Block.width p ->
  cv.channels image = 1 ->
  fst (calculateRealVel image height t) <> Undefined ->
  frame_matches p (snd (calculateRealVel image height t)).
Proof.
  intros Hframe Hrows Hcols Hch Hdef.
  pose proof (to_gray_single_channel image Hch) as Hgray.
  assert (Hextract : frame_matches p (snd (extractFeatures image t))).
  { destruct (extractFeatures_state image t)
      as [-> | [-> | (gray & corners & Hg & _ & ->)]];
      [exact Hframe | exact Hframe |].
    rewrite Hgray in Hg. injection Hg as <-.
    destruct corners as [|c cs]; [exact Hframe|].
    intros _. cbn. auto. }
  destruct (calculateRealVel_state image height t Hdef)
    as [[_ ->] | [Hlast [-> | [-> | [-> | (gray & corners & Hg & _ & ->)]]]]];
    [exact Hextract | exact Hframe | exact Hframe | exact Hframe |].
  rewrite Hgray in Hg. injection Hg as <-.
  destruct (Hframe Hlast) as (_ & _ & Hh & Hw).
  intros _. cbn. auto.
Qed.

End BlockFacts.

Lemma image_signal_covers p input_image :
  image_signal p input_image ->
  forall r c,
    (r < Z.to_nat (Block.height p))%nat -> (c < Z.to_nat (Block.width p))%nat ->
    exists x,
      nth_error input_image (r + c * Z.to_nat (Block.height p)) = Some x /\
      F64.is_nan x = false.
Proof.
  intros [Hlen Hall] r c Hr Hc.
  destruct (nth_error input_image (r + c * Z.to_nat (Block.height p)))
    as [x|] eqn:Hx.
  - exists x. split; [reflexivity|].
    rewrite Forall_forall in Hall. apply Hall.
    now apply nth_error_In in Hx.
  - apply nth_error_None in Hx. nia.
Qed.

Section BlockStep.

Context {L : Library}.

(** One step of a block whose work pointers are set. *)
Lemma mdlOutputs_run input_image delta_t elapsed S tracker image :
  lk_tracks_every_point L \/ cv.empty (_last_im tracker) = true ->
  Block.PWork0 S = Some tracker -> Block.PWork1 S = Some image ->
  cv.cols image = Block.width (Block.SFcnParam S) ->
  List.length (cv.data image)
  = (Z.to_nat (Block.height (Block.SFcnParam S))
     * Z.to_nat (Block.width (Block.SFcnParam S)))%nat ->
  outputs_allocated S ->
  image_signal (Block.SFcnParam S) input_image ->
  let tracker1 := snd (_set_delta_t_ delta_t tracker) in
  let num_rows := fst (Block.OutputPortDimensions0 S) in
  let num_cols := snd (Block.OutputPortDimensions0 S) in
  exists image1 step out,
    fill_image (Block.height (Block.SFcnParam S))
      (Block.width (Block.SFcnParam S)) input_image image = Some image1 /\
    same_header image1 image /\
    try_calculateRealVel image1 tracker1
    = (Ok step, snd (calculateRealVel image1 F32.one tracker1)) /\
    List.length (vel_y step) = List.length (vel_x step) /\
    (List.length (vel_x step) <= List.length (_features tracker))%nat /\
    match fst (calculateRealVel image1 F32.one tracker1) with
    | Ok (vx, vy, _, _, _) =>
        step = {| vel_x := vx; vel_y := vy; ssWarning := None |}
    | Throw e =>
        step = {| vel_x := []; vel_y := []; ssWarning := Some (cv.what e) |}
    | Undefined => False
    end /\
    Block.mdlOutputs input_image delta_t elapsed S
    = Some {| Block.SFcnParam := Block.SFcnParam S;
              Block.PWork0 :=
                Some (snd (calculateRealVel image1 F32.one tracker1));
              Block.PWork1 := Some image1;
              Block.ErrorStatus := Block.ErrorStatus S;
              Block.Warnings :=
                Block.Warnings S ++ Block.issued (ssWarning step);
              Block.OutputPortDimensions0 := Block.OutputPortDimensions0 S;
              Block.output_velocities := out;
              Block.computation_time := elapsed;
              Block.num_features :=
                F64.of_int
                  (Z.min (Z.of_nat (List.length (vel_x step))) num_cols) |} /\
    List.length out = List.length (Block.output_velocities S) /\
    forall j row,
      (j < Z.to_nat num_cols)%nat -> (row < Z.to_nat num_rows)%nat ->
      nth_error out (row + j * Z.to_nat num_rows)
      = match row with
        | 0%nat | 1%nat => Some (velocity_cell (vel_x step) (vel_y step) num_cols
                             row j)
        | _ => nth_error (Block.output_velocities S)
                 (row + j * Z.to_nat num_rows)
        end.
Proof.
  intros Hcase HP0 HP1 Hcols Hlen (HR & HC & Hout) Hsig tracker1 num_rows
    num_cols.
  destruct (fill_image_transposes _ _ input_image image Hcols Hlen
              (image_signal_covers _ _ Hsig))
    as (image1 & Hfill & Hhead & _ & _).
  destruct (try_calculateRealVel_returns image1 tracker1 Hcase)
    as (step & Htry & Hy & Hx & Hstep).
  destruct (write_outputs_spec num_rows num_cols (vel_x step) (vel_y step)
              (Block.output_velocities S) HR HC Hout)
    as (out & Hwrite & Hlen' & Hcells); [lia|].
  exists image1, step, out.
  split; [exact Hfill|]. split; [exact Hhead|]. split; [exact Htry|].
  split; [exact Hy|]. split; [exact Hx|]. split; [exact Hstep|].
  split; [|split; [exact Hlen'|]].
  - unfold Block.mdlOutputs. rewrite HP0, HP1, Hfill.
    fold tracker1. rewrite Htry.
    destruct (Block.OutputPortDimensions0 S) as [R C] eqn:Hdims.
    cbn [fst snd] in *. subst num_rows num_cols.
    rewrite Hwrite. reflexivity.
  - intros j row Hj Hrow. rewrite (Hcells j row Hj Hrow).
    unfold velocity_cell. destruct row as [|[|row]]; reflexivity.
Qed.

(** A ready block stays ready. *)
Lemma mdlOutputs_keeps_ready input_image delta_t elapsed S :
  lk_tracks_every_point L ->
  ready S -> outputs_allocated S ->
  image_signal (Block.SFcnParam S) input_image ->
  exists S',
    Block.mdlOutputs input_image delta_t elapsed S = Some S' /\
    ready S' /\ outputs_allocated S' /\
    Block.SFcnParam S' = Block.SFcnParam S /\
    Block.OutputPortDimensions0 S' = Block.OutputPortDimensions0 S /\
    Block.ErrorStatus S' = Block.ErrorStatus S.
Proof.
  intros Hlk (tracker & image & HP0 & HP1 & Hreach & Hframe & Hrows & Hcols
              & Hch & Hlen) Halloc Hsig.
  destruct (mdlOutputs_run input_image delta_t elapsed S tracker image
              (or_introl Hlk) HP0 HP1 Hcols Hlen Halloc Hsig)
    as (image1 & step & out & _ & (G1 & G2 & G3 & G4) & _ & _ & _ & _ & ->
        & Hlen' & _).
  eexists. split; [reflexivity|].
  pose proof (calculateRealVel_defined image1 F32.one
                (snd (_set_delta_t_ delta_t tracker)) Hlk) as Hdef.
  split; [|split; [|auto]].
  - exists (snd (calculateRealVel image1 F32.one
                   (snd (_set_delta_t_ delta_t tracker)))), image1.
    cbn [Block.PWork0 Block.PWork1 Block.SFcnParam].
    split; [reflexivity|]. split; [reflexivity|]. split.
    + eapply reachable_step; [|apply step_calculateRealVel; exact Hdef].
      eapply reachable_step; [exact Hreach | apply step_set_delta_t].
    + split; [|repeat split; congruence].
      apply frame_matches_step; try congruence. exact Hframe.
  - destruct Halloc as (HR & HC & Hout). unfold outputs_allocated.
    cbn [Block.OutputPortDimensions0 Block.output_velocities].
    repeat split; congruence.
Qed.

End BlockStep.

Section BlockRun.

Context {L : Library}.

Variable new_Mat : Z -> Z -> cv.result cv.Mat.
Hypothesis new_Mat_allocates : allocates_as_asked new_Mat.

(** What [mdlStart] leaves: a fresh tracker and a buffer of the size of the
    parameters; nothing else of the block has changed. *)
Lemma mdlStart_ready S0 S1 :
  Block.mdlStart new_Mat S0 = cv.Returns S1 ->
  ready S1 /\
  (exists tracker, Block.PWork0 S1 = Some tracker /\
                   cv.empty (_last_im tracker) = true /\
                   _features tracker = []) /\
  Block.SFcnParam S1 = Block.SFcnParam S0 /\
  Block.OutputPortDimensions0 S1 = Block.OutputPortDimensions0 S0 /\
  Block.output_velocities S1 = Block.output_velocities S0 /\
  Block.ErrorStatus S1 = Block.ErrorStatus S0 /\
  Block.Warnings S1 = Block.Warnings S0.
Proof.
  unfold Block.mdlStart.
  destruct (new_Mat (Block.height (Block.SFcnParam S0))
              (Block.width (Block.SFcnParam S0))) as [image|e] eqn:Hnew;
    [|discriminate].
  intros H. injection H as <-.
  destruct (new_Mat_allocates _ _ _ Hnew) as (_ & _ & Hr & Hc & Hch & Hlen).
  split; [|split; [|repeat split; reflexivity]].
  - eexists _, image. cbn [Block.PWork0 Block.PWork1 Block.SFcnParam
                            Block.ssSetPWorkValues].
    split; [reflexivity|]. split; [reflexivity|].
    split; [apply reachable_ctor|].
    split; [intros Hne; cbn in Hne; discriminate|]. split; [exact Hr|]. split; [exact Hc|]. split; [exact Hch | exact Hlen].
  - eexists. cbn [Block.PWork0 Block.ssSetPWorkValues].
    split; [reflexivity|]. split; reflexivity.
Qed.

Lemma simulate_keeps_ready samples : forall S,
  lk_tracks_every_point L ->
  ready S -> outputs_allocated S ->
  Forall (fun sample =>
            image_signal (Block.SFcnParam S) (fst (fst sample))) samples ->
  exists S',
    Block.simulate samples S = Some S' /\
    ready S' /\ outputs_allocated S' /\
    Block.SFcnParam S' = Block.SFcnParam S /\
    Block.OutputPortDimensions0 S' = Block.OutputPortDimensions0 S /\
    Block.ErrorStatus S' = Block.ErrorStatus S.
Proof.
  induction samples as [|[[input_image delta_t] elapsed] rest IH];
    intros S Hlk Hready Halloc Hsig.
  - exists S. split; [reflexivity|]. split; [exact Hready|].
    split; [exact Halloc|]. split; [reflexivity|]. split; reflexivity.
  - inversion Hsig as [|? ? Hhead Htail]; subst. cbn [fst] in Hhead.
    destruct (mdlOutputs_keeps_ready input_image delta_t elapsed S Hlk Hready
                Halloc Hhead)
      as (S1 & Hstep & Hready1 & Halloc1 & Hp & Hd & He).
    cbn [Block.simulate]. rewrite Hstep.
    rewrite <- Hp in Htail.
    destruct (IH S1 Hlk Hready1 Halloc1 Htail)
      as (S' & Hrun & ? & ? & ? & ? & ?).
    exists S'. split; [exact Hrun|]. split; [assumption|].
    split; [assumption|]. split; [congruence|]. split; congruence.
Qed.

(** X14.  From [mdlStart] on, no step of the block reads or writes out of
    range, for any sequence of images without NaN and any time steps: every
    [mdlOutputs] returns, the work pointers stay set, and the error status
    is never touched. *)
Theorem simulation_never_undefined S0 S1 samples :
  lk_tracks_every_point L ->
  outputs_allocated S0 ->
  Block.mdlStart new_Mat S0 = cv.Returns S1 ->
  Forall (fun sample =>
            image_signal (Block.SFcnParam S0) (fst (fst sample))) samples ->
  exists S' tracker image,
    Block.simulate samples S1 = Some S' /\
    Block.PWork0 S' = Some tracker /\ Block.PWork1 S' = Some image /\
    Block.ErrorStatus S' = Block.ErrorStatus S0.
Proof.
  intros Hlk Halloc Hstart Hsig.
  destruct (mdlStart_ready S0 S1 Hstart)
    as (Hready & _ & Hp & Hd & Ho & He & _).
  destruct (simulate_keeps_ready samples S1 Hlk Hready) as
    (S' & Hrun & (tracker & image & HP0 & HP1 & _) & _ & _ & _ & He').
  - unfold outputs_allocated. rewrite Hd, Ho. exact Halloc.
  - now rewrite Hp.
  - exists S', tracker, image. repeat split; auto. congruence.
Qed.

(** X15.  Inside the block the frame dimensions of the tracker are the block
    parameters: whenever the tracker holds a reference frame, that frame is
    [height] by [width], and so are [_img_height] and [_img_width], although
    a re-seed in [calculateRealVel] stores a frame without updating them. *)
Theorem block_frame_dimensions S0 S1 samples S' tracker :
  lk_tracks_every_point L ->
  outputs_allocated S0 ->
  Block.mdlStart new_Mat S0 = cv.Returns S1 ->
  Forall (fun sample =>
            image_signal (Block.SFcnParam S0) (fst (fst sample))) samples ->
  Block.simulate samples S1 = Some S' ->
  Block.PWork0 S' = Some tracker ->
  cv.empty (_last_im tracker) = false ->
  cv.rows (_last_im tracker) = Block.height (Block.SFcnParam S0) /\
  cv.cols (_last_im tracker) = Block.width (Block.SFcnParam S0) /\
  _img_height tracker = Block.height (Block.SFcnParam S0) /\
  _img_width tracker = Block.width (Block.SFcnParam S0).
Proof.
  intros Hlk Halloc Hstart Hsig Hrun HP0 Hlast.
  destruct (mdlStart_ready S0 S1 Hstart)
    as (Hready & _ & Hp & Hd & Ho & _ & _).
  destruct (simulate_keeps_ready samples S1 Hlk Hready) as
    (S'' & Hrun' & (tracker' & image & HP0' & _ & _ & Hframe & _) & _ & Hp'
     & _).
  - unfold outputs_allocated. rewrite Hd, Ho. exact Halloc.
  - now rewrite Hp.
  - rewrite Hrun in Hrun'. injection Hrun' as <-.
    rewrite HP0 in HP0'. injection HP0' as <-.
    rewrite Hp', Hp in Hframe. exact (Hframe Hlast).
Qed.

End BlockRun.

Lemma of_int_zero : F64.of_int 0 = F64.zero.
Proof. reflexivity. Qed.

Section BlockOutputs.

Context {L : Library}.

(** X10.  The outputs of a step.  With [vel_x], [vel_y] the vectors the [try]
    block leaves, column [j] of output port 0 holds [(vel_x[j], vel_y[j])],
    converted to double, for [j] below [min(vel_x.size(), num_cols)], and
    [(0, 0)] from there on; rows beyond the second are not written; port 2
    is that minimum and port 1 the measured duration. *)
Theorem step_outputs input_image delta_t elapsed S tracker image :
  lk_tracks_every_point L ->
  Block.PWork0 S = Some tracker -> Block.PWork1 S = Some image ->
  cv.cols image = Block.width (Block.SFcnParam S) ->
  List.length (cv.data image)
  = (Z.to_nat (Block.height (Block.SFcnParam S))
     * Z.to_nat (Block.width (Block.SFcnParam S)))%nat ->
  outputs_allocated S ->
  image_signal (Block.SFcnParam S) input_image ->
  let num_rows := fst (Block.OutputPortDimensions0 S) in
  let num_cols := snd (Block.OutputPortDimensions0 S) in
  exists image1 step S',
    fill_image (Block.height (Block.SFcnParam S))
      (Block.width (Block.SFcnParam S)) input_image image = Some image1 /\
    fst (try_calculateRealVel image1 (snd (_set_delta_t_ delta_t tracker)))
    = Ok step /\
    Block.mdlOutputs input_image delta_t elapsed S = Some S' /\
    Block.num_features S'
    = F64.of_int (Z.min (Z.of_nat (List.length (vel_x step))) num_cols) /\
    Block.computation_time S' = elapsed /\
    List.length (Block.output_velocities S')
    = List.length (Block.output_velocities S) /\
    forall j row,
      (j < Z.to_nat num_cols)%nat -> (row < Z.to_nat num_rows)%nat ->
      nth_error (Block.output_velocities S') (row + j * Z.to_nat num_rows)
      = match row with
        | 0%nat | 1%nat => Some (velocity_cell (vel_x step) (vel_y step) num_cols
                             row j)
        | _ => nth_error (Block.output_velocities S)
                 (row + j * Z.to_nat num_rows)
        end.
Proof.
  intros Hlk HP0 HP1 Hcols Hlen Halloc Hsig num_rows num_cols.
  destruct (mdlOutputs_run input_image delta_t elapsed S tracker image
              (or_introl Hlk) HP0 HP1 Hcols Hlen Halloc Hsig)
    as (image1 & step & out & Hfill & _ & Htry & _ & _ & _ & Hout & Hlen'
        & Hcells).
  exists image1, step. eexists.
  split; [exact Hfill|]. split; [now rewrite Htry|].
  split; [exact Hout|]. cbn [Block.num_features Block.computation_time
                              Block.output_velocities].
  split; [reflexivity|]. split; [reflexivity|]. split; [exact Hlen'|].
  exact Hcells.
Qed.

(** X11.  A step in which [calculateRealVel] throws: the message is added to
    the warnings, the error status is left alone, port 2 reads 0 and the
    first two rows of port 0 are zero in every column. *)
Theorem exception_zeroes_outputs input_image delta_t elapsed S tracker image
    e :
  lk_tracks_every_point L ->
  Block.PWork0 S = Some tracker -> Block.PWork1 S = Some image ->
  cv.cols image = Block.width (Block.SFcnParam S) ->
  List.length (cv.data image)
  = (Z.to_nat (Block.height (Block.SFcnParam S))
     * Z.to_nat (Block.width (Block.SFcnParam S)))%nat ->
  outputs_allocated S ->
  image_signal (Block.SFcnParam S) input_image ->
  (forall image1,
     fill_image (Block.height (Block.SFcnParam S))
       (Block.width (Block.SFcnParam S)) input_image image = Some image1 ->
     fst (calculateRealVel image1 F32.one (snd (_set_delta_t_ delta_t tracker)))
     = Throw e) ->
  exists S',
    Block.mdlOutputs input_image delta_t elapsed S = Some S' /\
    Block.Warnings S' = Block.Warnings S ++ [cv.what e] /\
    Block.ErrorStatus S' = Block.ErrorStatus S /\
    Block.num_features S' = F64.zero /\
    forall j row,
      (j < Z.to_nat (snd (Block.OutputPortDimensions0 S)))%nat ->
      (row < 2)%nat ->
      nth_error (Block.output_velocities S')
        (row + j * Z.to_nat (fst (Block.OutputPortDimensions0 S)))
      = Some F64.zero.
Proof.
  intros Hlk HP0 HP1 Hcols Hlen Halloc Hsig Hthrow.
  destruct (mdlOutputs_run input_image delta_t elapsed S tracker image
              (or_introl Hlk) HP0 HP1 Hcols Hlen Halloc Hsig)
    as (image1 & step & out & Hfill & _ & _ & _ & _ & Hstep & Hout & _
        & Hcells).
  rewrite (Hthrow image1 Hfill) in Hstep. subst step.
  destruct Halloc as (HR & HC & _).
  eexists. split; [exact Hout|].
  cbn [Block.Warnings Block.ErrorStatus Block.num_features
       Block.output_velocities vel_x vel_y ssWarning Block.issued
       List.length] in *.
  split; [reflexivity|]. split; [reflexivity|].
  split; [now rewrite Z.min_l by lia|].
  intros j row Hj Hrow. rewrite Hcells by lia.
  unfold velocity_cell. cbn [List.length]. rewrite Z.min_l by lia.
  destruct row as [|[|row]]; [reflexivity | reflexivity | lia].
Qed.

(** X12.  The first step after [mdlStart] reports nothing, whatever the image
    shows and whatever the two OpenCV calls do: port 2 reads 0 and the first
    two rows of port 0 are zero.  If the tracker holds features afterwards,
    they are what the detector found in the converted image, which is now
    the reference frame, and the frame dimensions are the block
    parameters. *)
Theorem first_step_reports_nothing new_Mat input_image delta_t elapsed S0 S1 :
  allocates_as_asked new_Mat ->
  outputs_allocated S0 ->
  Block.mdlStart new_Mat S0 = cv.Returns S1 ->
  image_signal (Block.SFcnParam S0) input_image ->
  exists S2 tracker2 image1,
    Block.mdlOutputs input_image delta_t elapsed S1 = Some S2 /\
    Block.PWork0 S2 = Some tracker2 /\ Block.PWork1 S2 = Some image1 /\
    Block.num_features S2 = F64.zero /\
    (forall j row,
       (j < Z.to_nat (snd (Block.OutputPortDimensions0 S0)))%nat ->
       (row < 2)%nat ->
       nth_error (Block.output_velocities S2)
         (row + j * Z.to_nat (fst (Block.OutputPortDimensions0 S0)))
       = Some F64.zero) /\
    (_features tracker2 <> [] ->
     goodFeaturesToTrack image1 1000 (1 # 10) (8 # 1) cv.Mat_default 2
       = cv.Returns (_features tracker2) /\
     _last_im tracker2 = image1 /\
     _img_height tracker2 = Block.height (Block.SFcnParam S0) /\
     _img_width tracker2 = Block.width (Block.SFcnParam S0)).
Proof.
  intros Hnew Halloc Hstart Hsig.
  destruct (mdlStart_ready new_Mat Hnew S0 S1 Hstart)
    as ((tracker & image & HP0 & HP1 & _ & _ & Hrows & Hcols & Hch & Hlen)
        & (tracker' & HP0' & Hlast & Hfeat) & Hp & Hd & Ho & _ & _).
  rewrite HP0 in HP0'. injection HP0' as <-.
  assert (Halloc1 : outputs_allocated S1)
    by (unfold outputs_allocated; rewrite Hd, Ho; exact Halloc).
  rewrite <- Hp in Hsig.
  destruct (mdlOutputs_run input_image delta_t elapsed S1 tracker image
              (or_intror Hlast) HP0 HP1 Hcols Hlen Halloc1 Hsig)
    as (image1 & step & out & Hfill & (G1 & G2 & G3 & G4) & _ & Hy & Hx & _
        & Hout & _ & Hcells).
  rewrite Hfeat in Hx. cbn [List.length] in Hx.
  assert (Hvx : List.length (vel_x step) = 0%nat) by lia.
  destruct Halloc as (HR & HC & _).
  eexists _, _, image1. split; [exact Hout|].
  cbn [Block.PWork0 Block.PWork1 Block.num_features Block.output_velocities].
  split; [reflexivity|]. split; [reflexivity|].
  rewrite Hd in *. rewrite Hvx.
  split; [now rewrite Z.min_l by lia|]. split.
  - intros j row Hj Hrow. rewrite Hcells by lia.
    unfold velocity_cell. rewrite Hvx, Z.min_l by lia.
    destruct row as [|[|row]]; [reflexivity | reflexivity | lia].
  - set (tracker1 := snd (_set_delta_t_ delta_t tracker)).
    assert (Hlast1 : cv.empty (_last_im tracker1) = true) by exact Hlast.
    assert (Hfeat1 : _features tracker1 = []) by exact Hfeat.
    assert (Hsnd : snd (calculateRealVel image1 F32.one tracker1)
                   = snd (extractFeatures image1 tracker1)).
    { unfold calculateRealVel, bind, this, ret. rewrite Hlast1.
      destruct (extractFeatures image1 tracker1) as [[| |] t']; reflexivity. }
    rewrite Hsnd.
    assert (Hgray : to_gray image1 = cv.Returns image1)
      by (apply to_gray_single_channel; congruence).
    destruct (extractFeatures_state image1 tracker1)
      as [-> | [-> | (gray & corners & Hg & Hdet & ->)]];
      [rewrite Hfeat1; congruence | cbn; congruence |].
    rewrite Hgray in Hg. injection Hg as <-.
    destruct corners as [|c cs]; [cbn; congruence|].
    intros _. cbn. rewrite <- Hp. repeat split; congruence.
Qed.

(** X13.  With output port 0 as [mdlInitializeSizes] declares it, 2 by 1000,
    no velocity is dropped: the detector is asked for at most 1000 corners,
    so port 2 is the number of velocities found and every one of them is in
    its column. *)
Theorem all_features_reported input_image delta_t elapsed S :
  lk_tracks_every_point L -> detector_respects_cap L ->
  ready S -> outputs_allocated S ->
  Block.OutputPortDimensions0 S = Block.output_port_0 ->
  image_signal (Block.SFcnParam S) input_image ->
  exists tracker image image1 step S',
    Block.PWork0 S = Some tracker /\ Block.PWork1 S = Some image /\
    fill_image (Block.height (Block.SFcnParam S))
      (Block.width (Block.SFcnParam S)) input_image image = Some image1 /\
    fst (try_calculateRealVel image1 (snd (_set_delta_t_ delta_t tracker)))
    = Ok step /\
    Block.mdlOutputs input_image delta_t elapsed S = Some S' /\
    Block.num_features S' = F64.of_int (Z.of_nat (List.length (vel_x step))) /\
    List.length (vel_y step) = List.length (vel_x step) /\
    forall j,
      (j < List.length (vel_x step))%nat ->
      nth_error (Block.output_velocities S') (0 + j * 2)
      = Some (F64.of_float (nth j (vel_x step) F32.zero)) /\
      nth_error (Block.output_velocities S') (1 + j * 2)
      = Some (F64.of_float (nth j (vel_y step) F32.zero)).
Proof.
  intros Hlk Hcap (tracker & image & HP0 & HP1 & Hreach & _ & _ & Hcols & _
                   & Hlen) Halloc Hdims Hsig.
  pose proof (features_within_cap Hcap tracker Hreach) as Hfeat.
  destruct (mdlOutputs_run input_image delta_t elapsed S tracker image
              (or_introl Hlk) HP0 HP1 Hcols Hlen Halloc Hsig)
    as (image1 & step & out & Hfill & _ & Htry & Hy & Hx & _ & Hout & _
        & Hcells).
  rewrite Hdims in *. cbn [fst snd Block.output_port_0] in *.
  change (Z.to_nat 2) with 2%nat in Hcells.
  change (Z.to_nat 1000) with 1000%nat in Hcells.
  assert (Hmin : Z.min (Z.of_nat (List.length (vel_x step))) 1000
                 = Z.of_nat (List.length (vel_x step))) by lia.
  exists tracker, image, image1, step. eexists.
  split; [exact HP0|]. split; [exact HP1|]. split; [exact Hfill|].
  split; [now rewrite Htry|]. split; [exact Hout|].
  cbn [Block.num_features Block.output_velocities].
  split; [now rewrite Hmin|]. split; [exact Hy|].
  intros j Hj.
  assert (Hlt : (j <? Z.to_nat (Z.of_nat (List.length (vel_x step))))%nat
                = true) by (apply Nat.ltb_lt; lia).
  split.
  - rewrite (Hcells j 0%nat) by lia. unfold velocity_cell.
    now rewrite Hmin, Hlt.
  - rewrite (Hcells j 1%nat) by lia. unfold velocity_cell.
    now rewrite Hmin, Hlt.
Qed.

(** X9.  The image buffer after a step: pixel [(r, c)] is the input sample
    [r + c * height] (column-major), scaled by 255, clamped to [0, 255] and
    truncated; the header of the buffer is unchanged. *)
Theorem image_buffer_after_step input_image delta_t elapsed S tracker image :
  lk_tracks_every_point L ->
  Block.PWork0 S = Some tracker -> Block.PWork1 S = Some image ->
  cv.cols image = Block.width (Block.SFcnParam S) ->
  List.length (cv.data image)
  = (Z.to_nat (Block.height (Block.SFcnParam S))
     * Z.to_nat (Block.width (Block.SFcnParam S)))%nat ->
  outputs_allocated S ->
  image_signal (Block.SFcnParam S) input_image ->
  exists S' image1,
    Block.mdlOutputs input_image delta_t elapsed S = Some S' /\
    Block.PWork1 S' = Some image1 /\
    same_header image1 image /\
    forall r c,
      (r < Z.to_nat (Block.height (Block.SFcnParam S)))%nat ->
      (c < Z.to_nat (Block.width (Block.SFcnParam S)))%nat ->
      exists x px,
        nth_error input_image
          (r + c * Z.to_nat (Block.height (Block.SFcnParam S))) = Some x /\
        pixel_of x = Some px /\ 0 <= px <= 255 /\
        nth_error (cv.data image1)
          (r * Z.to_nat (Block.width (Block.SFcnParam S)) + c) = Some px.
Proof.
  intros Hlk HP0 HP1 Hcols Hlen Halloc Hsig.
  destruct (mdlOutputs_run input_image delta_t elapsed S tracker image
              (or_introl Hlk) HP0 HP1 Hcols Hlen Halloc Hsig)
    as (image1 & step & out & Hfill & Hhead & _ & _ & _ & _ & Hout & _).
  destruct (fill_image_transposes _ _ input_image image Hcols Hlen
              (image_signal_covers _ _ Hsig))
    as (image1' & Hfill' & _ & Hpix & _).
  rewrite Hfill in Hfill'. injection Hfill' as <-.
  eexists _, image1. split; [exact Hout|].
  split; [reflexivity|]. split; [exact Hhead|].
  intros r c Hr Hc.
  destruct (Hpix r c Hr Hc) as (x & Hx & Hnth).
  destruct (image_signal_covers _ _ Hsig r c Hr Hc) as (x' & Hx' & Hnan).
  rewrite Hx in Hx'. injection Hx' as <-.
  destruct (pixel_in_range x Hnan) as (px & Hpx & Hrange).
  exists x, px. rewrite Hnth. auto.
Qed.

End BlockOutputs.


(** X7.  The pixel conversion is undefined for NaN only: any other sample,
    infinite ones included, gives a byte. *)
Theorem pixel_defined_unless_nan x :
  (pixel_of x = None <-> F64.is_nan x = true) /\
  forall px, pixel_of x = Some px -> 0 <= px <= 255.
Proof.
  split; [split|].
  - intros Hnone. destruct (F64.is_nan x) eqn:Hnan; [reflexivity|].
    destruct (pixel_in_range x Hnan) as (px & Hpx & _). congruence.
  - intros Hnan. destruct x; try discriminate. reflexivity.
  - intros px Hpx. destruct (F64.is_nan x) eqn:Hnan.
    + destruct x; try discriminate.
    + destruct (pixel_in_range x Hnan) as (px' & Hpx' & Hrange). congruence.
Qed.

(** X8.  Samples that are zero or negative, down to minus infinity, become
    the byte 0. *)
Theorem pixel_of_nonpositive x :
  match x with
  | S754_zero _ => True
  | S754_infinity s | S754_finite s _ _ => s = true
  | S754_nan => False
  end ->
  pixel_of x = Some 0.
Proof.
  destruct x as [s|s| |s m e]; intros Hx; try contradiction.
  - destruct s; reflexivity.
  - subst s. reflexivity.
  - subst s. unfold pixel_of.
    pose proof (binary_round_aux_shape F64.prec F64.emax eq_refl
                  (xorb true false) (m * 8972014882652160) (e + -45) loc_Exact)
      as Hs.
    unfold F64.mul, F64.c255, SFmul.
    destruct (binary_round_aux F64.prec F64.emax _ _ _ _)
      as [s'|s'| |s' m' e']; cbn [rounded_shape xorb] in Hs;
      try contradiction.
    + subst s'. reflexivity.
    + subst s'. reflexivity.
    + destruct Hs as [-> _]. reflexivity.
Qed.

Lemma pixel_of_nonpositive_witness :
  pixel_of (S754_finite true 4503599627370496 (-52)) = Some 0.
Proof.
  apply (pixel_of_nonpositive (S754_finite true 4503599627370496 (-52))).
  reflexivity.
Defined.

Lemma clamp_between_witness :
  SFleb F64.zero (clamp (F64.of_int 300) F64.zero F64.c255) = true /\
  SFleb (clamp (F64.of_int 300) F64.zero F64.c255) F64.c255 = true.
Proof.
  apply (clamp_between (F64.of_int 300) F64.zero F64.c255); reflexivity.
Defined.

(** X16.  After [mdlTerminate] a further [mdlOutputs] only sets the error
    status: no output is written and no warning issued. *)
Theorem outputs_after_terminate {L : Library} input_image delta_t elapsed S :
  exists S',
    Block.mdlOutputs input_image delta_t elapsed (Block.mdlTerminate S)
    = Some S' /\
    Block.ErrorStatus S' = Some "Optical flow tracker not initialized."%string /\
    Block.PWork0 S' = None /\ Block.PWork1 S' = None /\
    Block.output_velocities S' = Block.output_velocities S /\
    Block.computation_time S' = Block.computation_time S /\
    Block.num_features S' = Block.num_features S /\
    Block.Warnings S' = Block.Warnings S.
Proof.
  eexists. split; [reflexivity|]. cbn. repeat split; reflexivity.
Qed.

(** * The contracts in the scenarios *)

Lemma without_tracking_lk L :
  lk_tracks_every_point (without_tracking L).
Proof. intros prev next pts win lvl crit nextPts status err. discriminate. Qed.

Lemma still_library_lk : lk_tracks_every_point still_library.
Proof.
  intros prev next pts win lvl crit nextPts status err. cbn.
  unfold still_tracker. intros H. injection H as <- <- <-.
  now rewrite length_map.
Qed.

Lemma still_library_tan : tan_keeps_zero still_library.
Proof. intros [|]; reflexivity. Qed.

Lemma zeros_Mat_allocates : allocates_as_asked BlockScenario.zeros_Mat.
Proof.
  intros rows cols m. unfold BlockScenario.zeros_Mat.
  destruct (rows <? 0) eqn:Hr; destruct (cols <? 0) eqn:Hc; cbn [orb];
    try discriminate.
  intros H. injection H as <-. cbn.
  apply Z.ltb_ge in Hr, Hc. rewrite repeat_length.
  split; [exact Hr|]. split; [exact Hc|]. repeat split.
Qed.

Lemma scenario_S0_allocated : outputs_allocated BlockScenario.S0.
Proof.
  unfold outputs_allocated. cbn [BlockScenario.S0 Block.OutputPortDimensions0
                                 Block.output_velocities Block.output_port_0
                                 fst snd].
  split; [lia|]. split; [lia|]. now rewrite repeat_length.
Qed.

Lemma scenario_signalA : image_signal BlockScenario.parameters
                           BlockScenario.signalA.
Proof. split; [reflexivity|]. repeat constructor. Qed.

Lemma scenario_signalB : image_signal BlockScenario.parameters
                           BlockScenario.signalB.
Proof. split; [reflexivity|]. repeat constructor. Qed.

Lemma scenario_started L :
  Block.mdlStart (L := L) BlockScenario.zeros_Mat BlockScenario.S0
  = cv.Returns (BlockScenario.started L).
Proof. reflexivity. Qed.

Lemma scenario_seeded_ready L :
  lk_tracks_every_point L ->
  @ready L (BlockScenario.seeded L) /\
  outputs_allocated (BlockScenario.seeded L) /\
  Block.SFcnParam (BlockScenario.seeded L) = BlockScenario.parameters /\
  Block.OutputPortDimensions0 (BlockScenario.seeded L) = Block.output_port_0.
Proof.
  intros Hlk.
  destruct (mdlStart_ready (L := L) BlockScenario.zeros_Mat
              zeros_Mat_allocates BlockScenario.S0 (BlockScenario.started L)
              (scenario_started L))
    as (Hready & _ & Hp & Hd & Ho & _).
  assert (Halloc : outputs_allocated (BlockScenario.started L)).
  { unfold outputs_allocated. rewrite Hd, Ho. exact scenario_S0_allocated. }
  destruct (mdlOutputs_keeps_ready (L := L) BlockScenario.signalA
              BlockScenario.delta_t BlockScenario.elapsed
              (BlockScenario.started L) Hlk Hready Halloc)
    as (S' & Hstep & Hready' & Halloc' & Hp' & Hd' & _).
  { rewrite Hp. exact scenario_signalA. }
  unfold BlockScenario.seeded. rewrite Hstep.
  split; [exact Hready'|]. split; [exact Halloc'|].
  split; [now rewrite Hp', Hp | now rewrite Hd', Hd].
Qed.

(** * Witnesses *)

Lemma zero_motion_zero_velocity_witness :
  exists v_est_x v_est_y old_features,
    fst (calculateRealVel (L := still_library) Scenario.frameA (F32.of_int 2)
           Scenario.tracker1)
    = Ok (v_est_x, v_est_y, _features Scenario.tracker1, old_features, true) /\
    Forall (fun v => F32.is_zero v = true) v_est_x /\
    Forall (fun v => F32.is_zero v = true) v_est_y.
Proof.
  apply (zero_motion_zero_velocity (L := still_library) Scenario.tracker1
           Scenario.frameA (F32.of_int 2) Scenario.frameA
           (_features Scenario.tracker1)
           (map (fun _ => 1) (_features Scenario.tracker1))
           (map (fun _ => F32.zero) (_features Scenario.tracker1))
           Scenario.cornersA).
  - vm_compute. reflexivity.
  - vm_compute. reflexivity.
  - vm_compute. reflexivity.
  - reflexivity.
  - vm_compute. reflexivity.
  - vm_compute. reflexivity.
  - exact still_library_tan.
  - vm_compute. repeat constructor.
  - reflexivity.
  - vm_compute. reflexivity.
  - vm_compute. reflexivity.
  - vm_compute. discriminate.
  - vm_compute. discriminate.
  - exists false, 13421773%positive, (-27). vm_compute. reflexivity.
Defined.

Lemma zero_interval_no_finite_velocity_witness :
  exists v_est_x v_est_y old_features,
    fst (calculateRealVel (L := Scenario.library) Scenario.frameB
           (F32.of_int 2)
           (snd (_set_delta_t_ (S754_zero false) Scenario.tracker1)))
    = Ok (v_est_x, v_est_y, Scenario.nextB, old_features, true) /\
    Forall (fun v => is_finite_float v = false) v_est_x /\
    Forall (fun v => is_finite_float v = false) v_est_y.
Proof.
  apply (zero_interval_no_finite_velocity (L := Scenario.library)
           (snd (_set_delta_t_ (S754_zero false) Scenario.tracker1))
           Scenario.frameB (F32.of_int 2) Scenario.frameB
           Scenario.nextB Scenario.statusB Scenario.errB Scenario.cornersB);
    vm_compute; reflexivity.
Defined.

Lemma has_features_tells_current_frame_witness :
  fst (_has_features
         (snd (calculateRealVel (L := Scenario.library) Scenario.frameB
                 (F32.of_int 2) Scenario.tracker1)))
  = Ok (negb (vector_empty Scenario.cornersB)) /\
  _features (snd (calculateRealVel (L := Scenario.library) Scenario.frameB
                    (F32.of_int 2) Scenario.tracker1))
  = Scenario.cornersB.
Proof.
  apply (has_features_tells_current_frame (L := Scenario.library)
           Scenario.tracker1 Scenario.frameB (F32.of_int 2) Scenario.frameB
           Scenario.cornersB).
  - vm_compute. reflexivity.
  - vm_compute. reflexivity.
  - exists Scenario.nextB, Scenario.statusB, Scenario.errB.
    vm_compute. repeat split; reflexivity.
Defined.

Lemma fields_of_view_fixed_witness :
  _fov_h Scenario.tracker1
  = (F32.two * Scenario.atan3
                 (_cmos_width Scenario.tracker1
                  / (F32.two * _focal_length Scenario.tracker1)))%f32 /\
  _fov_v Scenario.tracker1
  = (F32.two * Scenario.atan3
                 (_cmos_height Scenario.tracker1
                  / (F32.two * _focal_length Scenario.tracker1)))%f32.
Proof.
  apply (fields_of_view_fixed (L := Scenario.library) Scenario.tracker1).
  exact scenario_tracker1_reachable.
Defined.

Lemma tracking_keeps_dimensions_witness :
  _img_width (snd (calculateRealVel (L := still_library)
                     Scenario.frameSmall F32.one Scenario.tracker1))
  = _img_width Scenario.tracker1 /\
  _img_height (snd (calculateRealVel (L := still_library)
                      Scenario.frameSmall F32.one Scenario.tracker1))
  = _img_height Scenario.tracker1.
Proof.
  apply (tracking_keeps_dimensions (L := still_library) Scenario.tracker1
           Scenario.frameSmall F32.one).
  vm_compute. reflexivity.
Defined.

Lemma simulation_never_undefined_witness :
  exists S' tracker image,
    Block.simulate (L := Scenario.library)
      [(BlockScenario.signalA, BlockScenario.delta_t, BlockScenario.elapsed);
       (BlockScenario.signalB, BlockScenario.delta_t, BlockScenario.elapsed)]
      (BlockScenario.started Scenario.library) = Some S' /\
    Block.PWork0 S' = Some tracker /\ Block.PWork1 S' = Some image /\
    Block.ErrorStatus S' = Block.ErrorStatus BlockScenario.S0.
Proof.
  apply (simulation_never_undefined (L := Scenario.library)
           BlockScenario.zeros_Mat zeros_Mat_allocates BlockScenario.S0
           (BlockScenario.started Scenario.library)).
  - exact scenario_lk_tracks_every_point.
  - exact scenario_S0_allocated.
  - reflexivity.
  - repeat constructor.
Defined.

Lemma block_frame_dimensions_witness :
  cv.rows (_last_im (BlockScenario.tracker_in
                       (BlockScenario.seeded Scenario.library))) = 4 /\
  cv.cols (_last_im (BlockScenario.tracker_in
                       (BlockScenario.seeded Scenario.library))) = 3 /\
  _img_height (BlockScenario.tracker_in
                 (BlockScenario.seeded Scenario.library)) = 4 /\
  _img_width (BlockScenario.tracker_in
                (BlockScenario.seeded Scenario.library)) = 3.
Proof.
  apply (block_frame_dimensions (L := Scenario.library)
           BlockScenario.zeros_Mat zeros_Mat_allocates BlockScenario.S0
           (BlockScenario.started Scenario.library)
           [(BlockScenario.signalA, BlockScenario.delta_t,
             BlockScenario.elapsed)]
           (BlockScenario.seeded Scenario.library)
           (BlockScenario.tracker_in (BlockScenario.seeded Scenario.library))).
  - exact scenario_lk_tracks_every_point.
  - exact scenario_S0_allocated.
  - reflexivity.
  - repeat constructor.
  - vm_compute. reflexivity.
  - vm_compute. reflexivity.
  - vm_compute. reflexivity.
Defined.

Lemma step_outputs_witness :
  exists S',
    Block.mdlOutputs (L := Scenario.library) BlockScenario.signalB
      BlockScenario.delta_t BlockScenario.elapsed
      (BlockScenario.seeded Scenario.library) = Some S' /\
    Block.computation_time S' = BlockScenario.elapsed /\
    List.length (Block.output_velocities S') = 2000%nat.
Proof.
  destruct (step_outputs (L := Scenario.library) BlockScenario.signalB
              BlockScenario.delta_t BlockScenario.elapsed
              (BlockScenario.seeded Scenario.library)
              (BlockScenario.tracker_in (BlockScenario.seeded Scenario.library))
              (BlockScenario.image_in (BlockScenario.seeded Scenario.library))
              scenario_lk_tracks_every_point)
    as (image1 & step & S' & _ & _ & Hout & _ & Htime & Hlen & _).
  - vm_compute. reflexivity.
  - vm_compute. reflexivity.
  - vm_compute. reflexivity.
  - vm_compute. reflexivity.
  - exact (proj1 (proj2 (scenario_seeded_ready Scenario.library
                           scenario_lk_tracks_every_point))).
  - rewrite (proj1 (proj2 (proj2 (scenario_seeded_ready Scenario.library
                                     scenario_lk_tracks_every_point)))).
    exact scenario_signalB.
  - exists S'. split; [exact Hout|]. split; [exact Htime|].
    rewrite Hlen. vm_compute. reflexivity.
Defined.

Lemma exception_zeroes_outputs_witness :
  exists S',
    Block.mdlOutputs (L := without_tracking Scenario.library)
      BlockScenario.signalB BlockScenario.delta_t BlockScenario.elapsed
      (BlockScenario.seeded (without_tracking Scenario.library)) = Some S' /\
    Block.Warnings S' = ["calcOpticalFlowPyrLK is not linked"%string] /\
    Block.num_features S' = F64.zero.
Proof.
  destruct (exception_zeroes_outputs (L := without_tracking Scenario.library)
              BlockScenario.signalB BlockScenario.delta_t BlockScenario.elapsed
              (BlockScenario.seeded (without_tracking Scenario.library))
              (BlockScenario.tracker_in
                 (BlockScenario.seeded (without_tracking Scenario.library)))
              (BlockScenario.image_in
                 (BlockScenario.seeded (without_tracking Scenario.library)))
              {| cv.what := "calcOpticalFlowPyrLK is not linked" |}
              (without_tracking_lk Scenario.library))
    as (S' & Hout & Hwarn & _ & Hnum & _).
  - vm_compute. reflexivity.
  - vm_compute. reflexivity.
  - vm_compute. reflexivity.
  - vm_compute. reflexivity.
  - exact (proj1 (proj2 (scenario_seeded_ready
                           (without_tracking Scenario.library)
                           (without_tracking_lk Scenario.library)))).
  - rewrite (proj1 (proj2 (proj2 (scenario_seeded_ready
                                     (without_tracking Scenario.library)
                                     (without_tracking_lk Scenario.library))))).
    exact scenario_signalB.
  - intros image1 Hfill.
    assert (E : Some image1 = Some BlockScenario.imageB)
      by (rewrite <- Hfill; vm_compute; reflexivity).
    injection E as ->. vm_compute. reflexivity.
  - exists S'. split; [exact Hout|]. split; [exact Hwarn | exact Hnum].
Defined.

Lemma first_step_reports_nothing_witness :
  exists S2 tracker2 image1,
    Block.mdlOutputs (L := Scenario.library) BlockScenario.signalA
      BlockScenario.delta_t BlockScenario.elapsed
      (BlockScenario.started Scenario.library) = Some S2 /\
    Block.PWork0 S2 = Some tracker2 /\ Block.PWork1 S2 = Some image1 /\
    Block.num_features S2 = F64.zero.
Proof.
  destruct (first_step_reports_nothing (L := Scenario.library)
              BlockScenario.zeros_Mat BlockScenario.signalA
              BlockScenario.delta_t BlockScenario.elapsed BlockScenario.S0
              (BlockScenario.started Scenario.library)
              zeros_Mat_allocates scenario_S0_allocated eq_refl
              scenario_signalA)
    as (S2 & tracker2 & image1 & Hout & HP0 & HP1 & Hnum & _).
  exists S2, tracker2, image1. auto.
Defined.

Lemma all_features_reported_witness :
  exists S' step,
    Block.mdlOutputs (L := Scenario.library) BlockScenario.signalB
      BlockScenario.delta_t BlockScenario.elapsed
      (BlockScenario.seeded Scenario.library) = Some S' /\
    Block.num_features S' = F64.of_int (Z.of_nat (List.length (vel_x step))) /\
    List.length (vel_y step) = List.length (vel_x step).
Proof.
  destruct (scenario_seeded_ready Scenario.library
              scenario_lk_tracks_every_point) as (Hready & Halloc & Hp & Hd).
  destruct (all_features_reported (L := Scenario.library) BlockScenario.signalB
              BlockScenario.delta_t BlockScenario.elapsed
              (BlockScenario.seeded Scenario.library)
              scenario_lk_tracks_every_point scenario_detector_respects_cap
              Hready Halloc Hd)
    as (tracker & image & image1 & step & S' & _ & _ & _ & _ & Hout & Hnum
        & Hy & _).
  - rewrite Hp. exact scenario_signalB.
  - exists S', step. auto.
Defined.

Lemma image_buffer_after_step_witness :
  exists S' image1,
    Block.mdlOutputs (L := Scenario.library) BlockScenario.signalB
      BlockScenario.delta_t BlockScenario.elapsed
      (BlockScenario.seeded Scenario.library) = Some S' /\
    Block.PWork1 S' = Some image1 /\
    same_header image1
      (BlockScenario.image_in (BlockScenario.seeded Scenario.library)).
Proof.
  destruct (image_buffer_after_step (L := Scenario.library)
              BlockScenario.signalB BlockScenario.delta_t BlockScenario.elapsed
              (BlockScenario.seeded Scenario.library)
              (BlockScenario.tracker_in (BlockScenario.seeded Scenario.library))
              (BlockScenario.image_in (BlockScenario.seeded Scenario.library))
              scenario_lk_tracks_every_point)
    as (S' & image1 & Hout & HP1 & Hhead & _).
  - vm_compute. reflexivity.
  - vm_compute. reflexivity.
  - vm_compute. reflexivity.
  - vm_compute. reflexivity.
  - exact (proj1 (proj2 (scenario_seeded_ready Scenario.library
                           scenario_lk_tracks_every_point))).
  - rewrite (proj1 (proj2 (proj2 (scenario_seeded_ready Scenario.library
                                     scenario_lk_tracks_every_point)))).
    exact scenario_signalB.
  - exists S', image1. auto.
Defined.

